(** * crash_target: the crash adapter behind gdb's target contract

    A shallow embedding of the two variants of [crash_target.c]:

    - the per-task variant ([src/crash_target.c]): one gdb thread that
      always shows the task crash has selected;
    - the per-CPU variant ([src/unnamed/part_000]): one gdb thread per CPU.

    The adapter is stateful C++ code that calls into gdb (thread list,
    register caches, frame cache) and into crash (register and memory
    primitives).  It is embedded as a state-and-exception monad over a
    [world]: the part of gdb's state the adapter touches, crash's own
    state, the adapter's statics, and a trace of the calls made to the
    collaborators.  gdb's [error ()] is the monad's [throw]: the state
    reached so far is kept, as in C++ when the exception leaves the
    function. *)

From Stdlib Require Import ZArith List Lia Strings.Byte.
From stdpp Require Import base decidable option list numbers countable gmap strings pretty.

Local Open Scope Z_scope.

(** ** C scalars *)

Abbreviation byte := Byte.byte.

#[global] Instance byte_eq_dec : EqDecision byte := Byte.byte_eq_dec.

(** [#define TRUE 1] / [#define FALSE 0] of crash's [defs.h]. *)
Definition TRUE : Z := 1.
Definition FALSE : Z := 0.

(** Conversion of an [int] to [size_t] (64 bits), as the comparison
    [regsize > sizeof (regval)] performs it. *)
Definition to_size_t (z : Z) : Z := z mod 2 ^ 64.

(** Conversion of a [ULONGEST] to [int] (32 bits, two's complement), as the
    call [gdb_readmem_callback (offset, buf, len, write)] performs it on
    [len]. *)
Definition to_int (z : Z) : Z := (z + 2 ^ 31) mod 2 ^ 32 - 2 ^ 31.

Definition INT_MAX : Z := 2 ^ 31 - 1.
Definition INT_MIN : Z := - 2 ^ 31.

(** Conversion of an [unsigned long] to [long] (64 bits, two's
    complement), as [%ld] reads the [unsigned long] argument of
    [string_printf ("%ld %s", pid, comm)]. *)
Definition to_long (z : Z) : Z := (z + 2 ^ 63) mod 2 ^ 64 - 2 ^ 63.

(** [string_printf]'s conversion [%ld] (and [%d]): the decimal digits,
    after a minus sign for a negative number. *)
Definition printf_ld (z : Z) : string := pretty z.

(** ** gdb's data, as far as the adapter sees it *)

(** [ptid_t (pid, lwp, tid)]. *)
Record ptid_t := mk_ptid { ptid_pid : Z; ptid_lwp : Z; ptid_tid : Z }.

#[global] Instance ptid_t_eq_dec : EqDecision ptid_t.
Proof. solve_decision. Defined.

#[global] Instance ptid_t_countable : Countable ptid_t.
Proof.
  refine (inj_countable'
            (fun p => (ptid_pid p, ptid_lwp p, ptid_tid p))
            (fun t => mk_ptid t.1.1 t.1.2 t.2) _).
  by intros [].
Defined.

(** Modelled from the spec: the Debugger Thread Record of gdb
    ([thread_info], declared in gdb's [gdbthread.h]), which "carries a
    composite identifier (process-id, lightweight-id, cpu-or-slot)". *)
Record thread_info := mk_thread { ti_ptid : ptid_t }.

#[global] Instance thread_info_eq_dec : EqDecision thread_info.
Proof. solve_decision. Defined.

(** Modelled from the spec: the architecture description ([struct gdbarch],
    gdb's [gdbarch.h]) with the three queries the adapter makes:
    register count, register name and register byte width. *)
Record gdbarch := mk_gdbarch {
  gdbarch_num_regs : Z;
  gdbarch_register_name : Z -> string;
  register_size : Z -> Z
}.

(** Modelled from the spec: one entry of a Register Cache, which "holds the
    last-fetched value of every architecture register, or an explicit
    unavailable marker per register".  A register that was never supplied
    (gdb's [REG_UNKNOWN]) has no entry. *)
Inductive cached_reg :=
| RegValid (val : list byte)
| RegUnavailable.

#[global] Instance cached_reg_eq_dec : EqDecision cached_reg.
Proof. solve_decision. Defined.

(** Modelled from the spec: the object kinds of a transfer request
    ([enum target_object], gdb's [target.h]); the three memory kinds and
    some of the others. *)
Inductive target_object :=
| TARGET_OBJECT_AVR
| TARGET_OBJECT_MEMORY
| TARGET_OBJECT_RAW_MEMORY
| TARGET_OBJECT_STACK_MEMORY
| TARGET_OBJECT_CODE_MEMORY
| TARGET_OBJECT_UNWIND_TABLE
| TARGET_OBJECT_WCOOKIE
| TARGET_OBJECT_AUXV
| TARGET_OBJECT_MEMORY_MAP
| TARGET_OBJECT_FLASH
| TARGET_OBJECT_AVAILABLE_FEATURES
| TARGET_OBJECT_LIBRARIES
| TARGET_OBJECT_THREADS
| TARGET_OBJECT_OSDATA
| TARGET_OBJECT_SIGNAL_INFO.

#[global] Instance target_object_eq_dec : EqDecision target_object.
Proof. solve_decision. Defined.

(** Modelled from the spec: the results of a transfer
    ([enum target_xfer_status], gdb's [target.h]). *)
Inductive target_xfer_status :=
| TARGET_XFER_OK
| TARGET_XFER_EOF
| TARGET_XFER_UNAVAILABLE
| TARGET_XFER_E_IO.

#[global] Instance target_xfer_status_eq_dec : EqDecision target_xfer_status.
Proof. solve_decision. Defined.

(** ** The trace of calls to the collaborators *)

Inductive event :=
| EvReadmem (offset : Z) (len : Z) (write : Z) (rc : Z)
    (* gdb_readmem_callback was called and returned rc *)
| EvGetReg (r : Z) (regsize : Z) (rc : Z) (val : list byte)
    (* the per-register read primitive was called for r; it returned rc
       and left val in the scratch buffer *)
| EvSetThread (task : Z) (cpu : Z)        (* crash_set_thread *)
| EvGetNrCpus (n : Z)                     (* crash_get_nr_cpus *)
| EvFindThread (p : ptid_t) (found : bool)  (* find_thread_ptid *)
| EvAddThread (p : ptid_t) (ok : bool)    (* add_thread_silent *)
| EvSwitchToThread (p : ptid_t)           (* switch_to_thread *)
| EvRawSupply (cache : ptid_t) (r : Z)    (* regcache->raw_supply *)
| EvRegistersChanged                      (* registers_changed *)
| EvReinitFrameCache.                     (* reinit_frame_cache *)

#[global] Instance event_eq_dec : EqDecision event.
Proof. solve_decision. Defined.

Definition is_registers_changed (e : event) : bool :=
  match e with EvRegistersChanged => true | _ => false end.
Definition is_reinit_frame_cache (e : event) : bool :=
  match e with EvReinitFrameCache => true | _ => false end.
Definition is_readmem (e : event) : bool :=
  match e with EvReadmem _ _ _ _ => true | _ => false end.
Definition is_get_reg (e : event) : bool :=
  match e with EvGetReg _ _ _ _ => true | _ => false end.
Definition is_add_thread (e : event) : bool :=
  match e with EvAddThread _ _ => true | _ => false end.
Definition is_find_thread (e : event) : bool :=
  match e with EvFindThread _ _ => true | _ => false end.
Definition is_switch_to_thread (e : event) : bool :=
  match e with EvSwitchToThread _ => true | _ => false end.
Definition is_raw_supply (e : event) : bool :=
  match e with EvRawSupply _ _ => true | _ => false end.

(** How many events of a kind a trace holds. *)
Definition count (p : event -> bool) (t : list event) : nat :=
  length (List.filter p t).

(** ** The world the adapter runs in *)

(** [crash] is the state of the analysis tool, of a type the adapter knows
    nothing about.  [thread_list], [inferior_ptid] and [regcaches] are
    gdb's: the thread records of the one inferior in creation order, the
    selected thread, and the register cache of each thread (a missing
    cache is one in which no register is known).  [prev_task] is the
    [static ulong prev_task] of the per-task variant's
    [gdb_change_thread_context]; the per-CPU variant has no such static
    and never touches the field. *)
Record world (tool : Type) := mk_world {
  crash : tool;
  thread_list : list thread_info;
  inferior_ptid : ptid_t;
  regcaches : gmap ptid_t (gmap Z cached_reg);
  prev_task : Z;
  trace : list event
}.
Arguments mk_world {tool}.
Arguments crash {tool}.
Arguments thread_list {tool}.
Arguments inferior_ptid {tool}.
Arguments regcaches {tool}.
Arguments prev_task {tool}.
Arguments trace {tool}.

(** How a call ends: it returns, or gdb's [error ()] threw. *)
Inductive outcome (A : Type) :=
| Normal (a : A)
| Thrown (msg : string).
Arguments Normal {A}.
Arguments Thrown {A}.

Definition M (tool A : Type) : Type := world tool -> outcome A * world tool.

Section Monad.
Context {tool : Type}.

Definition ret {A} (a : A) : M tool A := fun w => (Normal a, w).

Definition bind {A B} (m : M tool A) (k : A -> M tool B) : M tool B :=
  fun w => match m w with
           | (Normal a, w') => k a w'
           | (Thrown msg, w') => (Thrown msg, w')
           end.

(** gdb's [error (msg)]. *)
Definition error {A} (msg : string) : M tool A := fun w => (Thrown msg, w).

Definition set_crash (w : world tool) (c : tool) : world tool :=
  mk_world c (thread_list w) (inferior_ptid w) (regcaches w) (prev_task w)
           (trace w).
Definition set_thread_list (w : world tool) (l : list thread_info) :=
  mk_world (crash w) l (inferior_ptid w) (regcaches w) (prev_task w)
           (trace w).
Definition set_inferior_ptid (w : world tool) (p : ptid_t) :=
  mk_world (crash w) (thread_list w) p (regcaches w) (prev_task w) (trace w).
Definition set_regcaches (w : world tool)
    (rc : gmap ptid_t (gmap Z cached_reg)) :=
  mk_world (crash w) (thread_list w) (inferior_ptid w) rc (prev_task w)
           (trace w).
Definition set_prev_task (w : world tool) (t : Z) :=
  mk_world (crash w) (thread_list w) (inferior_ptid w) (regcaches w) t
           (trace w).
Definition set_trace (w : world tool) (t : list event) :=
  mk_world (crash w) (thread_list w) (inferior_ptid w) (regcaches w)
           (prev_task w) t.

Definition get : M tool (world tool) := fun w => (Normal w, w).

(** Record one call in the trace. *)
Definition log (e : event) : M tool unit :=
  fun w => (Normal tt, set_trace w (trace w ++ [e])).

(** Call a primitive of crash: it sees and may change crash's state. *)
Definition call {A} (f : tool -> A * tool) : M tool A :=
  fun w => let (a, c) := f (crash w) in (Normal a, set_crash w c).
End Monad.

Notation "'let*' x ':=' c 'in' k" := (bind c (fun x => k))
  (at level 10, x pattern, c at level 100, k at level 200).
Notation "c ';;' k" := (bind c (fun _ => k))
  (at level 100, k at level 200, right associativity).

(** ** gdb's side of the contract *)

(** The calls below are gdb's own functions; the adapter only calls them.
    Each is modelled by what the spec says of it, and leaves its event in
    the trace. *)
Section Gdb.
Context {tool : Type}.

(** Modelled from the spec: [find_thread_ptid (inf, ptid)] of gdb's
    [thread.c], "look up an existing Debugger Thread Record": the first
    record of the inferior with that identifier, [nullptr] if none. *)
Definition find_thread_ptid (ptid : ptid_t) : M tool (option thread_info) :=
  let* w := get in
  let tp := List.find (fun t => bool_decide (ti_ptid t = ptid))
                      (thread_list w) in
  log (EvFindThread ptid (bool_decide (is_Some tp)));;
  ret tp.

(** Modelled from the spec: [add_thread_silent (target, ptid)] of gdb's
    [thread.c], which creates a thread record with that identifier and
    adds it to the inferior, whether or not the identifier has a record
    already: keeping one record per CPU is the adapter's business.  The
    per-CPU variant tests its result, so creation may fail:
    [new_thread_ok] says whether the host can create the record. *)
Definition add_thread_silent
    (new_thread_ok : list thread_info -> ptid_t -> bool)
    (ptid : ptid_t) : M tool (option thread_info) :=
  let* w := get in
  if new_thread_ok (thread_list w) ptid then
    let thread := mk_thread ptid in
    (fun w => (Normal tt, set_thread_list w (thread_list w ++ [thread])));;
    log (EvAddThread ptid true);;
    ret (Some thread)
  else
    log (EvAddThread ptid false);;
    ret None.

(** Modelled from the spec: [switch_to_thread (tp)] of gdb's [thread.c]
    makes the record the active thread. *)
Definition switch_to_thread (tp : thread_info) : M tool unit :=
  (fun w => (Normal tt, set_inferior_ptid w (ti_ptid tp)));;
  log (EvSwitchToThread (ti_ptid tp)).

(** Modelled from the spec: [get_thread_regcache (tp)] of gdb's
    [regcache.c]; a register cache is named by the thread it belongs
    to. *)
Definition get_thread_regcache (tp : thread_info) : ptid_t := ti_ptid tp.

(** Modelled from the spec: [get_current_regcache ()], the register cache
    of the active thread. *)
Definition get_current_regcache : M tool ptid_t :=
  let* w := get in ret (inferior_ptid w).

(** The registers of one cache. *)
Definition regs_of (w : world tool) (cache : ptid_t) : gmap Z cached_reg :=
  default ∅ (regcaches w !! cache).

(** Modelled from the spec: [regcache->raw_supply (r, buf)] of gdb's
    [regcache.c]: with a buffer, "the register is marked present with
    the returned bytes" (the register's width of them); with [NULL],
    "the register is marked explicitly unavailable". *)
Definition raw_supply (arch : gdbarch) (cache : ptid_t) (r : Z)
    (buf : option (list byte)) : M tool unit :=
  let entry := match buf with
               | Some b => RegValid (take (Z.to_nat (register_size arch r)) b)
               | None => RegUnavailable
               end in
  (fun w => (Normal tt,
             set_regcaches w
               (<[cache := <[r := entry]> (regs_of w cache)]> (regcaches w))));;
  log (EvRawSupply cache r).

(** Modelled from the spec: [registers_changed ()] of gdb's [regcache.c],
    "invalidate cached register state (mark all registers logically
    stale)": every register cache is dropped. *)
Definition registers_changed : M tool unit :=
  (fun w => (Normal tt, set_regcaches w ∅));;
  log EvRegistersChanged.

(** Modelled from the spec: [reinit_frame_cache ()] of gdb's [frame.c],
    "invalidate the Stack/Frame Cache". *)
Definition reinit_frame_cache : M tool unit := log EvReinitFrameCache.

(** Modelled from the spec: [inferior_thread ()] of gdb's [thread.c], the
    Debugger Thread Record that is active; gdb asserts that there is
    one. *)
Definition inferior_thread : M tool thread_info :=
  let* w := get in
  match List.find (fun t => bool_decide (ti_ptid t = inferior_ptid w))
                  (thread_list w) with
  | Some tp => ret tp
  | None => error "inferior_thread: Assertion `tp' failed."
  end.

(** Modelled from the spec: [warning (msg)] of gdb's [utils.c] prints the
    message on gdb's error stream, which is no part of the world. *)
Definition warning (msg : string) : M tool unit := ret tt.
End Gdb.

(** ** The adapter: what the two variants share *)

(** [gdb_byte regval[16]]: [sizeof (regval)]. *)
Definition sizeof_regval : Z := 16.

Definition buffer_too_small : string :=
  "fatal error: buffer size is not enough to fit register value".

Section RegisterProjector.
Context {tool : Type}.

(** The architecture of the register cache, [regcache->arch ()]. *)
Variable arch : gdbarch.

(** The per-register read primitive of crash, already applied to the
    context it reads for: [crash_get_current_task_reg] in the per-task
    variant, [crash_get_cpu_reg (cpu, ...)] in the per-CPU variant.  Its
    arguments are the register number, name and size and the contents
    of the buffer [val] points to; it returns its [int] result and what
    it left in the buffer. *)
Variable read_reg :
  Z -> string -> Z -> list byte -> tool -> (Z * list byte) * tool.

(** The body of the loop of [fetch_registers], the same text in both
    variants but for the primitive called:
<<
    const char *regname = gdbarch_register_name(arch, r);
    int regsize = register_size (arch, r);
    if (regsize > sizeof (regval))
      error (_("fatal error: buffer size is not enough to fit register value"));

    if (crash_get_..._reg (..., r, regname, regsize, &regval))
      regcache->raw_supply (r, regval);
    else
      regcache->raw_supply (r, NULL);
>>
    The scratch buffer [regval] is one array for the whole call, so its
    contents go from one round to the next. *)
Definition fetch_one (regcache : ptid_t) (r : Z) (regval : list byte)
  : M tool (list byte) :=
  let regname := gdbarch_register_name arch r in
  let regsize := register_size arch r in
  if to_size_t regsize >? sizeof_regval then error buffer_too_small
  else
    let* (rc, regval) := call (read_reg r regname regsize regval) in
    log (EvGetReg r regsize rc regval);;
    (if negb (rc =? 0)
     then raw_supply arch regcache r (Some regval)
     else raw_supply arch regcache r None);;
    ret regval.

(** The rounds of the loop for the register numbers [rs], in order. *)
Fixpoint fetch_each (regcache : ptid_t) (rs : list Z) (regval : list byte)
  : M tool (list byte) :=
  match rs with
  | [] => ret regval
  | r :: rs' =>
      let* regval := fetch_one regcache r regval in
      fetch_each regcache rs' regval
  end.
End RegisterProjector.

Section MemoryRelay.
Context {tool : Type}.

(** [gdb_readmem_callback (addr, buf, len, write)] of crash: its
    arguments are the address, the contents of the buffer ([None] for a
    null pointer), the length and the write flag; it returns its [int]
    result and what it left in the buffer. *)
Variable gdb_readmem_callback :
  Z -> option (list byte) -> Z -> Z -> tool ->
  (Z * option (list byte)) * tool.

(** What [xfer_partial] leaves behind: its status, the contents of
    [readbuf] and the value of [*xfered_len]. *)
Record xfer_result := mk_xfer {
  xfer_status : target_xfer_status;
  xfer_readbuf : option (list byte);
  xfer_xfered_len : Z
}.

(** [crash_target::xfer_partial], the same text in both variants.
    [readbuf] and [writebuf] are the contents of the two buffers, [None]
    for a null pointer; [xfered_len] is the value of [*xfered_len]
    before the call. *)
Definition xfer_partial (object : target_object) (annex : option string)
    (readbuf writebuf : option (list byte)) (offset len : Z)
    (xfered_len : Z) : M tool xfer_result :=
  if bool_decide (object <> TARGET_OBJECT_MEMORY)
     && bool_decide (object <> TARGET_OBJECT_STACK_MEMORY)
     && bool_decide (object <> TARGET_OBJECT_CODE_MEMORY)
  then ret (mk_xfer TARGET_XFER_E_IO readbuf xfered_len)
  else
    let buf := if readbuf is Some _ then readbuf else writebuf in
    let write := if readbuf is Some _ then 0 else 1 in
    let* (rc, buf) :=
      call (gdb_readmem_callback offset buf (to_int len) write) in
    log (EvReadmem offset (to_int len) write rc);;
    let readbuf := if readbuf is Some _ then buf else readbuf in
    if negb (rc =? 0)
    then ret (mk_xfer TARGET_XFER_OK readbuf len)
    else ret (mk_xfer TARGET_XFER_E_IO readbuf xfered_len).
End MemoryRelay.

(** [#define CRASH_INFERIOR_PID 1] *)
Definition CRASH_INFERIOR_PID : Z := 1.

(** ** The per-task variant, [src/crash_target.c] *)
Module PerTask.
Section Adapter.
Context {tool : Type}.
Variable arch : gdbarch.

(** [crash_get_current_task_reg (regno, regname, regsize, val)]. *)
Variable crash_get_current_task_reg :
  Z -> string -> Z -> list byte -> tool -> (Z * list byte) * tool.

(** What the uninitialised [regval] holds when [fetch_registers] is
    entered. *)
Variable regval_on_entry : list byte.

(** [crash_target::fetch_registers (regcache, regno)].  With
    [regno >= 0] control jumps to [onetime] inside the loop; after that
    round the loop test [regno == -1] fails.  Otherwise the loop runs
    over all registers when [regno == -1], and not at all for another
    negative [regno]. *)
Definition fetch_registers (regcache : ptid_t) (regno : Z) : M tool unit :=
  if regno >=? 0 then
    fetch_one arch crash_get_current_task_reg regcache regno
              regval_on_entry;;
    ret tt
  else if regno =? -1 then
    fetch_each arch crash_get_current_task_reg regcache
               (seqZ 0 (gdbarch_num_regs arch)) regval_on_entry;;
    ret tt
  else ret tt.

(** [target_fetch_registers] of gdb calls the target's method. *)
Definition target_fetch_registers := fetch_registers.

(** [crash_target_init ()].  [add_thread_silent]'s result is used
    unchecked; should gdb hand back no record, [switch_to_thread] is an
    internal error of gdb. *)
Definition crash_target_init
    (new_thread_ok : list thread_info -> ptid_t -> bool) : M tool unit :=
  let* thread :=
    add_thread_silent new_thread_ok (mk_ptid CRASH_INFERIOR_PID 0 0) in
  match thread with
  | None => error "switch_to_thread: null thread"
  | Some thread =>
      switch_to_thread thread;;
      (let* regcache := get_current_regcache in
       target_fetch_registers regcache (-1));;
      reinit_frame_cache
  end.

(** [gdb_change_thread_context (task)]:
<<
static ulong prev_task = 0;
if (task == prev_task)
  return TRUE;
prev_task = task;

registers_changed();
reinit_frame_cache();
return TRUE;
>> *)
Definition gdb_change_thread_context (task : Z) : M tool Z :=
  let* w := get in
  if task =? prev_task w then ret TRUE
  else
    (fun w => (Normal tt, set_prev_task w task));;
    registers_changed;;
    reinit_frame_cache;;
    ret TRUE.

(** [crash_get_current_task_info (&pid, &comm)]: the pid and the command
    name of the task crash has selected. *)
Variable crash_get_current_task_info : tool -> (Z * string) * tool.

(** [crash_target::pid_to_str (ptid)]:
<<
  unsigned long pid;
  char *comm;
  crash_get_current_task_info(&pid, &comm);
  return string_printf ("%ld %s", pid, comm);
>> *)
Definition pid_to_str (ptid : ptid_t) : M tool string :=
  let* (pid, comm) := call crash_get_current_task_info in
  ret (printf_ld (to_long pid) +:+ " " +:+ comm).
End Adapter.

(** The statics of the translation unit at program start:
  [static ulong prev_task = 0]. *)
Definition initial_prev_task : Z := 0.
End PerTask.

(** ** The per-CPU variant, [src/unnamed/part_000] *)
Module PerCpu.
Section Adapter.
Context {tool : Type}.
Variable arch : gdbarch.

(** [crash_get_cpu_reg (cpu, regno, regname, regsize, val)]. *)
Variable crash_get_cpu_reg :
  Z -> Z -> string -> Z -> list byte -> tool -> (Z * list byte) * tool.

(** [crash_set_thread (task)]: the CPU of the task, negative if none. *)
Variable crash_set_thread : Z -> tool -> Z * tool.

(** [crash_get_nr_cpus ()]. *)
Variable crash_get_nr_cpus : tool -> Z * tool.

(** Whether gdb can create one more thread record. *)
Variable new_thread_ok : list thread_info -> ptid_t -> bool.

Variable regval_on_entry : list byte.

(** [crash_target::fetch_registers (regcache, regno)]: "We just get all
    the registers, so we don't use regno."  The CPU read is the one of
    the active thread, [inferior_ptid.tid ()], stored in an [int]. *)
Definition fetch_registers (regcache : ptid_t) (regno : Z) : M tool unit :=
  let* w := get in
  let cpu := to_int (ptid_tid (inferior_ptid w)) in
  fetch_each arch (crash_get_cpu_reg cpu) regcache
             (seqZ 0 (gdbarch_num_regs arch)) regval_on_entry;;
  ret tt.

Definition target_fetch_registers := fetch_registers.

(** The loop of [crash_target_init], for the CPU indices [cpus]:
<<
    thread_info *thread = add_thread_silent (target,
                                      ptid_t(CRASH_INFERIOR_PID, 0, i));
    if (!i)
      switch_to_thread (thread);
>> *)
Fixpoint add_cpu_threads (cpus : list Z) : M tool unit :=
  match cpus with
  | [] => ret tt
  | i :: cpus' =>
      let* thread :=
        add_thread_silent new_thread_ok (mk_ptid CRASH_INFERIOR_PID 0 i) in
      (if i =? 0 then
         match thread with
         | None => error "switch_to_thread: null thread"
         | Some thread => switch_to_thread thread
         end
       else ret tt);;
      add_cpu_threads cpus'
  end.

(** [crash_target_init ()]. *)
Definition crash_target_init : M tool unit :=
  let* nr_cpus := call crash_get_nr_cpus in
  log (EvGetNrCpus nr_cpus);;
  add_cpu_threads (seqZ 0 nr_cpus);;
  (let* regcache := get_current_regcache in
   target_fetch_registers regcache (-1));;
  reinit_frame_cache.

(** One pass through the code at the label [retry]:
<<
retry:
 thread_info *tp = find_thread_ptid (inf, ptid);
 if (tp == nullptr && !tried) {
   thread_info *thread = add_thread_silent(target,
				ptid_t(CRASH_INFERIOR_PID, 0, cpu));
   tried++;
   if (thread) {
     goto retry;
   }
 }
>>
    It returns [tp], [tried] and whether [goto retry] was taken. *)
Definition lookup_pass (cpu : Z) (ptid : ptid_t) (tried : Z)
  : M tool (option thread_info * Z * bool) :=
  let* tp := find_thread_ptid ptid in
  if bool_decide (tp = None) && (tried =? 0) then
    let* thread :=
      add_thread_silent new_thread_ok (mk_ptid CRASH_INFERIOR_PID 0 cpu) in
    let tried := tried + 1 in
    if thread is Some _ then ret (tp, tried, true)
    else ret (tp, tried, false)
  else ret (tp, tried, false).

(** The passes made while [goto retry] is taken; [fuel] bounds their
    number (see [retry_loop_fuel]: two passes always suffice). *)
Fixpoint retry_loop (fuel : nat) (cpu : Z) (ptid : ptid_t) (tried : Z)
  : M tool (option (option thread_info * Z)) :=
  match fuel with
  | O => ret None
  | S fuel' =>
      let* (tp, tried, again) := lookup_pass cpu ptid tried in
      if again then retry_loop fuel' cpu ptid tried
      else ret (Some (tp, tried))
  end.

(** [gdb_change_thread_context (task)]. *)
Definition gdb_change_thread_context (task : Z) : M tool Z :=
  let tried := 0 in
  let* cpu := call (crash_set_thread task) in
  log (EvSetThread task cpu);;
  if cpu <? 0 then ret FALSE
  else
    let ptid := mk_ptid CRASH_INFERIOR_PID 0 cpu in
    let* found := retry_loop 2 cpu ptid tried in
    match found with
    | None => error "retry: out of fuel"
    | Some (tp, tried) =>
        if bool_decide (tp = None) && negb (tried =? 0) then ret FALSE
        else
          match tp with
          | None => error "get_thread_regcache: null thread"
          | Some tp =>
              target_fetch_registers (get_thread_regcache tp) (-1);;
              switch_to_thread tp;;
              reinit_frame_cache;;
              ret TRUE
          end
    end.

(** [crash_target::pid_to_str (ptid)]:
    [string_printf ("CPU %ld", ptid.tid ())]. *)
Definition pid_to_str (ptid : ptid_t) : string :=
  "CPU " +:+ printf_ld (ptid_tid ptid).

(** [set_cpu (cpu, print_context)] of crash. *)
Variable set_cpu : Z -> Z -> tool -> Z * tool.

(** [gdb_refresh_regcache (cpu)], with [cpu] an [unsigned int]:
<<
  int saved_cpu = inferior_thread()->ptid.tid();
  ptid_t ptid = ptid_t(CRASH_INFERIOR_PID, 0, cpu);
  inferior *inf = current_inferior();
  thread_info *tp = find_thread_ptid (inf, ptid);

  if (tp == NULL) {
    warning("gdb thread for cpu %d not found\n", cpu);
    return;
  }

  set_cpu(cpu, FALSE);
  target_fetch_registers(get_thread_regcache(tp), -1);

  set_cpu(saved_cpu, FALSE);
>> *)
Definition gdb_refresh_regcache (cpu : Z) : M tool unit :=
  let* active := inferior_thread in
  let saved_cpu := to_int (ptid_tid (ti_ptid active)) in
  let ptid := mk_ptid CRASH_INFERIOR_PID 0 cpu in
  let* tp := find_thread_ptid ptid in
  match tp with
  | None =>
      warning ("gdb thread for cpu " +:+ printf_ld (to_int cpu)
               +:+ " not found" +:+ String (Ascii.ascii_of_nat 10) "")
  | Some tp =>
      call (set_cpu (to_int cpu) FALSE);;
      target_fetch_registers (get_thread_regcache tp) (-1);;
      call (set_cpu saved_cpu FALSE);;
      ret tt
  end.
End Adapter.
End PerCpu.

(** ** Concrete collaborators, for running the adapter *)
Module Demo.
(** A crash whose state counts the primitive calls made so far. *)
Definition tool : Type := nat.

(** An architecture of [n] registers named r0, r1, ... with the widths
    [sizes] (width 0 beyond the list). *)
Definition arch_of (sizes : list Z) : gdbarch :=
  mk_gdbarch (Z.of_nat (length sizes))
             (fun r => String.append "r" (pretty r))
             (fun r => default 0 (sizes !! Z.to_nat r)).

(** A read primitive that succeeds on the registers for which [ok]
    holds, filling the buffer with the byte [xab]. *)
Definition read_reg (ok : Z -> bool) (r : Z) (regname : string)
    (regsize : Z) (val : list byte) (c : tool) : (Z * list byte) * tool :=
  if ok r then ((1, replicate 16 Byte.xab), S c) else ((0, val), S c).

Definition read_cpu_reg (ok : Z -> bool) (cpu : Z) := read_reg ok.

(** A memory primitive that answers [rc]; a read fills the buffer with
    zero bytes. *)
Definition readmem (rc : Z) (addr : Z) (buf : option (list byte))
    (len write : Z) (c : tool) : (Z * option (list byte)) * tool :=
  ((rc, if write =? 0 then Some (replicate (Z.to_nat len) Byte.x00) else buf),
   S c).

(** Task handles are resolved to the CPU [task - 100]. *)
Definition set_thread (task : Z) (c : tool) : Z * tool := (task - 100, S c).

Definition nr_cpus (n : Z) (c : tool) : Z * tool := (n, S c).

Definition always (l : list thread_info) (p : ptid_t) : bool := true.
Definition never (l : list thread_info) (p : ptid_t) : bool := false.

Definition zeroes : list byte := replicate 16 Byte.x00.

Definition cpu_ptid (cpu : Z) : ptid_t := mk_ptid CRASH_INFERIOR_PID 0 cpu.

(** A world before the adapter ran: no thread, no cache, empty trace. *)
Definition w0 : world tool :=
  mk_world O [] (mk_ptid 0 0 0) ∅ PerTask.initial_prev_task [].

(** A world with one thread per CPU in [cpus], the first one active. *)
Definition w_cpus (cpus : list Z) : world tool :=
  mk_world O (map (fun c => mk_thread (cpu_ptid c)) cpus)
           (cpu_ptid (default 0 (head cpus))) ∅ 0 [].

(** A [set_cpu] that always succeeds. *)
Definition set_cpu (cpu print_context : Z) (c : tool) : Z * tool :=
  (TRUE, S c).

(** The selected task: pid 1234, command "bash". *)
Definition task_info (c : tool) : (Z * string) * tool :=
  ((1234, "bash"), S c).
End Demo.

(** ** Vocabulary of the statements *)

(** The world a call leaves, and what it returns. *)
Definition exec {tool A} (m : M tool A) (w : world tool) : world tool := (m w).2.
Definition result {tool A} (m : M tool A) (w : world tool) : outcome A := (m w).1.

(** A register whose declared width fits the scratch buffer, and one whose
    width exceeds it (a width is an [int]). *)
Definition fits (arch : gdbarch) (r : Z) : Prop :=
  0 <= register_size arch r <= sizeof_regval.
Definition too_wide (arch : gdbarch) (r : Z) : Prop :=
  sizeof_regval < register_size arch r <= INT_MAX.

(** The cache entry the loop body supplies for register [r] when the read
    primitive answered [rc] and left [val] in the buffer. *)
Definition supplied (arch : gdbarch) (r rc : Z) (val : list byte) : cached_reg :=
  if negb (rc =? 0)
  then RegValid (take (Z.to_nat (register_size arch r)) val)
  else RegUnavailable.

(** The object kinds the Memory Relay forwards. *)
Definition memory_kind (object : target_object) : Prop :=
  object = TARGET_OBJECT_MEMORY \/ object = TARGET_OBJECT_STACK_MEMORY
  \/ object = TARGET_OBJECT_CODE_MEMORY.

(** The registers a call of [fetch_registers] asks for, in order. *)
Definition requested_per_task (arch : gdbarch) (regno : Z) : list Z :=
  if regno >=? 0 then [regno]
  else if regno =? -1 then seqZ 0 (gdbarch_num_regs arch)
  else [].
Definition requested_per_cpu (arch : gdbarch) (regno : Z) : list Z :=
  seqZ 0 (gdbarch_num_regs arch).

(** The identifiers of the thread records, in creation order. *)
Definition thread_ptids {tool} (w : world tool) : list ptid_t :=
  map ti_ptid (thread_list w).

(** One answered round of the fetch loop: the register, the primitive's
    result and what it left in the scratch buffer. *)
Definition answer : Type := Z * Z * list byte.
Definition answer_reg (a : answer) : Z := a.1.1.

(** The effect of an answered round on the register caches, and the events
    it leaves in the trace. *)
Definition supply_answer (arch : gdbarch) (regcache : ptid_t)
    (m : gmap ptid_t (gmap Z cached_reg)) (a : answer)
  : gmap ptid_t (gmap Z cached_reg) :=
  <[regcache := <[answer_reg a := supplied arch (answer_reg a) a.1.2 a.2]>
                  (default ∅ (m !! regcache))]> m.
Definition answer_events (arch : gdbarch) (regcache : ptid_t) (a : answer)
  : list event :=
  [EvGetReg (answer_reg a) (register_size arch (answer_reg a)) a.1.2 a.2;
   EvRawSupply regcache (answer_reg a)].

(** What [m;; ret tt] makes of the outcome of [m]. *)
Definition forget {A} (o : outcome A) : outcome unit :=
  match o with Normal _ => Normal tt | Thrown msg => Thrown msg end.

(** The entry of register [r] in [regs] is what the answer [(rc, val)] of
    the read primitive calls for: present with the register's width of
    the returned bytes on success, marked unavailable on failure. *)
Definition entry_of_answer (arch : gdbarch) (regs : gmap Z cached_reg)
    (r rc : Z) (val : list byte) : Prop :=
  (rc <> 0 ->
   regs !! r = Some (RegValid (take (Z.to_nat (register_size arch r)) val)))
  /\ (rc = 0 -> regs !! r = Some RegUnavailable).

(** The worlds a sequence of per-CPU notifications goes through (a
    notification that threw leaves the world it had reached). *)
Definition percpu_notify_all {tool} (arch : gdbarch)
    (crash_get_cpu_reg :
       Z -> Z -> string -> Z -> list byte -> tool -> (Z * list byte) * tool)
    (crash_set_thread : Z -> tool -> Z * tool)
    (new_thread_ok : list thread_info -> ptid_t -> bool)
    (regval_on_entry : list byte) (tasks : list Z) (w : world tool)
  : world tool :=
  foldl (fun w task =>
           exec (PerCpu.gdb_change_thread_context arch crash_get_cpu_reg
                   crash_set_thread new_thread_ok regval_on_entry task) w)
        w tasks.

(** What the per-CPU [gdb_change_thread_context] does once it holds the
    thread record [tp]: step 4 and 5 of the notification,
<<
   target_fetch_registers(get_thread_regcache(tp), -1);
   switch_to_thread(tp);
   reinit_frame_cache ();
   return TRUE;
>> *)
Definition percpu_switch {tool} (arch : gdbarch)
    (crash_get_cpu_reg :
       Z -> Z -> string -> Z -> list byte -> tool -> (Z * list byte) * tool)
    (regval_on_entry : list byte) (tp : thread_info) : M tool Z :=
  PerCpu.target_fetch_registers arch crash_get_cpu_reg regval_on_entry
    (get_thread_regcache tp) (-1);;
  switch_to_thread tp;;
  reinit_frame_cache;;
  ret TRUE.

(** The world after a notification's call of [crash_set_thread]. *)
Definition resolved {tool} (w : world tool) (task cpu : Z) (c : tool)
  : world tool :=
  mk_world c (thread_list w) (inferior_ptid w) (regcaches w) (prev_task w)
           (trace w ++ [EvSetThread task cpu]).

(** The world after a sequence of per-task notifications. *)
Definition pertask_notify_all {tool} (tasks : list Z) (w : world tool)
  : world tool :=
  foldl (fun w task => exec (PerTask.gdb_change_thread_context task) w)
        w tasks.

(** How many handles of [tasks] differ from the handle before them, with
    [marker] before the first. *)
Fixpoint changes (marker : Z) (tasks : list Z) : nat :=
  match tasks with
  | [] => 0
  | task :: tasks' =>
      ((if (task =? marker)%Z then 0 else 1) + changes task tasks')%nat
  end.

(** The events a call added to the trace. *)
Definition new_events {tool} (w w' : world tool) : list event :=
  drop (length (trace w)) (trace w').

(** The register of a read event, and of a supply event. *)
Definition get_reg_number (e : event) : option Z :=
  match e with EvGetReg r _ _ _ => Some r | _ => None end.
Definition raw_supply_number (e : event) : option Z :=
  match e with EvRawSupply _ r => Some r | _ => None end.

(** The events of one round of the loop of the per-CPU
    [crash_target_init] when the record is created: the creation, and
    the switch for CPU 0. *)
Definition init_events (i : Z) : list event :=
  EvAddThread (mk_ptid CRASH_INFERIOR_PID 0 i) true
  :: (if i =? 0 then [EvSwitchToThread (mk_ptid CRASH_INFERIOR_PID 0 i)]
      else []).

(** * Properties *)

(** ** Per-task variant: context-change notifications *)

Section PerTaskNotification.
Context {tool : Type}.
Implicit Types (w : world tool) (task : Z).

Lemma notify_same w task :
  task = prev_task w ->
  PerTask.gdb_change_thread_context task w = (Normal TRUE, w).
Proof.
  intros ->. unfold PerTask.gdb_change_thread_context, bind, get.
  by rewrite Z.eqb_refl.
Qed.

Lemma notify_changed w task :
  task <> prev_task w ->
  PerTask.gdb_change_thread_context task w =
    (Normal TRUE,
     mk_world (crash w) (thread_list w) (inferior_ptid w) ∅ task
              (trace w ++ [EvRegistersChanged; EvReinitFrameCache])).
Proof.
  intros Hne. unfold PerTask.gdb_change_thread_context, bind, get.
  destruct (Z.eqb_spec task (prev_task w)) as [|_]; [done|].
  cbn. by rewrite <- app_assoc.
Qed.

Lemma notify_marker w task :
  prev_task (exec (PerTask.gdb_change_thread_context task) w) = task.
Proof.
  unfold exec. destruct (decide (task = prev_task w)) as [E|E].
  - by rewrite notify_same.
  - by rewrite notify_changed.
Qed.
End PerTaskNotification.

Lemma count_app p (t1 t2 : list event) :
  count p (t1 ++ t2) = (count p t1 + count p t2)%nat.
Proof. unfold count. by rewrite List.filter_app, length_app. Qed.

(** C1, as the claim states it, fails: from the initial state (marker 0)
    the two consecutive notifications task=0, task=0 produce no
    invalidation at all, neither of the registers nor of the frame cache,
    where the claim promises exactly one of each. *)
Lemma pertask_repeat_not_exactly_one :
  let w2 := exec (PerTask.gdb_change_thread_context 0)
                 (exec (PerTask.gdb_change_thread_context 0) Demo.w0) in
  (count is_registers_changed (trace w2) = 0%nat
   /\ count is_reinit_frame_cache (trace w2) = 0%nat)
  /\ ~ (forall (w : world Demo.tool) (task : Z),
          let w2 := exec (PerTask.gdb_change_thread_context task)
                         (exec (PerTask.gdb_change_thread_context task) w) in
          count is_registers_changed (trace w2)
            = S (count is_registers_changed (trace w))
          /\ count is_reinit_frame_cache (trace w2)
            = S (count is_reinit_frame_cache (trace w))).
Proof.
  split; [by vm_compute|].
  intros H. destruct (H Demo.w0 0) as [H1 _]. vm_compute in H1. discriminate.
Qed.

(** C1, amended.  Per-task variant, from any state [w] (so after any
    sequence of notifications): of two consecutive notifications carrying
    the same task handle both report success and the second changes
    nothing; together they invalidate the registers and the frame cache
    once each when the handle differs from the Previous-Context Marker
    before the first of them, and not at all when it equals it; the marker
    is the handle afterwards.  Scenario B: when the marker is not 5 (it is
    0 initially), the notifications task=5, task=5, task=7 invalidate
    after calls 1 and 3 only and leave the marker at 7. *)
Theorem pertask_repeat_invalidates_at_most_once
    {tool} (w : world tool) (task : Z) :
  let notify := PerTask.gdb_change_thread_context in
  let w1 := exec (notify task) w in
  let w2 := exec (notify task) w1 in
  let n := if bool_decide (task = prev_task w) then 0%nat else 1%nat in
  result (notify task) w = Normal TRUE
  /\ result (notify task) w1 = Normal TRUE
  /\ w2 = w1
  /\ count is_registers_changed (trace w2)
     = (count is_registers_changed (trace w) + n)%nat
  /\ count is_reinit_frame_cache (trace w2)
     = (count is_reinit_frame_cache (trace w) + n)%nat
  /\ prev_task w2 = task
  /\ (prev_task w <> 5 ->
      let a := exec (notify 5) w in
      let b := exec (notify 5) a in
      let c := exec (notify 7) b in
      trace a = trace w ++ [EvRegistersChanged; EvReinitFrameCache]
      /\ trace b = trace a
      /\ trace c = trace b ++ [EvRegistersChanged; EvReinitFrameCache]
      /\ prev_task c = 7).
Proof.
  intros notify w1 w2 n.
  assert (Hw2 : w2 = w1).
  { unfold w2, exec, notify. rewrite notify_same; [done|].
    symmetry. apply notify_marker. }
  assert (Hr1 : result (notify task) w = Normal TRUE).
  { unfold result, notify. destruct (decide (task = prev_task w)).
    - by rewrite notify_same.
    - by rewrite notify_changed. }
  split_and!; try done.
  - unfold result, notify. rewrite notify_same; [done|].
    symmetry. apply notify_marker.
  - rewrite Hw2. unfold w1, n, exec, notify. case_bool_decide.
    + rewrite notify_same by done. simpl. lia.
    + rewrite notify_changed by done. simpl. by rewrite count_app.
  - rewrite Hw2. unfold w1, n, exec, notify. case_bool_decide.
    + rewrite notify_same by done. simpl. lia.
    + rewrite notify_changed by done. simpl. by rewrite count_app.
  - rewrite Hw2. apply notify_marker.
  - intros H5 a b c.
    assert (Ha : a = mk_world (crash w) (thread_list w) (inferior_ptid w) ∅ 5
                   (trace w ++ [EvRegistersChanged; EvReinitFrameCache])).
    { unfold a, exec, notify. by rewrite notify_changed. }
    assert (Hb : b = a).
    { unfold b, exec, notify. rewrite notify_same; [done|]. by rewrite Ha. }
    unfold c, exec, notify. rewrite Hb.
    rewrite (notify_changed a 7) by (rewrite Ha; simpl; lia).
    by rewrite Ha.
Qed.

Lemma pertask_repeat_invalidates_at_most_once_witness :
  prev_task Demo.w0 <> 5
  /\ trace (exec (PerTask.gdb_change_thread_context 7)
              (exec (PerTask.gdb_change_thread_context 5)
                 (exec (PerTask.gdb_change_thread_context 5) Demo.w0)))
     = [EvRegistersChanged; EvReinitFrameCache;
        EvRegistersChanged; EvReinitFrameCache].
Proof.
  assert (H5 : prev_task Demo.w0 <> 5) by (vm_compute; discriminate).
  split; [exact H5|].
  destruct (pertask_repeat_invalidates_at_most_once Demo.w0 5)
    as (_ & _ & _ & _ & _ & _ & H).
  destruct (H H5) as (Ha & Hb & Hc & _).
  rewrite Hc, Hb, Ha. reflexivity.
Defined.

(** C9.  The per-task notification entry point reports success for every
    task handle, in every state; the per-CPU variant can reject one (here
    a handle crash resolves to a negative CPU). *)
Theorem pertask_notification_never_fails :
  (forall (tool : Type) (w : world tool) (task : Z),
     result (PerTask.gdb_change_thread_context task) w = Normal TRUE)
  /\ result (PerCpu.gdb_change_thread_context (Demo.arch_of [8])
               (Demo.read_cpu_reg (fun _ => true)) Demo.set_thread
               Demo.always Demo.zeroes 3)
            (Demo.w_cpus [0; 1]) = Normal FALSE.
Proof.
  split; [|by vm_compute].
  intros tool w task. unfold result.
  destruct (decide (task = prev_task w)).
  - by rewrite notify_same.
  - by rewrite notify_changed.
Qed.

(** C10.  The marker's initial "none" value is the integer 0, so a
    notification carrying task handle 0 in a state whose marker is still
    the initial one reports success and changes nothing: no register or
    frame-cache invalidation, marker still 0. *)
Theorem pertask_first_notification_zero {tool} (w : world tool) :
  prev_task w = PerTask.initial_prev_task ->
  PerTask.initial_prev_task = 0
  /\ PerTask.gdb_change_thread_context 0 w = (Normal TRUE, w)
  /\ prev_task (exec (PerTask.gdb_change_thread_context 0) w) = 0
  /\ count is_registers_changed
       (trace (exec (PerTask.gdb_change_thread_context 0) w))
     = count is_registers_changed (trace w)
  /\ count is_reinit_frame_cache
       (trace (exec (PerTask.gdb_change_thread_context 0) w))
     = count is_reinit_frame_cache (trace w).
Proof.
  intros H.
  assert (E : PerTask.gdb_change_thread_context 0 w = (Normal TRUE, w)).
  { apply notify_same. by rewrite H. }
  unfold exec. rewrite E. simpl. by rewrite H.
Qed.

Lemma pertask_first_notification_zero_witness :
  prev_task Demo.w0 = PerTask.initial_prev_task
  /\ PerTask.gdb_change_thread_context 0 Demo.w0 = (Normal TRUE, Demo.w0).
Proof.
  split; [reflexivity|].
  apply (pertask_first_notification_zero Demo.w0). reflexivity.
Defined.

(** ** Memory Relay *)

Section MemoryRelayFacts.
Context {tool : Type}.
Variable gdb_readmem_callback :
  Z -> option (list byte) -> Z -> Z -> tool ->
  (Z * option (list byte)) * tool.

Lemma not_memory_kind_test (object : target_object) :
  ~ memory_kind object ->
  bool_decide (object <> TARGET_OBJECT_MEMORY)
  && bool_decide (object <> TARGET_OBJECT_STACK_MEMORY)
  && bool_decide (object <> TARGET_OBJECT_CODE_MEMORY) = true.
Proof.
  unfold memory_kind. intros H.
  rewrite !andb_true_iff, !bool_decide_eq_true. naive_solver.
Qed.

Lemma memory_kind_test (object : target_object) :
  memory_kind object ->
  bool_decide (object <> TARGET_OBJECT_MEMORY)
  && bool_decide (object <> TARGET_OBJECT_STACK_MEMORY)
  && bool_decide (object <> TARGET_OBJECT_CODE_MEMORY) = false.
Proof. by intros [-> | [-> | ->]]. Qed.

(** What a forwarded request does, given the primitive's answer. *)
Lemma xfer_partial_forwarded object annex readbuf writebuf offset len
    xfered_len (w : world tool) rc buf c :
  memory_kind object ->
  gdb_readmem_callback offset
    (if readbuf is Some _ then readbuf else writebuf) (to_int len)
    (if readbuf is Some _ then 0 else 1) (crash w) = ((rc, buf), c) ->
  xfer_partial gdb_readmem_callback object annex readbuf writebuf offset
               len xfered_len w =
    (Normal (mk_xfer (if negb (rc =? 0) then TARGET_XFER_OK
                      else TARGET_XFER_E_IO)
                     (if readbuf is Some _ then buf else readbuf)
                     (if negb (rc =? 0) then len else xfered_len)),
     mk_world c (thread_list w) (inferior_ptid w) (regcaches w)
              (prev_task w)
              (trace w ++ [EvReadmem offset (to_int len)
                             (if readbuf is Some _ then 0 else 1) rc])).
Proof.
  intros Hk Hcall. unfold xfer_partial.
  rewrite (memory_kind_test _ Hk).
  unfold bind, call, log, ret. rewrite Hcall. cbn.
  by destruct (rc =? 0).
Qed.
End MemoryRelayFacts.

(** C5.  A transfer request (the function is the same in both variants)
    whose object kind is none of main, stack and code memory returns
    [TARGET_XFER_E_IO] without calling crash's memory primitive: the world
    is as before, so the trace has gained no call and crash's state is
    untouched; with an empty trace the call count is 0 afterwards. *)
Theorem xfer_partial_rejects_other_kinds {tool}
    (gdb_readmem_callback :
       Z -> option (list byte) -> Z -> Z -> tool ->
       (Z * option (list byte)) * tool)
    (object : target_object) (annex : option string)
    (readbuf writebuf : option (list byte)) (offset len xfered_len : Z)
    (w : world tool) :
  ~ memory_kind object ->
  let call := xfer_partial gdb_readmem_callback object annex readbuf
                           writebuf offset len xfered_len in
  result call w = Normal (mk_xfer TARGET_XFER_E_IO readbuf xfered_len)
  /\ exec call w = w
  /\ count is_readmem (trace (exec call w)) = count is_readmem (trace w)
  /\ (trace w = [] -> count is_readmem (trace (exec call w)) = 0%nat).
Proof.
  intros Hk call.
  assert (E : call w = (Normal (mk_xfer TARGET_XFER_E_IO readbuf xfered_len), w)).
  { unfold call, xfer_partial. by rewrite (not_memory_kind_test _ Hk). }
  unfold result, exec. rewrite E. simpl. split_and!; try done.
  by intros ->.
Qed.

Lemma xfer_partial_rejects_other_kinds_witness :
  ~ memory_kind TARGET_OBJECT_AUXV
  /\ result (xfer_partial (Demo.readmem 1) TARGET_OBJECT_AUXV None
               (Some []) None 4096 64 0) Demo.w0
     = Normal (mk_xfer TARGET_XFER_E_IO (Some []) 0)
  /\ count is_readmem
       (trace (exec (xfer_partial (Demo.readmem 1) TARGET_OBJECT_AUXV None
                       (Some []) None 4096 64 0) Demo.w0)) = 0%nat.
Proof.
  assert (Hk : ~ memory_kind TARGET_OBJECT_AUXV).
  { unfold memory_kind. intros [H | [H | H]]; discriminate H. }
  split; [exact Hk|].
  destruct (xfer_partial_rejects_other_kinds (Demo.readmem 1)
              TARGET_OBJECT_AUXV None (Some []) None 4096 64 0 Demo.w0 Hk)
    as (Hr & _ & _ & H0).
  split; [exact Hr | apply H0; reflexivity].
Defined.

(** C6.  A transfer request with an allowed object kind is forwarded to
    crash's memory primitive, once.  If the primitive reports success
    (a nonzero result) the transfer returns [TARGET_XFER_OK] and
    [*xfered_len] is the full requested length; if it reports failure
    (zero) the transfer returns [TARGET_XFER_E_IO].  Scenario C: a 64-byte
    stack read at 0x1000 with a succeeding primitive reports OK and 64. *)
Theorem xfer_partial_reports_full_length {tool}
    (gdb_readmem_callback :
       Z -> option (list byte) -> Z -> Z -> tool ->
       (Z * option (list byte)) * tool)
    (object : target_object) (annex : option string)
    (readbuf writebuf : option (list byte)) (offset len xfered_len : Z)
    (w : world tool) (rc : Z) (buf : option (list byte)) (c : tool) :
  memory_kind object ->
  gdb_readmem_callback offset
    (if readbuf is Some _ then readbuf else writebuf) (to_int len)
    (if readbuf is Some _ then 0 else 1) (crash w) = ((rc, buf), c) ->
  let call := xfer_partial gdb_readmem_callback object annex readbuf
                           writebuf offset len xfered_len in
  (rc <> 0 ->
   exists r, result call w = Normal r
             /\ xfer_status r = TARGET_XFER_OK /\ xfer_xfered_len r = len)
  /\ (rc = 0 ->
      exists r, result call w = Normal r
                /\ xfer_status r = TARGET_XFER_E_IO)
  /\ count is_readmem (trace (exec call w))
     = S (count is_readmem (trace w))
  /\ result (xfer_partial (Demo.readmem 1) TARGET_OBJECT_STACK_MEMORY None
               (Some (replicate 64 Byte.xff)) None 4096 64 0) Demo.w0
     = Normal (mk_xfer TARGET_XFER_OK (Some (replicate 64 Byte.x00)) 64).
Proof.
  intros Hk Hcall call.
  pose proof (xfer_partial_forwarded gdb_readmem_callback object annex
                readbuf writebuf offset len xfered_len w rc buf c Hk Hcall)
    as E.
  fold call in E. unfold result, exec. rewrite E. simpl.
  split_and!.
  - intros Hrc. destruct (Z.eqb_spec rc 0) as [|_]; [done|].
    eexists. by split; [reflexivity|].
  - intros ->. eexists. by split; [reflexivity|].
  - unfold count. rewrite List.filter_app, length_app. simpl. lia.
  - by vm_compute.
Qed.

Lemma xfer_partial_reports_full_length_witness :
  exists r,
    result (xfer_partial (Demo.readmem 1) TARGET_OBJECT_STACK_MEMORY None
              (Some (replicate 64 Byte.xff)) None 4096 64 0) Demo.w0
    = Normal r
    /\ xfer_status r = TARGET_XFER_OK /\ xfer_xfered_len r = 64.
Proof.
  assert (Hk : memory_kind TARGET_OBJECT_STACK_MEMORY)
    by (right; left; reflexivity).
  assert (Hrc : (1 : Z) <> 0) by discriminate.
  destruct (xfer_partial_reports_full_length (Demo.readmem 1)
              TARGET_OBJECT_STACK_MEMORY None (Some (replicate 64 Byte.xff))
              None 4096 64 0 Demo.w0 1 (Some (replicate 64 Byte.x00)) 1%nat
              Hk eq_refl) as (Hok & _).
  exact (Hok Hrc).
Defined.

(** ** Register Projector *)

Lemma to_size_t_small (z : Z) : 0 <= z < 2 ^ 64 -> to_size_t z = z.
Proof. intros H. unfold to_size_t. by apply Z.mod_small. Qed.

Lemma fits_test arch r :
  fits arch r -> (to_size_t (register_size arch r) >? sizeof_regval) = false.
Proof.
  unfold fits, sizeof_regval. intros H.
  rewrite to_size_t_small by lia. lia.
Qed.

Lemma too_wide_test arch r :
  too_wide arch r -> (to_size_t (register_size arch r) >? sizeof_regval) = true.
Proof.
  unfold too_wide, sizeof_regval, INT_MAX. intros H.
  rewrite to_size_t_small by lia. lia.
Qed.

Section RegisterProjectorFacts.
Context {tool : Type}.
Variable arch : gdbarch.
Variable read_reg :
  Z -> string -> Z -> list byte -> tool -> (Z * list byte) * tool.
Variable regcache : ptid_t.
Implicit Types (w : world tool) (r : Z) (rs : list Z) (regval : list byte).

(** The round for a register that passes the width test. *)
Lemma fetch_one_passes r regval w rc val c :
  (to_size_t (register_size arch r) >? sizeof_regval) = false ->
  read_reg r (gdbarch_register_name arch r) (register_size arch r) regval
           (crash w) = ((rc, val), c) ->
  fetch_one arch read_reg regcache r regval w =
    (Normal val,
     mk_world c (thread_list w) (inferior_ptid w)
              (supply_answer arch regcache (regcaches w) (r, rc, val))
              (prev_task w)
              (trace w ++ answer_events arch regcache (r, rc, val))).
Proof.
  intros Ht Hread. unfold fetch_one. rewrite Ht.
  unfold bind, call, log, ret. rewrite Hread. cbn.
  unfold supply_answer, answer_events, supplied, answer_reg, regs_of. cbn.
  destruct (rc =? 0); cbn; by rewrite <- app_assoc.
Qed.

(** The round for a register that fails it: [error ()], nothing done. *)
Lemma fetch_one_aborts r regval w :
  (to_size_t (register_size arch r) >? sizeof_regval) = true ->
  fetch_one arch read_reg regcache r regval w = (Thrown buffer_too_small, w).
Proof. intros Ht. unfold fetch_one. by rewrite Ht. Qed.

(** What a run of the loop over [rs] amounts to: the rounds [done] were
    answered, in order, and the loop either came to its end or threw at
    the first register of [rest], which fails the width test. *)
Lemma fetch_each_run rs : forall regval w,
  exists (done : list answer) (rest : list Z),
    rs = map answer_reg done ++ rest
    /\ thread_list (exec (fetch_each arch read_reg regcache rs regval) w)
       = thread_list w
    /\ inferior_ptid (exec (fetch_each arch read_reg regcache rs regval) w)
       = inferior_ptid w
    /\ prev_task (exec (fetch_each arch read_reg regcache rs regval) w)
       = prev_task w
    /\ regcaches (exec (fetch_each arch read_reg regcache rs regval) w)
       = foldl (supply_answer arch regcache) (regcaches w) done
    /\ trace (exec (fetch_each arch read_reg regcache rs regval) w)
       = trace w ++ concat (map (answer_events arch regcache) done)
    /\ Forall (fun a => (to_size_t (register_size arch (answer_reg a))
                        >? sizeof_regval) = false) done
    /\ match result (fetch_each arch read_reg regcache rs regval) w with
       | Normal _ => rest = []
       | Thrown msg =>
           msg = buffer_too_small
           /\ exists r0 rest', rest = r0 :: rest'
                /\ (to_size_t (register_size arch r0) >? sizeof_regval) = true
       end.
Proof.
  induction rs as [|r rs' IH]; intros regval w.
  - exists [], []. cbn. rewrite app_nil_r. by split_and!.
  - destruct (to_size_t (register_size arch r) >? sizeof_regval) eqn:Ht.
    + exists [], (r :: rs'). unfold exec, result. cbn. unfold bind.
      rewrite (fetch_one_aborts _ _ _ Ht). cbn. rewrite app_nil_r.
      split_and!; try done. eauto.
    + destruct (read_reg r (gdbarch_register_name arch r)
                  (register_size arch r) regval (crash w))
        as [[rc val] c] eqn:Hread.
      pose proof (fetch_one_passes _ _ _ _ _ _ Ht Hread) as E.
      set (w1 := mk_world c (thread_list w) (inferior_ptid w)
                   (supply_answer arch regcache (regcaches w) (r, rc, val))
                   (prev_task w)
                   (trace w ++ answer_events arch regcache (r, rc, val)))
        in E.
      destruct (IH val w1) as (done & rest & Hrs & Ht1 & Hi1 & Hp1 & Hc1
                               & Htr1 & Hall & Hres).
      exists ((r, rc, val) :: done), rest.
      unfold exec, result in *. cbn [fetch_each]. unfold bind at 1 2 3 4 5 6.
      rewrite E.
      split_and!; try done.
      * cbn. by rewrite Hrs.
      * rewrite Htr1. cbn [map concat]. unfold w1. cbn [trace].
        by rewrite <- app_assoc.
      * by constructor.
Qed.
End RegisterProjectorFacts.

Lemma elem_of_concat {A} (x : A) (ls : list (list A)) :
  x ∈ concat ls <-> exists l, x ∈ l /\ l ∈ ls.
Proof.
  rewrite list_elem_of_In, in_concat. split.
  - intros (l & Hl & Hx). exists l. by rewrite !list_elem_of_In.
  - intros (l & Hx & Hl). exists l. by rewrite <- !list_elem_of_In.
Qed.

Section SupplyFacts.
Variable arch : gdbarch.
Variable regcache : ptid_t.
Implicit Types (m : gmap ptid_t (gmap Z cached_reg)) (a : answer).

Lemma supply_answer_other m a (c : ptid_t) :
  c <> regcache -> supply_answer arch regcache m a !! c = m !! c.
Proof. intros Hc. unfold supply_answer. by rewrite lookup_insert_ne. Qed.

Lemma supply_answer_regs m a :
  default ∅ (supply_answer arch regcache m a !! regcache)
  = <[answer_reg a := supplied arch (answer_reg a) a.1.2 a.2]>
      (default ∅ (m !! regcache)).
Proof. unfold supply_answer. by rewrite lookup_insert_eq. Qed.

Lemma supply_fold_other (done : list answer) : forall m (c : ptid_t),
  c <> regcache ->
  foldl (supply_answer arch regcache) m done !! c = m !! c.
Proof.
  induction done as [|a done IH]; intros m c Hc; [done|].
  cbn. rewrite IH by done. by apply supply_answer_other.
Qed.

Lemma supply_fold_notin (done : list answer) : forall m (r : Z),
  r ∉ map answer_reg done ->
  default ∅ (foldl (supply_answer arch regcache) m done !! regcache) !! r
  = default ∅ (m !! regcache) !! r.
Proof.
  induction done as [|a done IH]; intros m r Hr; [done|].
  cbn in Hr. apply not_elem_of_cons in Hr as [Hne Hr].
  cbn. rewrite IH by done. rewrite supply_answer_regs.
  by rewrite lookup_insert_ne.
Qed.

Lemma supply_fold_in (done : list answer) : forall m a,
  NoDup (map answer_reg done) ->
  a ∈ done ->
  default ∅ (foldl (supply_answer arch regcache) m done !! regcache)
    !! answer_reg a
  = Some (supplied arch (answer_reg a) a.1.2 a.2).
Proof.
  induction done as [|a0 done IH]; intros m a Hnd Hin.
  - by apply elem_of_nil in Hin.
  - cbn in Hnd. apply NoDup_cons in Hnd as [Hfresh Hnd].
    apply elem_of_cons in Hin as [-> | Hin].
    + cbn. rewrite supply_fold_notin by done.
      rewrite supply_answer_regs. by rewrite lookup_insert_eq.
    + cbn. by apply IH.
Qed.
End SupplyFacts.

Section FetchEachFacts.
Context {tool : Type}.
Variable arch : gdbarch.
Variable read_reg :
  Z -> string -> Z -> list byte -> tool -> (Z * list byte) * tool.
Variable regcache : ptid_t.
Implicit Types (w : world tool) (r : Z) (rs : list Z) (regval : list byte).

Local Abbreviation run rs regval :=
  (fetch_each arch read_reg regcache rs regval).

(** The loop only throws the width diagnostic. *)
Lemma fetch_each_outcome rs regval w :
  (exists val, result (run rs regval) w = Normal val)
  \/ result (run rs regval) w = Thrown buffer_too_small.
Proof.
  destruct (fetch_each_run arch read_reg regcache rs regval w)
    as (done & rest & _ & _ & _ & _ & _ & _ & _ & Hres).
  destruct (result (run rs regval) w) as [val|msg]; [eauto|].
  destruct Hres as [-> _]. by right.
Qed.

(** It leaves gdb's threads and the adapter's statics alone, and the
    register caches of the other threads. *)
Lemma fetch_each_frame rs regval w :
  thread_list (exec (run rs regval) w) = thread_list w
  /\ inferior_ptid (exec (run rs regval) w) = inferior_ptid w
  /\ prev_task (exec (run rs regval) w) = prev_task w
  /\ forall c, c <> regcache ->
       regcaches (exec (run rs regval) w) !! c = regcaches w !! c.
Proof.
  destruct (fetch_each_run arch read_reg regcache rs regval w)
    as (done & rest & _ & Ht & Hi & Hp & Hc & _).
  split_and!; try done.
  intros c Hne. rewrite Hc. by apply supply_fold_other.
Qed.

(** When every register of [rs] fits, the loop returns. *)
Lemma fetch_each_returns rs regval w :
  Forall (fits arch) rs ->
  exists val, result (run rs regval) w = Normal val.
Proof.
  intros Hfits.
  destruct (fetch_each_run arch read_reg regcache rs regval w)
    as (done & rest & Hrs & _ & _ & _ & _ & _ & _ & Hres).
  destruct (result (run rs regval) w) as [val|msg]; [eauto|].
  destruct Hres as (_ & r0 & rest' & -> & Hwide).
  rewrite Hrs in Hfits. apply Forall_app in Hfits as [_ Hfits].
  apply Forall_cons in Hfits as [Hfit _].
  rewrite (fits_test _ _ Hfit) in Hwide. discriminate.
Qed.

(** When [r0] is the first register of the run that is too wide, the
    loop throws, and only registers before [r0] have been supplied. *)
Lemma fetch_each_aborts pre r0 post regval w :
  Forall (fits arch) pre ->
  too_wide arch r0 ->
  result (run (pre ++ r0 :: post) regval) w = Thrown buffer_too_small
  /\ (forall r, r ∉ pre ->
        regs_of (exec (run (pre ++ r0 :: post) regval) w) regcache !! r
        = regs_of w regcache !! r)
  /\ count is_get_reg (trace (exec (run (pre ++ r0 :: post) regval) w))
     = (count is_get_reg (trace w) + length pre)%nat.
Proof.
  intros Hpre Hwide.
  destruct (fetch_each_run arch read_reg regcache (pre ++ r0 :: post)
              regval w)
    as (done & rest & Hrs & _ & _ & _ & Hc & Htr & Hdone & Hres).
  assert (Hsplit : map answer_reg done = pre /\ rest = r0 :: post).
  { destruct (result (run (pre ++ r0 :: post) regval) w) as [val|msg].
    - subst rest. rewrite app_nil_r in Hrs.
      assert (Hin : r0 ∈ map answer_reg done).
      { rewrite <- Hrs. apply elem_of_app. right. by left. }
      apply list_elem_of_fmap in Hin as (a & -> & Hin).
      rewrite Forall_forall in Hdone. apply Hdone in Hin.
      rewrite (too_wide_test _ _ Hwide) in Hin. discriminate.
    - destruct Hres as (_ & r1 & rest' & -> & Hr1).
      clear Hc Htr. revert pre Hpre Hrs Hdone.
      induction done as [|a done IH]; intros pre Hpre Hrs Hdone.
      + destruct pre as [|p pre]; cbn in Hrs.
        * by inversion Hrs.
        * inversion Hrs; subst. apply Forall_cons in Hpre as [Hp _].
          rewrite (fits_test _ _ Hp) in Hr1. discriminate.
      + apply Forall_cons in Hdone as [Ha Hdone].
        destruct pre as [|p pre]; cbn in Hrs.
        * inversion Hrs; subst.
          rewrite (too_wide_test _ _ Hwide) in Ha. discriminate.
        * inversion Hrs as [[Hp Hrs']]. apply Forall_cons in Hpre as [_ Hpre].
          destruct (IH pre Hpre Hrs' Hdone) as [Hm Hrest].
          cbn. by rewrite Hm. }
  destruct Hsplit as [Hpre_eq Hrest].
  split_and!.
  - destruct (result (run (pre ++ r0 :: post) regval) w) as [val|msg].
    + subst rest. discriminate.
    + by destruct Hres as [-> _].
  - intros r Hr. unfold regs_of. rewrite Hc.
    apply supply_fold_notin. by rewrite Hpre_eq.
  - rewrite Htr, count_app. f_equal. rewrite <- Hpre_eq.
    clear. induction done as [|a done IH]; [done|].
    cbn [map concat]. rewrite count_app, IH. by cbn.
Qed.

(** Every register the primitive was asked for during the run holds the
    entry of its answer afterwards, whether the run returned or threw. *)
Lemma fetch_each_supplied rs regval w r regsize rc val :
  NoDup rs ->
  (exists evs, trace (exec (run rs regval) w) = trace w ++ evs
               /\ EvGetReg r regsize rc val ∈ evs) ->
  r ∈ rs
  /\ regsize = register_size arch r
  /\ regs_of (exec (run rs regval) w) regcache !! r
     = Some (supplied arch r rc val).
Proof.
  intros Hnd (evs & Hevs & Hin).
  destruct (fetch_each_run arch read_reg regcache rs regval w)
    as (done & rest & Hrs & _ & _ & _ & Hc & Htr & _ & _).
  rewrite Htr in Hevs. apply app_inv_head in Hevs. subst evs.
  apply elem_of_concat in Hin as (l & Hin & Hl).
  apply list_elem_of_fmap in Hl as (a & -> & Ha).
  unfold answer_events in Hin.
  apply elem_of_cons in Hin as [Heq | Hin].
  2:{ apply elem_of_cons in Hin as [Heq | Hin]; [discriminate|].
      by apply elem_of_nil in Hin. }
  injection Heq as -> -> -> ->. split_and!; try done.
  - rewrite Hrs. apply elem_of_app. left.
    apply list_elem_of_fmap. eauto.
  - unfold regs_of. rewrite Hc.
    apply (supply_fold_in arch regcache done (regcaches w) a); [|done].
    rewrite Hrs in Hnd. by apply NoDup_app in Hnd as [Hnd _].
Qed.

(** When every register of [rs] fits, each of them was asked for, once,
    and holds the entry of its answer. *)
Lemma fetch_each_populates rs regval w r :
  NoDup rs ->
  Forall (fits arch) rs ->
  r ∈ rs ->
  exists rc val,
    EvGetReg r (register_size arch r) rc val
      ∈ drop (length (trace w)) (trace (exec (run rs regval) w))
    /\ regs_of (exec (run rs regval) w) regcache !! r
       = Some (supplied arch r rc val).
Proof.
  intros Hnd Hfits Hr.
  destruct (fetch_each_returns rs regval w Hfits) as [v Hv].
  destruct (fetch_each_run arch read_reg regcache rs regval w)
    as (done & rest & Hrs & _ & _ & _ & Hc & Htr & _ & Hres).
  rewrite Hv in Hres. subst rest. rewrite app_nil_r in Hrs.
  rewrite Hrs in Hr. apply list_elem_of_fmap in Hr as (a & -> & Ha).
  exists a.1.2, a.2. split.
  - rewrite Htr, drop_app_length. apply elem_of_concat.
    exists (answer_events arch regcache a). split.
    + unfold answer_events. by left.
    + apply list_elem_of_fmap. eauto.
  - unfold regs_of. rewrite Hc.
    apply (supply_fold_in arch regcache done (regcaches w) a); [|done].
    by rewrite <- Hrs.
Qed.

(** Registers outside [rs] keep their entries, whatever happens. *)
Lemma fetch_each_untouched rs regval w r :
  r ∉ rs ->
  regs_of (exec (run rs regval) w) regcache !! r = regs_of w regcache !! r.
Proof.
  intros Hr.
  destruct (fetch_each_run arch read_reg regcache rs regval w)
    as (done & rest & Hrs & _ & _ & _ & Hc & _).
  unfold regs_of. rewrite Hc. apply supply_fold_notin.
  intros Hin. apply Hr. rewrite Hrs. apply elem_of_app. by left.
Qed.
End FetchEachFacts.

(** ** [fetch_registers] of the two variants, as runs of the loop *)

Section FetchRegistersFacts.
Context {tool : Type}.
Variable arch : gdbarch.
Variable regval_on_entry : list byte.
Implicit Types (w : world tool) (regcache : ptid_t) (regno : Z).

Lemma bind_ret_tt {A} (m : M tool A) w :
  (m;; ret tt) w = (forget (result m w), exec m w).
Proof. unfold bind, ret, result, exec. by destruct (m w) as [[a|msg] w']. Qed.

Lemma fetch_each_single read_reg regcache r regval w :
  fetch_each arch read_reg regcache [r] regval w
  = fetch_one arch read_reg regcache r regval w.
Proof.
  cbn. unfold bind, ret.
  by destruct (fetch_one arch read_reg regcache r regval w) as [[a|msg] w'].
Qed.

Lemma pertask_fetch_registers_run
    (crash_get_current_task_reg :
       Z -> string -> Z -> list byte -> tool -> (Z * list byte) * tool)
    regcache regno w :
  PerTask.fetch_registers arch crash_get_current_task_reg regval_on_entry
                          regcache regno w
  = (forget (result (fetch_each arch crash_get_current_task_reg regcache
                       (requested_per_task arch regno) regval_on_entry) w),
     exec (fetch_each arch crash_get_current_task_reg regcache
             (requested_per_task arch regno) regval_on_entry) w).
Proof.
  unfold PerTask.fetch_registers, requested_per_task.
  destruct (regno >=? 0).
  - rewrite bind_ret_tt. unfold result, exec.
    by rewrite fetch_each_single.
  - destruct (regno =? -1); [by rewrite bind_ret_tt|done].
Qed.

Lemma percpu_fetch_registers_run
    (crash_get_cpu_reg :
       Z -> Z -> string -> Z -> list byte -> tool -> (Z * list byte) * tool)
    regcache regno w :
  let read_reg := crash_get_cpu_reg (to_int (ptid_tid (inferior_ptid w))) in
  PerCpu.fetch_registers arch crash_get_cpu_reg regval_on_entry
                         regcache regno w
  = (forget (result (fetch_each arch read_reg regcache
                       (requested_per_cpu arch regno) regval_on_entry) w),
     exec (fetch_each arch read_reg regcache
             (requested_per_cpu arch regno) regval_on_entry) w).
Proof.
  intros read_reg. unfold PerCpu.fetch_registers, requested_per_cpu.
  unfold bind at 1, get. by rewrite bind_ret_tt.
Qed.


Lemma forget_normal {A} (o : outcome A) :
  (exists a, o = Normal a) -> forget o = Normal tt.
Proof. by intros [a ->]. Qed.

Lemma requested_per_task_NoDup regno :
  NoDup (requested_per_task arch regno).
Proof.
  unfold requested_per_task. destruct (regno >=? 0).
  - apply NoDup_singleton.
  - destruct (regno =? -1); [apply NoDup_seqZ | apply NoDup_nil_2].
Qed.

Lemma requested_per_cpu_NoDup regno : NoDup (requested_per_cpu arch regno).
Proof. apply NoDup_seqZ. Qed.
End FetchRegistersFacts.




Lemma supplied_entry arch (regs : gmap Z cached_reg) r rc val :
  regs !! r = Some (supplied arch r rc val) ->
  entry_of_answer arch regs r rc val.
Proof.
  intros H. unfold entry_of_answer, supplied in *. split.
  - intros Hrc. by destruct (Z.eqb_spec rc 0).
  - by intros ->.
Qed.

(** C7.  For a register [r] whose declared width is at most the 16-byte
    buffer capacity, in either variant:
    - the round of the fetch loop for [r] returns, and leaves [r]'s entry
      present with exactly the bytes the read primitive returned (the
      register's width of them) when the primitive reports success, and
      marked unavailable (not zero-filled: [RegUnavailable] is not a
      [RegValid]) when it reports failure;
    - so does the per-task fetch of the single register [r];
    - after any fetch of either variant, complete or aborted, if the
      primitive was asked for [r] during it, [r]'s entry is the one its
      answer calls for;
    - after a fetch in which all requested registers fit, [r], if
      requested, was asked for and holds the entry of the answer. *)
Theorem fetch_entry_present_or_unavailable {tool}
    (arch : gdbarch)
    (crash_get_current_task_reg :
       Z -> string -> Z -> list byte -> tool -> (Z * list byte) * tool)
    (crash_get_cpu_reg :
       Z -> Z -> string -> Z -> list byte -> tool -> (Z * list byte) * tool)
    (regval_on_entry : list byte) (regcache : ptid_t) (r : Z)
    (w : world tool) :
  fits arch r ->
  let per_task := PerTask.fetch_registers arch crash_get_current_task_reg
                    regval_on_entry regcache in
  let per_cpu := PerCpu.fetch_registers arch crash_get_cpu_reg
                   regval_on_entry regcache in
  let asked (fetch : M tool unit) rc val :=
    EvGetReg r (register_size arch r) rc val
      ∈ drop (length (trace w)) (trace (exec fetch w)) in
  (forall read_reg regval rc val c,
     read_reg r (gdbarch_register_name arch r) (register_size arch r) regval
              (crash w) = ((rc, val), c) ->
     let round := fetch_one arch read_reg regcache r regval in
     result round w = Normal val
     /\ entry_of_answer arch (regs_of (exec round w) regcache) r rc val)
  /\ (forall rc val c,
        0 <= r ->
        crash_get_current_task_reg r (gdbarch_register_name arch r)
          (register_size arch r) regval_on_entry (crash w) = ((rc, val), c) ->
        result (per_task r) w = Normal tt
        /\ entry_of_answer arch (regs_of (exec (per_task r) w) regcache)
                           r rc val)
  /\ (forall regno rc val,
        asked (per_task regno) rc val ->
        entry_of_answer arch (regs_of (exec (per_task regno) w) regcache)
                        r rc val)
  /\ (forall regno rc val,
        asked (per_cpu regno) rc val ->
        entry_of_answer arch (regs_of (exec (per_cpu regno) w) regcache)
                        r rc val)
  /\ (forall regno,
        Forall (fits arch) (requested_per_task arch regno) ->
        r ∈ requested_per_task arch regno ->
        result (per_task regno) w = Normal tt
        /\ exists rc val,
             asked (per_task regno) rc val
             /\ entry_of_answer arch
                  (regs_of (exec (per_task regno) w) regcache) r rc val)
  /\ (forall regno,
        Forall (fits arch) (requested_per_cpu arch regno) ->
        r ∈ requested_per_cpu arch regno ->
        result (per_cpu regno) w = Normal tt
        /\ exists rc val,
             asked (per_cpu regno) rc val
             /\ entry_of_answer arch
                  (regs_of (exec (per_cpu regno) w) regcache) r rc val)
  /\ RegUnavailable
     <> RegValid (replicate (Z.to_nat (register_size arch r)) Byte.x00).
Proof.
  intros Hfit per_task per_cpu asked.
  assert (Hround : forall read_reg regval rc val c,
    read_reg r (gdbarch_register_name arch r) (register_size arch r) regval
             (crash w) = ((rc, val), c) ->
    result (fetch_one arch read_reg regcache r regval) w = Normal val
    /\ entry_of_answer arch
         (regs_of (exec (fetch_one arch read_reg regcache r regval) w)
                  regcache) r rc val).
  { intros read_reg regval rc val c Hread. unfold result, exec.
    rewrite (fetch_one_passes arch read_reg regcache r regval w rc val c
               (fits_test _ _ Hfit) Hread).
    split; [done|]. apply supplied_entry. unfold regs_of. cbn [snd regcaches].
    rewrite supply_answer_regs. apply lookup_insert_eq. }
  (* any fetch that is a run of the loop over a duplicate-free list *)
  assert (Hasked : forall read_reg rs (fetch : M tool unit) rc val,
    NoDup rs ->
    fetch w = (forget (result (fetch_each arch read_reg regcache rs
                                 regval_on_entry) w),
               exec (fetch_each arch read_reg regcache rs regval_on_entry) w) ->
    asked fetch rc val ->
    entry_of_answer arch (regs_of (exec fetch w) regcache) r rc val).
  { intros read_reg rs fetch rc val Hnd E. unfold asked, exec. rewrite E.
    cbn [snd]. intros Hin. apply supplied_entry.
    destruct (fetch_each_run arch read_reg regcache rs regval_on_entry w)
      as (done & rest & _ & _ & _ & _ & _ & Htr & _).
    eapply (fetch_each_supplied arch read_reg regcache rs regval_on_entry w
              r (register_size arch r) rc val Hnd).
    exists (concat (map (answer_events arch regcache) done)).
    split; [done|]. by rewrite Htr, drop_app_length in Hin. }
  assert (Hfull : forall read_reg rs (fetch : M tool unit),
    NoDup rs ->
    fetch w = (forget (result (fetch_each arch read_reg regcache rs
                                 regval_on_entry) w),
               exec (fetch_each arch read_reg regcache rs regval_on_entry) w) ->
    Forall (fits arch) rs -> r ∈ rs ->
    result fetch w = Normal tt
    /\ exists rc val,
         asked fetch rc val
         /\ entry_of_answer arch (regs_of (exec fetch w) regcache) r rc val).
  { intros read_reg rs fetch Hnd E Hfits Hr. unfold asked, result, exec.
    rewrite E. cbn [fst snd]. split.
    - apply forget_normal. by apply fetch_each_returns.
    - destruct (fetch_each_populates arch read_reg regcache rs
                  regval_on_entry w r Hnd Hfits Hr) as (rc & val & Hin & He).
      exists rc, val. split; [done|]. by apply supplied_entry. }
  split_and!.
  - exact Hround.
  - intros rc val c Hr Hread.
    destruct (Hround crash_get_current_task_reg regval_on_entry rc val c Hread)
      as [Hres Hentry].
    unfold per_task, result, exec, PerTask.fetch_registers.
    destruct (Z.geb_spec r 0) as [_|]; [|lia].
    rewrite bind_ret_tt. cbn [fst snd]. rewrite Hres. by split.
  - intros regno rc val.
    apply (Hasked crash_get_current_task_reg
             (requested_per_task arch regno)).
    + apply requested_per_task_NoDup.
    + apply pertask_fetch_registers_run.
  - intros regno rc val.
    apply (Hasked (crash_get_cpu_reg (to_int (ptid_tid (inferior_ptid w))))
             (requested_per_cpu arch regno)).
    + apply requested_per_cpu_NoDup.
    + apply percpu_fetch_registers_run.
  - intros regno.
    apply (Hfull crash_get_current_task_reg).
    + apply requested_per_task_NoDup.
    + apply pertask_fetch_registers_run.
  - intros regno.
    apply (Hfull (crash_get_cpu_reg (to_int (ptid_tid (inferior_ptid w))))).
    + apply requested_per_cpu_NoDup.
    + apply percpu_fetch_registers_run.
  - discriminate.
Qed.

Lemma fetch_entry_present_or_unavailable_witness :
  let arch := Demo.arch_of [8; 4; 16] in
  let w := Demo.w_cpus [0] in
  let fetch := PerTask.fetch_registers arch (Demo.read_reg (fun r => r =? 1))
                 Demo.zeroes (Demo.cpu_ptid 0) in
  fits arch 1
  /\ result (fetch 1) w = Normal tt
  /\ entry_of_answer arch (regs_of (exec (fetch 1) w) (Demo.cpu_ptid 0))
       1 1 (replicate 16 Byte.xab).
Proof.
  intros arch w fetch.
  assert (Hfit : fits arch 1).
  { unfold fits, sizeof_regval. vm_compute. by split. }
  split; [exact Hfit|].
  destruct (fetch_entry_present_or_unavailable arch
              (Demo.read_reg (fun r => r =? 1))
              (Demo.read_cpu_reg (fun r => r =? 1)) Demo.zeroes
              (Demo.cpu_ptid 0) 1 w Hfit) as (_ & Hsingle & _).
  apply (Hsingle 1 (replicate 16 Byte.xab) 1%nat); [lia | reflexivity].
Defined.

(** C8, as the claim states it, fails in the per-CPU variant: a fetch with
    the single register index 0 on an architecture of two registers reads
    both and populates register 1 as well. *)
Lemma percpu_fetch_ignores_regno :
  let arch := Demo.arch_of [8; 8] in
  let w := Demo.w_cpus [0; 1] in
  let cache := Demo.cpu_ptid 0 in
  let fetch := PerCpu.fetch_registers arch (Demo.read_cpu_reg (fun _ => true))
                 Demo.zeroes cache 0 in
  result fetch w = Normal tt
  /\ regs_of w cache !! 1 = None
  /\ regs_of (exec fetch w) cache !! 1 = Some (RegValid (replicate 8 Byte.xab))
  /\ count is_get_reg (trace (exec fetch w)) = 2%nat.
Proof. by vm_compute. Qed.

(** C8, amended.  Per-task variant: a fetch with a nonnegative register
    index [r] asks for register [r] alone: every other register's entry,
    the caches of the other threads, the thread list and the active
    thread are untouched, the read primitive is called for no other
    register, and when [r] fits the buffer the fetch returns with [r]
    populated from the primitive's answer; the index -1 asks for all
    registers 0..N-1.  Per-CPU variant: the index is not used; every fetch
    asks for all registers 0..N-1, so [fetch_registers (regcache, regno)]
    is [fetch_registers (regcache, -1)].  In both variants the fetch is
    the run of the loop over the registers asked for. *)
Theorem fetch_single_register_per_task_only {tool}
    (arch : gdbarch)
    (crash_get_current_task_reg :
       Z -> string -> Z -> list byte -> tool -> (Z * list byte) * tool)
    (crash_get_cpu_reg :
       Z -> Z -> string -> Z -> list byte -> tool -> (Z * list byte) * tool)
    (regval_on_entry : list byte) (regcache : ptid_t) (r : Z)
    (w : world tool) :
  0 <= r ->
  let per_task := PerTask.fetch_registers arch crash_get_current_task_reg
                    regval_on_entry regcache in
  let per_cpu := PerCpu.fetch_registers arch crash_get_cpu_reg
                   regval_on_entry regcache in
  (requested_per_task arch r = [r]
   /\ (forall r', r' <> r ->
         regs_of (exec (per_task r) w) regcache !! r'
         = regs_of w regcache !! r')
   /\ (forall c, c <> regcache ->
         regcaches (exec (per_task r) w) !! c = regcaches w !! c)
   /\ thread_list (exec (per_task r) w) = thread_list w
   /\ inferior_ptid (exec (per_task r) w) = inferior_ptid w
   /\ (forall r' regsize rc val,
         EvGetReg r' regsize rc val
           ∈ drop (length (trace w)) (trace (exec (per_task r) w)) ->
         r' = r)
   /\ (fits arch r ->
       result (per_task r) w = Normal tt
       /\ count is_get_reg (trace (exec (per_task r) w))
          = S (count is_get_reg (trace w))
       /\ exists rc val,
            regs_of (exec (per_task r) w) regcache !! r
            = Some (supplied arch r rc val)))
  /\ requested_per_task arch (-1) = seqZ 0 (gdbarch_num_regs arch)
  /\ (forall regno,
        requested_per_cpu arch regno = seqZ 0 (gdbarch_num_regs arch)
        /\ per_cpu regno w = per_cpu (-1) w)
  /\ (forall regno,
        let run := fetch_each arch crash_get_current_task_reg regcache
                     (requested_per_task arch regno) regval_on_entry in
        per_task regno w = (forget (result run w), exec run w))
  /\ (forall regno,
        let run := fetch_each arch
                     (crash_get_cpu_reg (to_int (ptid_tid (inferior_ptid w))))
                     regcache (requested_per_cpu arch regno)
                     regval_on_entry in
        per_cpu regno w = (forget (result run w), exec run w)).
Proof.
  intros Hr per_task per_cpu.
  assert (Hreq : requested_per_task arch r = [r]).
  { unfold requested_per_task. by destruct (Z.geb_spec r 0) as [_|]; [|lia]. }
  pose proof (pertask_fetch_registers_run arch regval_on_entry
                crash_get_current_task_reg regcache r w) as E.
  rewrite Hreq in E. fold (per_task r) in E.
  destruct (fetch_each_run arch crash_get_current_task_reg regcache [r]
              regval_on_entry w)
    as (done & rest & Hrs & _ & _ & _ & _ & Htr & _).
  destruct (fetch_each_frame arch crash_get_current_task_reg regcache [r]
              regval_on_entry w) as (Ht & Hi & _ & Hother).
  split_and!; try done.
  - intros r' Hne. unfold exec at 1. rewrite E. cbn [snd].
    apply fetch_each_untouched. intros Hin.
    by apply list_elem_of_singleton in Hin.
  - intros c Hc. unfold exec at 1. rewrite E. by apply Hother.
  - unfold exec at 1. by rewrite E.
  - unfold exec at 1. by rewrite E.
  - intros r' regsize rc val. unfold exec at 1. rewrite E. cbn [snd].
    intros Hin.
    destruct (fetch_each_supplied arch crash_get_current_task_reg regcache
                [r] regval_on_entry w r' regsize rc val) as (Hin' & _).
    + apply NoDup_singleton.
    + exists (concat (map (answer_events arch regcache) done)).
      split; [done|]. by rewrite Htr, drop_app_length in Hin.
    + by apply list_elem_of_singleton in Hin'.
  - intros Hfit.
    destruct (crash_get_current_task_reg r (gdbarch_register_name arch r)
                (register_size arch r) regval_on_entry (crash w))
      as [[rc val] c] eqn:Hread.
    pose proof (fetch_one_passes arch crash_get_current_task_reg regcache r
                  regval_on_entry w rc val c (fits_test _ _ Hfit) Hread) as E1.
    unfold result, exec. rewrite E. unfold result, exec.
    rewrite fetch_each_single, E1. cbn [fst snd forget trace].
    split_and!; [done| |].
    + rewrite count_app. cbn. lia.
    + exists rc, val. unfold regs_of. cbn [regcaches].
      rewrite supply_answer_regs. apply lookup_insert_eq.
  - intros regno. apply pertask_fetch_registers_run.
  - intros regno. apply percpu_fetch_registers_run.
Qed.

Lemma fetch_single_register_per_task_only_witness :
  let arch := Demo.arch_of [8; 4; 16] in
  let w := Demo.w_cpus [0] in
  let fetch := PerTask.fetch_registers arch (Demo.read_reg (fun _ => true))
                 Demo.zeroes (Demo.cpu_ptid 0) in
  0 <= 1
  /\ regs_of (exec (fetch 1) w) (Demo.cpu_ptid 0) !! 2
     = regs_of w (Demo.cpu_ptid 0) !! 2.
Proof.
  intros arch w fetch.
  assert (H1 : 0 <= 1) by lia.
  split; [exact H1|].
  destruct (fetch_single_register_per_task_only arch
              (Demo.read_reg (fun _ => true))
              (Demo.read_cpu_reg (fun _ => true)) Demo.zeroes
              (Demo.cpu_ptid 0) 1 w H1) as ((_ & Hothers & _) & _).
  apply Hothers. discriminate.
Defined.

(** ** Per-CPU variant: context-change notifications *)

Lemma find_thread_none (l : list thread_info) (p : ptid_t) :
  p ∉ map ti_ptid l ->
  List.find (fun t => bool_decide (ti_ptid t = p)) l = None.
Proof.
  induction l as [|t l IH]; [done|]. cbn. intros Hp.
  apply not_elem_of_cons in Hp as [Hne Hp].
  rewrite bool_decide_eq_false_2 by done. by apply IH.
Qed.

Lemma find_thread_some (l : list thread_info) (p : ptid_t) :
  p ∈ map ti_ptid l ->
  List.find (fun t => bool_decide (ti_ptid t = p)) l = Some (mk_thread p).
Proof.
  induction l as [|[q] l IH]; cbn; intros Hp.
  - by apply elem_of_nil in Hp.
  - case_bool_decide as Hq; [by rewrite Hq|].
    apply elem_of_cons in Hp as [-> | Hp]; [done|]. by apply IH.
Qed.

Section PerCpuNotification.
Context {tool : Type}.
Variable arch : gdbarch.
Variable crash_get_cpu_reg :
  Z -> Z -> string -> Z -> list byte -> tool -> (Z * list byte) * tool.
Variable crash_set_thread : Z -> tool -> Z * tool.
Variable new_thread_ok : list thread_info -> ptid_t -> bool.
Variable regval_on_entry : list byte.
Implicit Types (w : world tool) (task cpu : Z).

Local Abbreviation notify :=
  (PerCpu.gdb_change_thread_context arch crash_get_cpu_reg crash_set_thread
     new_thread_ok regval_on_entry).
Local Abbreviation fetch_all :=
  (PerCpu.fetch_registers arch crash_get_cpu_reg regval_on_entry).

(** The passes at [retry] when the record exists: one lookup. *)
Lemma retry_loop_found cpu w :
  let ptid := mk_ptid CRASH_INFERIOR_PID 0 cpu in
  ptid ∈ thread_ptids w ->
  PerCpu.retry_loop new_thread_ok 2 cpu ptid 0 w
  = (Normal (Some (Some (mk_thread ptid), 0)),
     set_trace w (trace w ++ [EvFindThread ptid true])).
Proof.
  intros ptid Hin. cbn [PerCpu.retry_loop]. unfold PerCpu.lookup_pass.
  unfold find_thread_ptid, bind, get, log, ret. cbn.
  by rewrite (find_thread_some _ _ Hin).
Qed.

(** The record is missing and gdb cannot create it: one lookup, one
    creation attempt, no second pass. *)
Lemma retry_loop_creation_fails cpu w :
  let ptid := mk_ptid CRASH_INFERIOR_PID 0 cpu in
  ptid ∉ thread_ptids w ->
  new_thread_ok (thread_list w) ptid = false ->
  PerCpu.retry_loop new_thread_ok 2 cpu ptid 0 w
  = (Normal (Some (None, 1)),
     set_trace w (trace w ++ [EvFindThread ptid false;
                              EvAddThread ptid false])).
Proof.
  intros ptid Hnotin Hok. cbn [PerCpu.retry_loop]. unfold PerCpu.lookup_pass.
  unfold find_thread_ptid, add_thread_silent, bind, get, log, ret. cbn.
  rewrite (find_thread_none _ _ Hnotin). cbn. fold ptid. rewrite Hok. cbn.
  unfold set_trace. cbn. by rewrite <- app_assoc.
Qed.

(** The record is missing and gdb creates it: a second pass finds it. *)
Lemma retry_loop_creation_succeeds cpu w :
  let ptid := mk_ptid CRASH_INFERIOR_PID 0 cpu in
  ptid ∉ thread_ptids w ->
  new_thread_ok (thread_list w) ptid = true ->
  PerCpu.retry_loop new_thread_ok 2 cpu ptid 0 w
  = (Normal (Some (Some (mk_thread ptid), 1)),
     mk_world (crash w) (thread_list w ++ [mk_thread ptid])
              (inferior_ptid w) (regcaches w) (prev_task w)
              (trace w ++ [EvFindThread ptid false; EvAddThread ptid true;
                           EvFindThread ptid true])).
Proof.
  intros ptid Hnotin Hok. cbn [PerCpu.retry_loop]. unfold PerCpu.lookup_pass.
  unfold find_thread_ptid, add_thread_silent, bind, get, log, ret. cbn.
  rewrite (find_thread_none _ _ Hnotin). cbn. fold ptid. rewrite Hok. cbn.
  rewrite find_thread_some.
  2:{ rewrite map_app. apply elem_of_app. right. by left. }
  cbn. unfold set_trace. cbn. by rewrite <- !app_assoc.
Qed.

(** Two passes always suffice: more fuel changes nothing. *)
Lemma retry_loop_fuel (fuel : nat) cpu w :
  PerCpu.retry_loop new_thread_ok (S (S fuel)) cpu
                    (mk_ptid CRASH_INFERIOR_PID 0 cpu) 0 w
  = PerCpu.retry_loop new_thread_ok 2 cpu
                      (mk_ptid CRASH_INFERIOR_PID 0 cpu) 0 w.
Proof.
  set (ptid := mk_ptid CRASH_INFERIOR_PID 0 cpu).
  cbn [PerCpu.retry_loop]. unfold PerCpu.lookup_pass.
  unfold find_thread_ptid, add_thread_silent, bind, get, log, ret. cbn.
  destruct (List.find _ (thread_list w)) as [tp|]; cbn; [done|].
  fold ptid. destruct (new_thread_ok (thread_list w) ptid); cbn; [|done].
  by destruct (List.find _ (thread_list w ++ [mk_thread ptid])).
Qed.

Lemma notify_resolves task w cpu c :
  crash_set_thread task (crash w) = (cpu, c) ->
  notify task w
  = (if cpu <? 0 then ret FALSE
     else
       let* found := PerCpu.retry_loop new_thread_ok 2 cpu
                       (mk_ptid CRASH_INFERIOR_PID 0 cpu) 0 in
       match found with
       | None => error "retry: out of fuel"
       | Some (tp, tried) =>
           if bool_decide (tp = None) && negb (tried =? 0) then ret FALSE
           else
             match tp with
             | None => error "get_thread_regcache: null thread"
             | Some tp =>
                 percpu_switch arch crash_get_cpu_reg regval_on_entry tp
             end
       end) (resolved w task cpu c).
Proof.
  intros Hset. unfold PerCpu.gdb_change_thread_context.
  unfold bind at 1, call. rewrite Hset. by unfold bind at 1, log.
Qed.

(** Steps 4 and 5 leave the thread list alone, call neither
    [find_thread_ptid] nor [add_thread_silent], and can only fail with
    the width diagnostic of the fetch. *)
Lemma percpu_switch_run tp w :
  let switch := percpu_switch arch crash_get_cpu_reg regval_on_entry tp in
  let fetch := fetch_all (ti_ptid tp) (-1) in
  thread_list (exec switch w) = thread_list w
  /\ count is_add_thread (trace (exec switch w))
     = count is_add_thread (trace w)
  /\ count is_find_thread (trace (exec switch w))
     = count is_find_thread (trace w)
  /\ match result fetch w with
     | Normal _ =>
         result switch w = Normal TRUE
         /\ inferior_ptid (exec switch w) = ti_ptid tp
         /\ trace (exec switch w)
            = trace (exec fetch w)
                ++ [EvSwitchToThread (ti_ptid tp); EvReinitFrameCache]
     | Thrown msg =>
         msg = buffer_too_small
         /\ result switch w = Thrown buffer_too_small
         /\ exec switch w = exec fetch w
     end.
Proof.
  intros switch fetch.
  pose proof (percpu_fetch_registers_run arch regval_on_entry
                crash_get_cpu_reg (ti_ptid tp) (-1) w) as E.
  cbv zeta in E. fold fetch in E.
  set (read_reg := crash_get_cpu_reg (to_int (ptid_tid (inferior_ptid w))))
    in E.
  set (rs := requested_per_cpu arch (-1)) in E.
  destruct (fetch_each_run arch read_reg (ti_ptid tp) rs regval_on_entry w)
    as (done & rest & _ & Ht & _ & _ & _ & Htr & _ & Hres).
  assert (Hsw : switch w
    = match (fetch w).1 with
      | Normal _ =>
          (Normal TRUE,
           mk_world (crash (fetch w).2) (thread_list (fetch w).2)
                    (ti_ptid tp) (regcaches (fetch w).2)
                    (prev_task (fetch w).2)
                    (trace (fetch w).2
                       ++ [EvSwitchToThread (ti_ptid tp);
                           EvReinitFrameCache]))
      | Thrown msg => (Thrown msg, (fetch w).2)
      end).
  { unfold switch, percpu_switch, PerCpu.target_fetch_registers,
      get_thread_regcache. fold fetch. unfold bind at 1.
    destruct (fetch w) as [[[]|msg] w1]; [|done].
    unfold switch_to_thread, reinit_frame_cache, bind, log, ret. cbn.
    by rewrite <- app_assoc. }
  unfold result, exec. rewrite Hsw. clear Hsw.
  destruct (fetch w) as [rf wf] eqn:Hfetch.
  injection E as Hrf Hwf.
  assert (Hcount : forall p,
    (forall a, count p (answer_events arch (ti_ptid tp) a) = 0%nat) ->
    count p (trace wf) = count p (trace w)).
  { intros p Hp. rewrite Hwf, Htr, count_app.
    assert (count p (concat (map (answer_events arch (ti_ptid tp)) done))
            = 0%nat) as ->; [|lia].
    clear -Hp. induction done as [|a done IH]; [done|].
    cbn [map concat]. by rewrite count_app, Hp, IH. }
  assert (Hthreads : thread_list wf = thread_list w) by by rewrite Hwf.
  cbn [fst snd] in *.
  destruct rf as [[]|msg]; cbn [fst snd thread_list trace inferior_ptid].
  - rewrite !count_app, !Hcount by done. cbn. split_and!; try done; lia.
  - assert (Hmsg : msg = buffer_too_small).
    { (* the only diagnostic is that of the width test *)
      unfold result in Hres, Hrf.
      destruct (fetch_each arch read_reg (ti_ptid tp) rs regval_on_entry w).1
        as [val|msg']; cbn in Hrf; [done|].
      destruct Hres as [-> _]. by injection Hrf as ->. }
    subst msg. rewrite !Hcount by done. by split_and!.
Qed.

(** The three ways a notification that resolves to a CPU goes on. *)
Lemma notify_found task w cpu c :
  let ptid := mk_ptid CRASH_INFERIOR_PID 0 cpu in
  crash_set_thread task (crash w) = (cpu, c) ->
  0 <= cpu ->
  ptid ∈ thread_ptids w ->
  notify task w
  = percpu_switch arch crash_get_cpu_reg regval_on_entry (mk_thread ptid)
      (set_trace (resolved w task cpu c)
         (trace w ++ [EvSetThread task cpu; EvFindThread ptid true])).
Proof.
  intros ptid Hset Hcpu Hin. rewrite (notify_resolves _ _ _ _ Hset).
  destruct (Z.ltb_spec cpu 0) as [|_]; [lia|].
  unfold bind at 1. subst ptid.
  rewrite (retry_loop_found cpu (resolved w task cpu c)) by done.
  cbn [andb bool_decide]. rewrite bool_decide_eq_false_2 by done.
  cbn [andb trace resolved]. by rewrite <- app_assoc.
Qed.

Lemma notify_creation_fails task w cpu c :
  let ptid := mk_ptid CRASH_INFERIOR_PID 0 cpu in
  crash_set_thread task (crash w) = (cpu, c) ->
  0 <= cpu ->
  ptid ∉ thread_ptids w ->
  new_thread_ok (thread_list w) ptid = false ->
  notify task w
  = (Normal FALSE,
     set_trace (resolved w task cpu c)
       (trace w ++ [EvSetThread task cpu; EvFindThread ptid false;
                    EvAddThread ptid false])).
Proof.
  intros ptid Hset Hcpu Hnotin Hok. rewrite (notify_resolves _ _ _ _ Hset).
  destruct (Z.ltb_spec cpu 0) as [|_]; [lia|].
  unfold bind at 1. subst ptid.
  rewrite (retry_loop_creation_fails cpu (resolved w task cpu c)) by done.
  rewrite bool_decide_eq_true_2 by done.
  cbn [andb negb Z.eqb trace resolved]. unfold ret.
  by rewrite <- app_assoc.
Qed.

Lemma notify_creation_succeeds task w cpu c :
  let ptid := mk_ptid CRASH_INFERIOR_PID 0 cpu in
  crash_set_thread task (crash w) = (cpu, c) ->
  0 <= cpu ->
  ptid ∉ thread_ptids w ->
  new_thread_ok (thread_list w) ptid = true ->
  notify task w
  = percpu_switch arch crash_get_cpu_reg regval_on_entry (mk_thread ptid)
      (mk_world c (thread_list w ++ [mk_thread ptid]) (inferior_ptid w)
         (regcaches w) (prev_task w)
         (trace w ++ [EvSetThread task cpu; EvFindThread ptid false;
                      EvAddThread ptid true; EvFindThread ptid true])).
Proof.
  intros ptid Hset Hcpu Hnotin Hok. rewrite (notify_resolves _ _ _ _ Hset).
  destruct (Z.ltb_spec cpu 0) as [|_]; [lia|].
  unfold bind at 1. subst ptid.
  rewrite (retry_loop_creation_succeeds cpu (resolved w task cpu c)) by done.
  rewrite bool_decide_eq_false_2 by done.
  cbn [andb trace resolved thread_list inferior_ptid regcaches prev_task
       crash].
  by rewrite <- app_assoc.
Qed.

Lemma notify_unresolved task w cpu c :
  crash_set_thread task (crash w) = (cpu, c) ->
  cpu < 0 ->
  notify task w = (Normal FALSE, resolved w task cpu c).
Proof.
  intros Hset Hcpu. rewrite (notify_resolves _ _ _ _ Hset).
  by destruct (Z.ltb_spec cpu 0) as [_|]; [|lia].
Qed.

(** A notification adds at most one thread record, and only for an
    identifier that has none. *)
Lemma notify_thread_list task w :
  thread_list (exec (notify task) w) = thread_list w
  \/ (exists ptid,
        (ptid ∉ thread_ptids w)
        /\ thread_list (exec (notify task) w)
           = thread_list w ++ [mk_thread ptid]).
Proof.
  assert (Hsw : forall tp w1,
    thread_list (percpu_switch arch crash_get_cpu_reg regval_on_entry tp
                   w1).2 = thread_list w1).
  { intros tp w1. by destruct (percpu_switch_run tp w1) as [H _]. }
  destruct (crash_set_thread task (crash w)) as [cpu c] eqn:Hset.
  destruct (Z.lt_ge_cases cpu 0) as [Hneg|Hpos].
  { left. unfold exec. by rewrite (notify_unresolved _ _ _ _ Hset Hneg). }
  set (ptid := mk_ptid CRASH_INFERIOR_PID 0 cpu).
  destruct (decide (ptid ∈ thread_ptids w)) as [Hin|Hnotin].
  { left. unfold exec. rewrite (notify_found _ _ _ _ Hset Hpos Hin).
    by rewrite Hsw. }
  destruct (new_thread_ok (thread_list w) ptid) eqn:Hok.
  - right. exists ptid. split; [done|]. unfold exec.
    rewrite (notify_creation_succeeds _ _ _ _ Hset Hpos Hnotin Hok).
    by rewrite Hsw.
  - left. unfold exec.
    by rewrite (notify_creation_fails _ _ _ _ Hset Hpos Hnotin Hok).
Qed.

(** No identifier ever gets a second record. *)
Lemma notify_NoDup task w :
  NoDup (thread_ptids w) -> NoDup (thread_ptids (exec (notify task) w)).
Proof.
  intros Hnd. unfold thread_ptids in *.
  destruct (notify_thread_list task w) as [-> | (ptid & Hnotin & ->)];
    [done|].
  rewrite map_app. apply NoDup_app. split_and!; [done| |].
  - intros q Hq Hq'. cbn in Hq'. apply list_elem_of_singleton in Hq'.
    by subst.
  - cbn. apply NoDup_singleton.
Qed.

Lemma notify_all_NoDup (tasks : list Z) : forall w,
  NoDup (thread_ptids w) ->
  NoDup (thread_ptids
           (percpu_notify_all arch crash_get_cpu_reg crash_set_thread
              new_thread_ok regval_on_entry tasks w)).
Proof.
  induction tasks as [|task tasks IH]; intros w Hnd; [done|].
  cbn. apply IH. by apply notify_NoDup.
Qed.

(** Thread records are never removed. *)
Lemma notify_keeps_records task w (p : ptid_t) :
  p ∈ thread_ptids w -> p ∈ thread_ptids (exec (notify task) w).
Proof.
  unfold thread_ptids. intros Hp.
  destruct (notify_thread_list task w) as [-> | (ptid & _ & ->)]; [done|].
  rewrite map_app. apply elem_of_app. by left.
Qed.
End PerCpuNotification.

Lemma exec_bind {tool A B} (m : M tool A) (k : A -> M tool B) (w : world tool) :
  exec (bind m k) w
  = match result m w with
    | Normal a => exec (k a) (exec m w)
    | Thrown _ => exec m w
    end.
Proof. unfold exec, result, bind. by destruct (m w) as [[a|msg] w']. Qed.

Lemma bind_run {tool A B} (m : M tool A) (k : A -> M tool B)
    (w : world tool) (a : A) (w' : world tool) :
  m w = (Normal a, w') -> bind m k w = k a w'.
Proof. intros E. unfold bind. by rewrite E. Qed.

Section PerCpuInit.
Context {tool : Type}.
Variable arch : gdbarch.
Variable crash_get_cpu_reg :
  Z -> Z -> string -> Z -> list byte -> tool -> (Z * list byte) * tool.
Variable crash_get_nr_cpus : tool -> Z * tool.
Variable new_thread_ok : list thread_info -> ptid_t -> bool.
Variable regval_on_entry : list byte.
Implicit Types (w : world tool).

Lemma add_thread_silent_run (ptid : ptid_t) w :
  add_thread_silent new_thread_ok ptid w
  = if new_thread_ok (thread_list w) ptid
    then (Normal (Some (mk_thread ptid)),
          mk_world (crash w) (thread_list w ++ [mk_thread ptid])
                   (inferior_ptid w) (regcaches w) (prev_task w)
                   (trace w ++ [EvAddThread ptid true]))
    else (Normal None, set_trace w (trace w ++ [EvAddThread ptid false])).
Proof.
  unfold add_thread_silent, bind at 1, get.
  by destruct (new_thread_ok (thread_list w) ptid).
Qed.

Lemma switch_to_thread_run (tp : thread_info) w :
  switch_to_thread tp w
  = (Normal tt,
     mk_world (crash w) (thread_list w) (ti_ptid tp) (regcaches w)
              (prev_task w) (trace w ++ [EvSwitchToThread (ti_ptid tp)])).
Proof. done. Qed.

(** The loop of [crash_target_init] creates records for some of the CPUs
    it goes through, in order. *)
Lemma add_cpu_threads_ptids (cpus : list Z) : forall w,
  exists added,
    sublist added cpus
    /\ thread_ptids (exec (PerCpu.add_cpu_threads new_thread_ok cpus) w)
       = thread_ptids w ++ map (mk_ptid CRASH_INFERIOR_PID 0) added.
Proof.
  induction cpus as [|i cpus IH]; intros w.
  - exists []. split; [done|]. cbn. by rewrite app_nil_r.
  - cbn [PerCpu.add_cpu_threads].
    set (ptid := mk_ptid CRASH_INFERIOR_PID 0 i).
    unfold exec, bind at 1. rewrite add_thread_silent_run.
    destruct (new_thread_ok (thread_list w) ptid).
    + assert (Hgoal : forall w2 : world tool,
        thread_ptids w2 = thread_ptids w ++ [ptid] ->
        exists added,
          sublist added (i :: cpus)
          /\ thread_ptids (PerCpu.add_cpu_threads new_thread_ok cpus w2).2
             = thread_ptids w ++ map (mk_ptid CRASH_INFERIOR_PID 0) added).
      { intros w2 Hw2. destruct (IH w2) as (added & Hsub & Hptids).
        exists (i :: added). split; [by apply sublist_skip|].
        unfold exec in Hptids. rewrite Hptids, Hw2.
        by rewrite <- app_assoc. }
      destruct (i =? 0).
      * unfold bind at 1. rewrite switch_to_thread_run.
        apply Hgoal. unfold thread_ptids. cbn. by rewrite map_app.
      * unfold bind at 1, ret. apply Hgoal.
        unfold thread_ptids. cbn. by rewrite map_app.
    + destruct (i =? 0).
      * unfold bind at 1, error. exists []. split; [apply sublist_nil_l|].
        cbn. by rewrite app_nil_r.
      * unfold bind at 1, ret.
        destruct (IH (set_trace w (trace w ++ [EvAddThread ptid false])))
          as (added & Hsub & Hptids).
        exists added. split; [by apply sublist_cons|].
        unfold exec in Hptids. by rewrite Hptids.
Qed.

(** After [crash_target_init] on a gdb without threads, no identifier has
    two records. *)
Lemma crash_target_init_NoDup w :
  thread_list w = [] ->
  NoDup (thread_ptids
           (exec (PerCpu.crash_target_init arch crash_get_cpu_reg
                    crash_get_nr_cpus new_thread_ok regval_on_entry) w)).
Proof.
  intros Hempty. unfold PerCpu.crash_target_init.
  destruct (crash_get_nr_cpus (crash w)) as [n c] eqn:Hn.
  unfold exec at 1.
  rewrite (bind_run _ _ w n (set_crash w c))
    by (unfold call; by rewrite Hn).
  rewrite (bind_run (log _) _ _ tt _ eq_refl).
  set (w1 := set_trace (set_crash w c) _).
  match goal with
  | |- context [(?m w1).2] => change ((m w1).2) with (exec m w1)
  end.
  destruct (add_cpu_threads_ptids (seqZ 0 n) w1)
    as (added & Hsub & Hptids).
  assert (Hnd : NoDup (thread_ptids
                         (exec (PerCpu.add_cpu_threads new_thread_ok
                                  (seqZ 0 n)) w1))).
  { rewrite Hptids. unfold thread_ptids, w1. cbn. rewrite Hempty. cbn.
    apply NoDup_fmap_2.
    - intros a b Hab. congruence.
    - eapply sublist_NoDup; [|exact Hsub]. apply NoDup_seqZ. }
  rewrite exec_bind.
  destruct (result (PerCpu.add_cpu_threads new_thread_ok (seqZ 0 n)) w1)
    as [[]|msg]; [|done].
  set (w2 := exec (PerCpu.add_cpu_threads new_thread_ok (seqZ 0 n)) w1)
    in *.
  rewrite exec_bind.
  assert (Hfetch : thread_ptids
            (exec (let* regcache := get_current_regcache in
                   PerCpu.target_fetch_registers arch crash_get_cpu_reg
                     regval_on_entry regcache (-1)) w2)
          = thread_ptids w2).
  { unfold exec.
    rewrite (bind_run get_current_regcache _ w2 (inferior_ptid w2) w2
               eq_refl).
    unfold PerCpu.target_fetch_registers.
    rewrite percpu_fetch_registers_run. cbn [snd].
    unfold thread_ptids.
    by destruct (fetch_each_frame arch
                   (crash_get_cpu_reg (to_int (ptid_tid (inferior_ptid w2))))
                   (inferior_ptid w2) (requested_per_cpu arch (-1))
                   regval_on_entry w2) as [-> _]. }
  destruct (result _ w2) as [[]|msg]; [|by rewrite Hfetch].
  unfold exec at 1, reinit_frame_cache, log. cbn [snd].
  unfold thread_ptids in *. cbn. by rewrite Hfetch.
Qed.
End PerCpuInit.

Lemma notify_all_keeps_records {tool} arch crash_get_cpu_reg crash_set_thread
    new_thread_ok regval_on_entry (tasks : list Z) :
  forall (w : world tool) (p : ptid_t),
    p ∈ thread_ptids w ->
    p ∈ thread_ptids (percpu_notify_all arch crash_get_cpu_reg
                        crash_set_thread new_thread_ok regval_on_entry
                        tasks w).
Proof.
  induction tasks as [|task tasks IH]; intros w p Hp; [done|].
  cbn. apply IH. by apply notify_keeps_records.
Qed.

(** C3.  Per-CPU variant: a notification whose task handle crash resolves
    to a negative CPU index returns failure, and nothing of the adapter or
    of gdb changes: the thread list (no record is created), the active
    thread, every register cache (no register is fetched or supplied) are
    as before, and the only call made is the one to [crash_set_thread]: no
    lookup, no creation, no register read, no switch, no frame-cache
    invalidation. *)
Theorem percpu_unresolved_notification_rejected {tool}
    (arch : gdbarch)
    (crash_get_cpu_reg :
       Z -> Z -> string -> Z -> list byte -> tool -> (Z * list byte) * tool)
    (crash_set_thread : Z -> tool -> Z * tool)
    (new_thread_ok : list thread_info -> ptid_t -> bool)
    (regval_on_entry : list byte)
    (task : Z) (w : world tool) (cpu : Z) (c : tool) :
  crash_set_thread task (crash w) = (cpu, c) ->
  cpu < 0 ->
  let notify := PerCpu.gdb_change_thread_context arch crash_get_cpu_reg
                  crash_set_thread new_thread_ok regval_on_entry task in
  result notify w = Normal FALSE
  /\ thread_list (exec notify w) = thread_list w
  /\ inferior_ptid (exec notify w) = inferior_ptid w
  /\ regcaches (exec notify w) = regcaches w
  /\ prev_task (exec notify w) = prev_task w
  /\ trace (exec notify w) = trace w ++ [EvSetThread task cpu]
  /\ count is_find_thread (trace (exec notify w))
     = count is_find_thread (trace w)
  /\ count is_add_thread (trace (exec notify w))
     = count is_add_thread (trace w)
  /\ count is_get_reg (trace (exec notify w)) = count is_get_reg (trace w)
  /\ count is_raw_supply (trace (exec notify w))
     = count is_raw_supply (trace w)
  /\ count is_switch_to_thread (trace (exec notify w))
     = count is_switch_to_thread (trace w)
  /\ count is_reinit_frame_cache (trace (exec notify w))
     = count is_reinit_frame_cache (trace w).
Proof.
  intros Hset Hneg notify. unfold result, exec, notify.
  rewrite (notify_unresolved arch crash_get_cpu_reg crash_set_thread
             new_thread_ok regval_on_entry task w cpu c Hset Hneg).
  cbn [fst snd resolved thread_list inferior_ptid regcaches prev_task trace].
  rewrite !count_app. cbn. split_and!; try done; lia.
Qed.

Lemma percpu_unresolved_notification_rejected_witness :
  let w := Demo.w_cpus [0; 1] in
  let notify := PerCpu.gdb_change_thread_context (Demo.arch_of [8])
                  (Demo.read_cpu_reg (fun _ => true)) Demo.set_thread
                  Demo.always Demo.zeroes 3 in
  (Demo.set_thread 3 (crash w) = (-97, 1%nat) /\ -97 < 0)
  /\ result notify w = Normal FALSE
  /\ thread_list (exec notify w) = thread_list w
  /\ trace (exec notify w) = trace w ++ [EvSetThread 3 (-97)].
Proof.
  intros w notify.
  assert (Hset : Demo.set_thread 3 (crash w) = (-97, 1%nat)) by reflexivity.
  assert (Hneg : -97 < 0) by lia.
  split; [by split|].
  destruct (percpu_unresolved_notification_rejected (Demo.arch_of [8])
              (Demo.read_cpu_reg (fun _ => true)) Demo.set_thread
              Demo.always Demo.zeroes 3 w (-97) 1%nat Hset Hneg)
    as (Hres & Hthreads & _ & _ & _ & Htrace & _).
  by split_and!.
Defined.

(** C4, as the claim states it, fails: a notification resolving to CPU 3,
    which has no thread record, on an architecture with a 32-byte
    register: the record is created, but the register fetch that follows
    aborts with the width diagnostic, so the notification is not accepted
    (it does not report success, and the active thread is not switched). *)
Lemma percpu_created_but_not_accepted :
  let w := Demo.w_cpus [0; 1] in
  let notify := PerCpu.gdb_change_thread_context (Demo.arch_of [32])
                  (Demo.read_cpu_reg (fun _ => true)) Demo.set_thread
                  Demo.always Demo.zeroes 103 in
  Demo.set_thread 103 (crash w) = (3, 1%nat)
  /\ (Demo.cpu_ptid 3 ∉ thread_ptids w)
  /\ Demo.always (thread_list w) (Demo.cpu_ptid 3) = true
  /\ thread_list (exec notify w) = thread_list w ++ [mk_thread (Demo.cpu_ptid 3)]
  /\ result notify w = Thrown buffer_too_small
  /\ result notify w <> Normal TRUE
  /\ inferior_ptid (exec notify w) = Demo.cpu_ptid 0.
Proof.
  intros w notify. split_and!; try by vm_compute.
  intros Hin. vm_compute in Hin.
  repeat (apply elem_of_cons in Hin as [Hin|Hin]; [discriminate|]).
  by apply elem_of_nil in Hin.
Qed.

(** C4, amended.  Per-CPU variant: for a notification resolving to a CPU
    index [cpu >= 0] that has no thread record, exactly one creation
    attempt is made, and the lookup is made at most twice (once more
    after a successful creation).  If creation fails the notification
    returns failure and the thread list, the active thread and the
    register caches are as before.  If creation succeeds the thread list
    gains exactly the one record for [cpu], and the notification goes on
    with it: it reports success, with that record active and the frame
    cache invalidated once, unless the register fetch into the record
    aborts with the ConfigurationError diagnostic, its only other
    outcome; it reports success whenever all registers fit the buffer.
    Every later notification resolving to the same CPU index finds the
    record and creates none, so the thread list is unchanged by it; a
    record, once there, stays through any sequence of notifications; and
    no identifier ever has two records: that holds after
    [crash_target_init] and is kept by every sequence of notifications. *)
Theorem percpu_lazy_creation_once {tool}
    (arch : gdbarch)
    (crash_get_cpu_reg :
       Z -> Z -> string -> Z -> list byte -> tool -> (Z * list byte) * tool)
    (crash_set_thread : Z -> tool -> Z * tool)
    (new_thread_ok : list thread_info -> ptid_t -> bool)
    (regval_on_entry : list byte)
    (task : Z) (w : world tool) (cpu : Z) (c : tool) :
  let ptid := mk_ptid CRASH_INFERIOR_PID 0 cpu in
  let notify := PerCpu.gdb_change_thread_context arch crash_get_cpu_reg
                  crash_set_thread new_thread_ok regval_on_entry in
  let notify_all := percpu_notify_all arch crash_get_cpu_reg crash_set_thread
                      new_thread_ok regval_on_entry in
  crash_set_thread task (crash w) = (cpu, c) ->
  0 <= cpu ->
  ptid ∉ thread_ptids w ->
  let w' := exec (notify task) w in
  count is_add_thread (trace w') = S (count is_add_thread (trace w))
  /\ (count is_find_thread (trace w') <= count is_find_thread (trace w) + 2)%nat
  /\ (new_thread_ok (thread_list w) ptid = false ->
      result (notify task) w = Normal FALSE
      /\ thread_list w' = thread_list w
      /\ inferior_ptid w' = inferior_ptid w
      /\ regcaches w' = regcaches w
      /\ count is_reinit_frame_cache (trace w')
         = count is_reinit_frame_cache (trace w))
  /\ (new_thread_ok (thread_list w) ptid = true ->
      thread_list w' = thread_list w ++ [mk_thread ptid]
      /\ (result (notify task) w = Normal TRUE
          \/ result (notify task) w = Thrown buffer_too_small)
      /\ (result (notify task) w = Normal TRUE ->
          inferior_ptid w' = ptid
          /\ count is_reinit_frame_cache (trace w')
             = S (count is_reinit_frame_cache (trace w)))
      /\ (Forall (fits arch) (seqZ 0 (gdbarch_num_regs arch)) ->
          result (notify task) w = Normal TRUE)
      /\ forall tasks, ptid ∈ thread_ptids (notify_all tasks w'))
  /\ (forall task2 (w2 : world tool) c2,
        crash_set_thread task2 (crash w2) = (cpu, c2) ->
        ptid ∈ thread_ptids w2 ->
        thread_list (exec (notify task2) w2) = thread_list w2
        /\ count is_add_thread (trace (exec (notify task2) w2))
           = count is_add_thread (trace w2))
  /\ (forall tasks (w2 : world tool),
        NoDup (thread_ptids w2) -> NoDup (thread_ptids (notify_all tasks w2)))
  /\ (forall crash_get_nr_cpus tasks (w0 : world tool),
        thread_list w0 = [] ->
        NoDup (thread_ptids
                 (notify_all tasks
                    (exec (PerCpu.crash_target_init arch crash_get_cpu_reg
                             crash_get_nr_cpus new_thread_ok regval_on_entry)
                          w0)))).
Proof.
  intros ptid notify notify_all Hset Hcpu Hnotin w'.
  (* what steps 4 and 5 do once the record is held *)
  assert (Hswitch : forall tp (w1 : world tool),
    let switch := percpu_switch arch crash_get_cpu_reg regval_on_entry tp in
    thread_list (switch w1).2 = thread_list w1
    /\ count is_add_thread (trace (switch w1).2)
       = count is_add_thread (trace w1)
    /\ count is_find_thread (trace (switch w1).2)
       = count is_find_thread (trace w1)
    /\ ((switch w1).1 = Normal TRUE \/ (switch w1).1 = Thrown buffer_too_small)
    /\ ((switch w1).1 = Normal TRUE ->
        inferior_ptid (switch w1).2 = ti_ptid tp
        /\ count is_reinit_frame_cache (trace (switch w1).2)
           = S (count is_reinit_frame_cache (trace w1)))
    /\ (Forall (fits arch) (seqZ 0 (gdbarch_num_regs arch)) ->
        (switch w1).1 = Normal TRUE)).
  { intros tp w1 switch.
    destruct (percpu_switch_run arch crash_get_cpu_reg regval_on_entry tp w1)
      as (Ht & Ha & Hf & Hres).
    fold switch in Ht, Ha, Hf, Hres. unfold exec, result in Ht, Ha, Hf, Hres.
    pose proof (percpu_fetch_registers_run arch regval_on_entry
                  crash_get_cpu_reg (ti_ptid tp) (-1) w1) as E.
    cbv zeta in E.
    set (fetch := PerCpu.fetch_registers arch crash_get_cpu_reg
                    regval_on_entry (ti_ptid tp) (-1)) in *.
    set (read_reg := crash_get_cpu_reg (to_int (ptid_tid (inferior_ptid w1))))
      in E.
    split_and!; try done.
    - destruct (fetch w1).1 as [[]|msg]; [left|right]; by destruct Hres
        as (? & ? & ?).
    - intros Hok. destruct (fetch w1).1 as [[]|msg] eqn:Hf1.
      + destruct Hres as (_ & Hi & Htr). split; [done|].
        rewrite Htr, count_app.
        assert (count is_reinit_frame_cache (trace (fetch w1).2)
                = count is_reinit_frame_cache (trace w1)) as ->.
        { rewrite E. cbn [snd].
          destruct (fetch_each_run arch read_reg (ti_ptid tp)
                      (requested_per_cpu arch (-1)) regval_on_entry w1)
            as (done & rest & _ & _ & _ & _ & _ & Htr1 & _).
          rewrite Htr1, count_app.
          assert (count is_reinit_frame_cache
                    (concat (map (answer_events arch (ti_ptid tp)) done))
                  = 0%nat) as ->; [|lia].
          clear. induction done as [|a done IH]; [done|].
          cbn [map concat]. by rewrite count_app, IH. }
        cbn. lia.
      + destruct Hres as (_ & Hthrown & _). congruence.
    - intros Hfits. destruct (fetch w1).1 as [[]|msg] eqn:Hf1.
      + by destruct Hres as (? & _).
      + exfalso. rewrite E in Hf1. cbn [fst] in Hf1.
        destruct (fetch_each_returns arch read_reg (ti_ptid tp)
                    (requested_per_cpu arch (-1)) regval_on_entry w1 Hfits)
          as [val Hval].
        by rewrite Hval in Hf1. }
  destruct (new_thread_ok (thread_list w) ptid) eqn:Hok.
  - (* creation succeeds *)
    pose proof (notify_creation_succeeds arch crash_get_cpu_reg
                  crash_set_thread new_thread_ok regval_on_entry task w cpu c
                  Hset Hcpu Hnotin Hok) as E.
    fold ptid in E. fold (notify task) in E.
    set (w1 := mk_world c (thread_list w ++ [mk_thread ptid]) (inferior_ptid w)
                 (regcaches w) (prev_task w)
                 (trace w ++ [EvSetThread task cpu; EvFindThread ptid false;
                              EvAddThread ptid true; EvFindThread ptid true]))
      in E.
    destruct (Hswitch (mk_thread ptid) w1) as (Ht & Ha & Hf & Hres & Hacc & Hfit).
    unfold w', exec, result. rewrite E.
    split_and!.
    + rewrite Ha. unfold w1. cbn [trace]. rewrite count_app. cbn. lia.
    + rewrite Hf. unfold w1. cbn [trace]. rewrite count_app. cbn. lia.
    + done.
    + intros _. split_and!; try done.
      * intros Hr. destruct (Hacc Hr) as [Hi Hc]. split; [done|].
        rewrite Hc. unfold w1. cbn [trace]. rewrite count_app. cbn. lia.
      * intros tasks. apply notify_all_keeps_records.
        unfold thread_ptids. rewrite Ht. unfold w1. cbn [thread_list].
        rewrite map_app. apply elem_of_app. right. by left.
    + intros task2 w2 c2 Hset2 Hin2.
      pose proof (notify_found arch crash_get_cpu_reg crash_set_thread
                    new_thread_ok regval_on_entry task2 w2 cpu c2 Hset2 Hcpu
                    Hin2) as E2.
      fold ptid in E2. fold (notify task2) in E2. rewrite E2.
      destruct (Hswitch (mk_thread ptid)
                  (set_trace (resolved w2 task2 cpu c2)
                     (trace w2 ++ [EvSetThread task2 cpu;
                                   EvFindThread ptid true])))
        as (Ht2 & Ha2 & _).
      rewrite Ht2, Ha2. cbn [set_trace trace thread_list resolved].
      split; [done|]. rewrite count_app. cbn. lia.
    + intros tasks w2. apply notify_all_NoDup.
    + intros nr tasks w0 Hempty. apply notify_all_NoDup.
      by apply crash_target_init_NoDup.
  - (* creation fails *)
    pose proof (notify_creation_fails arch crash_get_cpu_reg
                  crash_set_thread new_thread_ok regval_on_entry task w cpu c
                  Hset Hcpu Hnotin Hok) as E.
    fold ptid in E. fold (notify task) in E.
    unfold w', exec, result. rewrite E.
    cbn [fst snd set_trace resolved trace thread_list inferior_ptid regcaches].
    split_and!.
    + rewrite count_app. cbn. lia.
    + rewrite count_app. cbn. lia.
    + intros _. split_and!; try done. rewrite count_app. cbn. lia.
    + done.
    + intros task2 w2 c2 Hset2 Hin2.
      pose proof (notify_found arch crash_get_cpu_reg crash_set_thread
                    new_thread_ok regval_on_entry task2 w2 cpu c2 Hset2 Hcpu
                    Hin2) as E2.
      fold ptid in E2. fold (notify task2) in E2. rewrite E2.
      destruct (Hswitch (mk_thread ptid)
                  (set_trace (resolved w2 task2 cpu c2)
                     (trace w2 ++ [EvSetThread task2 cpu;
                                   EvFindThread ptid true])))
        as (Ht2 & Ha2 & _).
      rewrite Ht2, Ha2. cbn [set_trace trace thread_list resolved].
      split; [done|]. rewrite count_app. cbn. lia.
    + intros tasks w2. apply notify_all_NoDup.
    + intros nr tasks w0 Hempty. apply notify_all_NoDup.
      by apply crash_target_init_NoDup.
Qed.

Lemma percpu_lazy_creation_once_witness :
  let w := Demo.w_cpus [0; 1] in
  let notify := PerCpu.gdb_change_thread_context (Demo.arch_of [8])
                  (Demo.read_cpu_reg (fun _ => true)) Demo.set_thread
                  Demo.always Demo.zeroes in
  (Demo.set_thread 103 (crash w) = (3, 1%nat)
   /\ 0 <= 3
   /\ Demo.cpu_ptid 3 ∉ thread_ptids w)
  /\ count is_add_thread (trace (exec (notify 103) w)) = 1%nat
  /\ thread_list (exec (notify 103) w)
     = thread_list w ++ [mk_thread (Demo.cpu_ptid 3)]
  /\ result (notify 103) w = Normal TRUE
  /\ thread_list (exec (notify 103) (exec (notify 103) w))
     = thread_list (exec (notify 103) w).
Proof.
  intros w notify.
  assert (Hset : Demo.set_thread 103 (crash w) = (3, 1%nat)) by reflexivity.
  assert (Hcpu : 0 <= 3) by lia.
  assert (Hnotin : Demo.cpu_ptid 3 ∉ thread_ptids w).
  { intros Hin. vm_compute in Hin.
    repeat (apply elem_of_cons in Hin as [Hin|Hin]; [discriminate|]).
    by apply elem_of_nil in Hin. }
  split; [by split_and!|].
  destruct (percpu_lazy_creation_once (Demo.arch_of [8])
              (Demo.read_cpu_reg (fun _ => true)) Demo.set_thread
              Demo.always Demo.zeroes 103 w 3 1%nat Hset Hcpu Hnotin)
    as (Hadd & _ & _ & Hok & Hreuse & _).
  destruct (Hok eq_refl) as (Hthreads & _ & _ & Hfits & Hkept).
  split_and!.
  - exact Hadd.
  - exact Hthreads.
  - apply Hfits.
    change (seqZ 0 (gdbarch_num_regs (Demo.arch_of [8]))) with [0].
    apply Forall_cons. split; [|apply Forall_nil_2].
    unfold fits, sizeof_regval. vm_compute. by split.
  - apply (Hreuse 103 (exec (notify 103) w) 3%nat); [by vm_compute|].
    apply (Hkept []).
Defined.

(** ** The scenarios of initialization and of a refused creation, run *)

(** Scenario A: initializing the per-CPU variant with two CPUs gives two
    thread records, the one of CPU 0 active, after one fetch of all
    registers (here one register) and one frame-cache invalidation. *)
Example percpu_init_two_cpus :
  let init := PerCpu.crash_target_init (Demo.arch_of [8])
                (Demo.read_cpu_reg (fun _ => true)) (Demo.nr_cpus 2)
                Demo.always Demo.zeroes in
  result init Demo.w0 = Normal tt
  /\ thread_ptids (exec init Demo.w0) = [Demo.cpu_ptid 0; Demo.cpu_ptid 1]
  /\ inferior_ptid (exec init Demo.w0) = Demo.cpu_ptid 0
  /\ count is_get_reg (trace (exec init Demo.w0)) = 1%nat
  /\ count is_reinit_frame_cache (trace (exec init Demo.w0)) = 1%nat.
Proof. by vm_compute. Qed.

(** A notification for CPU 3 when gdb cannot create the record: one
    lookup, one creation attempt, failure. *)
Example percpu_creation_refused :
  let notify := PerCpu.gdb_change_thread_context (Demo.arch_of [8])
                  (Demo.read_cpu_reg (fun _ => true)) Demo.set_thread
                  Demo.never Demo.zeroes 103 in
  result notify (Demo.w_cpus [0; 1]) = Normal FALSE
  /\ trace (exec notify (Demo.w_cpus [0; 1]))
     = [EvSetThread 103 3; EvFindThread (Demo.cpu_ptid 3) false;
        EvAddThread (Demo.cpu_ptid 3) false].
Proof. by vm_compute. Qed.

(** * Further properties of the code *)

(** ** Per-task variant: sequences of notifications *)

Lemma count_invalidation_pairs (p : event -> bool) (n : nat) :
  count p (concat (replicate n [EvRegistersChanged; EvReinitFrameCache]))
  = (n * count p [EvRegistersChanged; EvReinitFrameCache])%nat.
Proof.
  induction n as [|n IH]; [done|].
  cbn [replicate concat]. rewrite count_app, IH. lia.
Qed.

Lemma pertask_notify_all_run {tool} (tasks : list Z) : forall w : world tool,
  pertask_notify_all tasks w
  = mk_world (crash w) (thread_list w) (inferior_ptid w)
      (if changes (prev_task w) tasks is O then regcaches w else ∅)
      (default (prev_task w) (last tasks))
      (trace w ++ concat (replicate (changes (prev_task w) tasks)
                            [EvRegistersChanged; EvReinitFrameCache])).
Proof.
  induction tasks as [|task tasks IH]; intros w.
  - cbn. rewrite app_nil_r. by destruct w.
  - change (pertask_notify_all (task :: tasks) w)
      with (pertask_notify_all tasks
              (exec (PerTask.gdb_change_thread_context task) w)).
    rewrite IH. clear IH.
    assert (Hlast : forall m, default m (last (task :: tasks))
                              = default task (last tasks)).
    { intros m. destruct tasks as [|t ts]; [done|].
      change (last (task :: t :: ts)) with (last (t :: ts)).
      destruct (last (t :: ts)) eqn:E; [done|].
      by apply last_None in E. }
    rewrite Hlast. cbn [changes]. unfold exec.
    destruct (Z.eqb_spec task (prev_task w)) as [->|Hne].
    + rewrite notify_same by done. cbn [snd Nat.add]. done.
    + rewrite notify_changed by done.
      cbn [snd Nat.add crash thread_list inferior_ptid regcaches prev_task
           trace replicate concat].
      f_equal.
      * by destruct (changes task tasks).
      * by rewrite <- app_assoc.
Qed.

(** X1.  Per-task variant, any sequence of notifications from any state:
    the registers and the frame cache are invalidated once each, in that
    order, for every handle of the sequence that differs from the handle
    before it (the marker, for the first), and never otherwise; the marker
    ends as the last handle; the register caches are all dropped if any
    handle differed and untouched if none did; no register is read, and
    crash's state, the thread list and the active thread are as before. *)
Theorem pertask_sequence_invalidates_per_change {tool}
    (tasks : list Z) (w : world tool) :
  let w' := pertask_notify_all tasks w in
  let n := changes (prev_task w) tasks in
  new_events w w'
  = concat (replicate n [EvRegistersChanged; EvReinitFrameCache])
  /\ count is_registers_changed (trace w')
     = (count is_registers_changed (trace w) + n)%nat
  /\ count is_reinit_frame_cache (trace w')
     = (count is_reinit_frame_cache (trace w) + n)%nat
  /\ count is_get_reg (trace w') = count is_get_reg (trace w)
  /\ prev_task w' = default (prev_task w) (last tasks)
  /\ regcaches w' = (if n is O then regcaches w else ∅)
  /\ crash w' = crash w
  /\ thread_list w' = thread_list w
  /\ inferior_ptid w' = inferior_ptid w.
Proof.
  intros w' n. unfold w', new_events. rewrite pertask_notify_all_run.
  fold n. cbn [trace prev_task regcaches crash thread_list inferior_ptid].
  rewrite drop_app_length, !count_app, !count_invalidation_pairs.
  split_and!; try done; cbn; lia.
Qed.

(** ** Register Projector: order and footprint of a fetch *)

Lemma answer_events_numbers arch regcache (done : list answer) :
  omap get_reg_number (concat (map (answer_events arch regcache) done))
  = map answer_reg done
  /\ omap raw_supply_number (concat (map (answer_events arch regcache) done))
     = map answer_reg done
  /\ Forall (fun e => is_get_reg e || is_raw_supply e = true)
            (concat (map (answer_events arch regcache) done)).
Proof.
  induction done as [|a done (IH1 & IH2 & IH3)]; [by split_and!|].
  cbn [map concat]. rewrite !omap_app, IH1, IH2. split_and!; try done.
  apply Forall_app. split; [|done].
  unfold answer_events. by repeat apply Forall_cons_2.
Qed.

Section FetchFootprint.
Context {tool : Type}.
Variable arch : gdbarch.
Variable read_reg :
  Z -> string -> Z -> list byte -> tool -> (Z * list byte) * tool.
Variable regcache : ptid_t.
Implicit Types (w : world tool) (rs : list Z) (regval : list byte).

(** What the trace shows of a run of the loop over [rs]: reads of a
    prefix of [rs], in order, each followed by the supply of the same
    register; of all of [rs] when every register fits. *)
Lemma fetch_each_events rs regval w :
  let w' := exec (fetch_each arch read_reg regcache rs regval) w in
  omap get_reg_number (new_events w w') `prefix_of` rs
  /\ omap raw_supply_number (new_events w w')
     = omap get_reg_number (new_events w w')
  /\ Forall (fun e => is_get_reg e || is_raw_supply e = true)
            (new_events w w')
  /\ (Forall (fits arch) rs ->
      omap get_reg_number (new_events w w') = rs).
Proof.
  intros w'. unfold w', new_events.
  destruct (fetch_each_run arch read_reg regcache rs regval w)
    as (done & rest & Hrs & _ & _ & _ & _ & Htr & _ & Hres).
  destruct (answer_events_numbers arch regcache done) as (Hg & Hs & Hall).
  rewrite Htr, drop_app_length, Hg, Hs.
  split_and!; try done.
  - exists rest. exact Hrs.
  - intros Hfits.
    destruct (fetch_each_returns arch read_reg regcache rs regval w Hfits)
      as [val Hval].
    rewrite Hval in Hres. subst rest. by rewrite app_nil_r in Hrs.
Qed.
End FetchFootprint.



(** X3.  A register fetch (either variant, any register index, whether it
    returns or aborts) touches nothing but the register cache it was
    given: the thread list, the active thread and the marker are as
    before, every other thread's cache is untouched, so is the entry of
    every register not asked for, and the only calls it adds to the trace
    are register reads and supplies: no lookup, creation or switch of a
    thread, no memory access, no invalidation.  In the per-task variant a
    negative index other than -1 asks for nothing: the fetch returns
    with the world unchanged. *)
Theorem fetch_touches_one_cache {tool}
    (arch : gdbarch)
    (crash_get_current_task_reg :
       Z -> string -> Z -> list byte -> tool -> (Z * list byte) * tool)
    (crash_get_cpu_reg :
       Z -> Z -> string -> Z -> list byte -> tool -> (Z * list byte) * tool)
    (regval_on_entry : list byte) (regcache : ptid_t) (regno : Z)
    (w : world tool) :
  let confined (fetch : M tool unit) (rs : list Z) :=
    thread_list (exec fetch w) = thread_list w
    /\ inferior_ptid (exec fetch w) = inferior_ptid w
    /\ prev_task (exec fetch w) = prev_task w
    /\ (forall c, c <> regcache ->
          regcaches (exec fetch w) !! c = regcaches w !! c)
    /\ (forall r, r ∉ rs ->
          regs_of (exec fetch w) regcache !! r = regs_of w regcache !! r)
    /\ Forall (fun e => is_get_reg e || is_raw_supply e = true)
              (new_events w (exec fetch w)) in
  let per_task := PerTask.fetch_registers arch crash_get_current_task_reg
                    regval_on_entry regcache regno in
  confined per_task
           (if regno >=? 0 then [regno]
            else if regno =? -1 then seqZ 0 (gdbarch_num_regs arch) else [])
  /\ confined (PerCpu.fetch_registers arch crash_get_cpu_reg regval_on_entry
                 regcache regno)
              (seqZ 0 (gdbarch_num_regs arch))
  /\ (regno < -1 -> per_task w = (Normal tt, w)).
Proof.
  intros confined per_task.
  assert (Hgen : forall read_reg rs (fetch : M tool unit),
    fetch w = (forget (result (fetch_each arch read_reg regcache rs
                                 regval_on_entry) w),
               exec (fetch_each arch read_reg regcache rs regval_on_entry) w) ->
    confined fetch rs).
  { intros read_reg rs fetch E. unfold confined, exec. rewrite E. cbn [snd].
    destruct (fetch_each_frame arch read_reg regcache rs regval_on_entry w)
      as (Ht & Hi & Hp & Hother).
    destruct (fetch_each_events arch read_reg regcache rs regval_on_entry w)
      as (_ & _ & Hall & _).
    split_and!; try done.
    intros r Hr. by apply fetch_each_untouched. }
  split_and!.
  - apply (Hgen crash_get_current_task_reg). apply pertask_fetch_registers_run.
  - apply (Hgen (crash_get_cpu_reg (to_int (ptid_tid (inferior_ptid w))))).
    apply percpu_fetch_registers_run.
  - intros Hneg. unfold per_task, PerTask.fetch_registers.
    destruct (Z.geb_spec regno 0) as [|_]; [lia|].
    by destruct (Z.eqb_spec regno (-1)) as [|_]; [lia|].
Qed.

Lemma fetch_touches_one_cache_witness :
  -2 < -1
  /\ PerTask.fetch_registers (Demo.arch_of [8; 4]) (Demo.read_reg (fun _ => true))
       Demo.zeroes (Demo.cpu_ptid 0) (-2) (Demo.w_cpus [0])
     = (Normal tt, Demo.w_cpus [0]).
Proof.
  assert (H : -2 < -1) by lia.
  split; [exact H|].
  destruct (fetch_touches_one_cache (Demo.arch_of [8; 4])
              (Demo.read_reg (fun _ => true))
              (Demo.read_cpu_reg (fun _ => true)) Demo.zeroes
              (Demo.cpu_ptid 0) (-2) (Demo.w_cpus [0])) as (_ & _ & Hnoop).
  exact (Hnoop H).
Defined.

(** X4.  The width test of the fetch loop compares the [int] width with
    [sizeof (regval)] as unsigned numbers, so the round for a register
    aborts with the diagnostic exactly when the declared width is above 16
    or negative, and then nothing has been done (the primitive is not
    called); for every width from 0 to 16 the round returns. *)
Theorem fetch_round_aborts_iff_width_out_of_range {tool}
    (arch : gdbarch)
    (read_reg : Z -> string -> Z -> list byte -> tool -> (Z * list byte) * tool)
    (regcache : ptid_t) (r : Z) (regval : list byte) (w : world tool) :
  INT_MIN <= register_size arch r <= INT_MAX ->
  let round := fetch_one arch read_reg regcache r regval in
  (result round w = Thrown buffer_too_small
   <-> register_size arch r < 0 \/ sizeof_regval < register_size arch r)
  /\ (result round w = Thrown buffer_too_small -> exec round w = w)
  /\ (0 <= register_size arch r <= sizeof_regval ->
      exists val, result round w = Normal val).
Proof.
  intros Hint round. unfold INT_MIN, INT_MAX, sizeof_regval in *.
  assert (Hfit : 0 <= register_size arch r <= 16 ->
                 exists val, result round w = Normal val).
  { intros H.
    destruct (read_reg r (gdbarch_register_name arch r) (register_size arch r)
                regval (crash w)) as [[rc val] c] eqn:Hread.
    exists val. unfold result, round.
    by rewrite (fetch_one_passes arch read_reg regcache r regval w rc val c
                  (fits_test arch r H) Hread). }
  assert (Hout : register_size arch r < 0 \/ 16 < register_size arch r ->
                 round w = (Thrown buffer_too_small, w)).
  { intros H. apply fetch_one_aborts. unfold to_size_t, sizeof_regval.
    destruct H as [H|H].
    - rewrite <- (Z.mod_add _ 1) by lia. rewrite Z.mod_small by lia. lia.
    - rewrite Z.mod_small by lia. lia. }
  split_and!; [split| |done].
  - intros Hthrown.
    destruct (Z.lt_ge_cases (register_size arch r) 0) as [|Hge]; [by left|].
    destruct (Z.lt_ge_cases 16 (register_size arch r)) as [|Hle]; [by right|].
    destruct Hfit as [val Hval]; [lia|]. congruence.
  - intros H. unfold result. by rewrite (Hout H).
  - intros Hthrown.
    destruct (Z.lt_ge_cases (register_size arch r) 0) as [|Hge];
      [unfold exec; by rewrite Hout by (by left)|].
    destruct (Z.lt_ge_cases 16 (register_size arch r)) as [|Hle];
      [unfold exec; by rewrite Hout by (by right)|].
    destruct Hfit as [val Hval]; [lia|]. congruence.
Qed.

Lemma fetch_round_aborts_iff_width_out_of_range_witness :
  let arch := mk_gdbarch 1 (fun _ => "r0") (fun _ => -8) in
  (INT_MIN <= register_size arch 0 <= INT_MAX)
  /\ result (fetch_one arch (Demo.read_reg (fun _ => true)) (Demo.cpu_ptid 0)
               0 Demo.zeroes) (Demo.w_cpus [0])
     = Thrown buffer_too_small.
Proof.
  intros arch.
  assert (Hint : INT_MIN <= register_size arch 0 <= INT_MAX).
  { unfold INT_MIN, INT_MAX. cbn. lia. }
  split; [exact Hint|].
  destruct (fetch_round_aborts_iff_width_out_of_range arch
              (Demo.read_reg (fun _ => true)) (Demo.cpu_ptid 0) 0 Demo.zeroes
              (Demo.w_cpus [0]) Hint) as ([_ Hout] & _).
  apply Hout. left. cbn. lia.
Defined.

(** ** Memory Relay: what a transfer depends on *)

Lemma to_int_small (z : Z) : INT_MIN <= z <= INT_MAX -> to_int z = z.
Proof.
  unfold INT_MIN, INT_MAX, to_int. intros H.
  rewrite Z.mod_small by lia. lia.
Qed.

Lemma to_int_wraps (m k : Z) : to_int (m * 2 ^ 32 + k) = to_int k.
Proof.
  unfold to_int.
  replace (m * 2 ^ 32 + k + 2 ^ 31) with (k + 2 ^ 31 + m * 2 ^ 32) by lia.
  by rewrite Z.mod_add by lia.
Qed.

(** X5.  [xfer_partial] hands the 64-bit length to crash's memory primitive
    as an [int]: a request for [m * 2^32 + k] bytes of memory, with
    [0 <= k <= INT_MAX], makes the same call of the primitive and leaves
    the same world, status and buffer as a request for [k] bytes, yet on
    success it reports all [m * 2^32 + k] bytes as transferred. *)
Theorem xfer_partial_length_wraps {tool}
    (gdb_readmem_callback :
       Z -> option (list byte) -> Z -> Z -> tool ->
       (Z * option (list byte)) * tool)
    (object : target_object) (annex : option string)
    (readbuf writebuf : option (list byte)) (offset m k xfered_len : Z)
    (w : world tool) :
  memory_kind object ->
  0 <= k <= INT_MAX ->
  let xfer len := xfer_partial gdb_readmem_callback object annex readbuf
                               writebuf offset len xfered_len in
  let len := m * 2 ^ 32 + k in
  exec (xfer len) w = exec (xfer k) w
  /\ exists big small,
       result (xfer len) w = Normal big
       /\ result (xfer k) w = Normal small
       /\ xfer_status big = xfer_status small
       /\ xfer_readbuf big = xfer_readbuf small
       /\ (xfer_status big = TARGET_XFER_OK ->
           xfer_xfered_len big = len /\ xfer_xfered_len small = k)
       /\ Exists (fun e => exists write rc, e = EvReadmem offset k write rc)
                 (new_events w (exec (xfer len) w)).
Proof.
  intros Hk Hrange xfer len.
  assert (Hlen : to_int len = k).
  { unfold len. rewrite to_int_wraps. apply to_int_small.
    unfold INT_MIN, INT_MAX in *. lia. }
  assert (Hk' : to_int k = k).
  { apply to_int_small. unfold INT_MIN, INT_MAX in *. lia. }
  destruct (gdb_readmem_callback offset
              (if readbuf is Some _ then readbuf else writebuf) k
              (if readbuf is Some _ then 0 else 1) (crash w))
    as [[rc buf] c] eqn:Hcall.
  assert (E1 := xfer_partial_forwarded gdb_readmem_callback object annex
                  readbuf writebuf offset len xfered_len w rc buf c Hk).
  assert (E2 := xfer_partial_forwarded gdb_readmem_callback object annex
                  readbuf writebuf offset k xfered_len w rc buf c Hk).
  rewrite Hlen in E1. rewrite Hk' in E2.
  specialize (E1 Hcall). specialize (E2 Hcall).
  fold (xfer len) in E1. fold (xfer k) in E2.
  unfold exec, result, new_events. rewrite E1, E2. cbn [fst snd trace].
  split; [done|]. eexists _, _. split_and!; try done.
  - cbn. by destruct (rc =? 0).
  - rewrite drop_app_length. apply Exists_cons_hd. eauto.
Qed.

Lemma xfer_partial_length_wraps_witness :
  let xfer len := xfer_partial (Demo.readmem 1) TARGET_OBJECT_MEMORY None
                    (Some []) None 4096 len 0 in
  (memory_kind TARGET_OBJECT_MEMORY /\ 0 <= 64 <= INT_MAX)
  /\ exec (xfer (1 * 2 ^ 32 + 64)) Demo.w0 = exec (xfer 64) Demo.w0.
Proof.
  intros xfer.
  assert (Hk : memory_kind TARGET_OBJECT_MEMORY) by (by left).
  assert (Hr : 0 <= 64 <= INT_MAX) by (unfold INT_MAX; lia).
  split; [by split|].
  by destruct (xfer_partial_length_wraps (Demo.readmem 1)
                 TARGET_OBJECT_MEMORY None (Some []) None 4096 1 64 0 Demo.w0
                 Hk Hr) as [H _].
Defined.

(** X6.  [xfer_partial] is blind to everything but the memory-or-not
    distinction and the buffer it forwards: the three memory kinds are
    served by the same call (the primitive is not told the kind), the
    annex is never looked at, and when a read buffer is given the write
    buffer is never looked at (a request with both is a read). *)
Theorem xfer_partial_ignores {tool}
    (gdb_readmem_callback :
       Z -> option (list byte) -> Z -> Z -> tool ->
       (Z * option (list byte)) * tool)
    (object1 object2 : target_object) (annex1 annex2 : option string)
    (readbuf writebuf1 writebuf2 : option (list byte))
    (offset len xfered_len : Z) (w : world tool) :
  memory_kind object1 ->
  memory_kind object2 ->
  xfer_partial gdb_readmem_callback object1 annex1 readbuf writebuf1 offset
               len xfered_len w
  = xfer_partial gdb_readmem_callback object2 annex2 readbuf writebuf1 offset
                 len xfered_len w
  /\ (is_Some readbuf ->
      xfer_partial gdb_readmem_callback object1 annex1 readbuf writebuf1
                   offset len xfered_len w
      = xfer_partial gdb_readmem_callback object2 annex2 readbuf writebuf2
                     offset len xfered_len w).
Proof.
  intros H1 H2. unfold xfer_partial.
  rewrite (memory_kind_test _ H1), (memory_kind_test _ H2).
  split; [done|]. by intros [b ->].
Qed.

Lemma xfer_partial_ignores_witness :
  (memory_kind TARGET_OBJECT_STACK_MEMORY /\ memory_kind TARGET_OBJECT_CODE_MEMORY)
  /\ xfer_partial (Demo.readmem 1) TARGET_OBJECT_STACK_MEMORY None (Some [])
       None 4096 8 0 Demo.w0
     = xfer_partial (Demo.readmem 1) TARGET_OBJECT_CODE_MEMORY (Some "x")
         (Some []) None 4096 8 0 Demo.w0.
Proof.
  assert (H1 : memory_kind TARGET_OBJECT_STACK_MEMORY) by (right; by left).
  assert (H2 : memory_kind TARGET_OBJECT_CODE_MEMORY) by (right; by right).
  split; [by split|].
  by destruct (xfer_partial_ignores (Demo.readmem 1)
                 TARGET_OBJECT_STACK_MEMORY TARGET_OBJECT_CODE_MEMORY None
                 (Some "x") (Some []) None None 4096 8 0 Demo.w0 H1 H2)
    as [H _].
Defined.

(** X7.  Whatever the request and whatever the primitive answers,
    [xfer_partial] returns, with status OK or E_IO and no other; it calls
    the primitive at most once, with the write flag 0 when a read buffer
    is given and 1 otherwise; it leaves gdb's threads and register caches
    alone; when the status is not OK, [*xfered_len] is as before the
    call; and without a read buffer none is produced. *)
Theorem xfer_partial_footprint {tool}
    (gdb_readmem_callback :
       Z -> option (list byte) -> Z -> Z -> tool ->
       (Z * option (list byte)) * tool)
    (object : target_object) (annex : option string)
    (readbuf writebuf : option (list byte)) (offset len xfered_len : Z)
    (w : world tool) :
  let xfer := xfer_partial gdb_readmem_callback object annex readbuf
                           writebuf offset len xfered_len in
  exists r,
    result xfer w = Normal r
    /\ (xfer_status r = TARGET_XFER_OK \/ xfer_status r = TARGET_XFER_E_IO)
    /\ (xfer_status r <> TARGET_XFER_OK -> xfer_xfered_len r = xfered_len)
    /\ (xfer_status r = TARGET_XFER_OK -> xfer_xfered_len r = len)
    /\ (readbuf = None -> xfer_readbuf r = None)
    /\ (new_events w (exec xfer w) = []
        \/ exists rc,
             new_events w (exec xfer w)
             = [EvReadmem offset (to_int len)
                  (if readbuf is Some _ then 0 else 1) rc])
    /\ thread_list (exec xfer w) = thread_list w
    /\ inferior_ptid (exec xfer w) = inferior_ptid w
    /\ regcaches (exec xfer w) = regcaches w
    /\ prev_task (exec xfer w) = prev_task w.
Proof.
  intros xfer.
  destruct (decide (memory_kind object)) as [Hk|Hk].
  - destruct (gdb_readmem_callback offset
                (if readbuf is Some _ then readbuf else writebuf) (to_int len)
                (if readbuf is Some _ then 0 else 1) (crash w))
      as [[rc buf] c] eqn:Hcall.
    pose proof (xfer_partial_forwarded gdb_readmem_callback object annex
                  readbuf writebuf offset len xfered_len w rc buf c Hk Hcall)
      as E.
    fold xfer in E. unfold result, exec, new_events. rewrite E.
    cbn [fst snd trace thread_list inferior_ptid regcaches prev_task].
    eexists. split; [done|]. cbn.
    rewrite drop_app_length.
    destruct (rc =? 0); cbn; split_and!; try done; eauto; by intros ->.
  - assert (E : xfer w
                = (Normal (mk_xfer TARGET_XFER_E_IO readbuf xfered_len), w)).
    { unfold xfer, xfer_partial. by rewrite (not_memory_kind_test _ Hk). }
    unfold result, exec, new_events. rewrite E. cbn [fst snd].
    eexists. split; [done|]. cbn. rewrite drop_all.
    split_and!; try done; eauto.
Qed.

(** ** Thread names *)

Lemma string_app_prefix_inj (s a b : string) : s +:+ a = s +:+ b -> a = b.
Proof.
  induction s as [|ch s IH]; [done|]. cbn. intros H. injection H as H.
  by apply IH.
Qed.

(** X8.  Per-CPU variant: the name of a thread is "CPU " followed by the
    decimal CPU index of its identifier, so two threads have the same
    name exactly when they are on the same CPU index; pid and lwp play no
    part. *)
Theorem percpu_pid_to_str_names_the_cpu (p q : ptid_t) :
  (PerCpu.pid_to_str p = PerCpu.pid_to_str q <-> ptid_tid p = ptid_tid q)
  /\ PerCpu.pid_to_str p = "CPU " +:+ pretty (ptid_tid p)
  /\ PerCpu.pid_to_str (mk_ptid CRASH_INFERIOR_PID 0 12) = "CPU 12".
Proof.
  split_and!; [split| |]; try done.
  - unfold PerCpu.pid_to_str, printf_ld. intros H.
    apply string_app_prefix_inj in H. by apply (inj pretty) in H.
  - unfold PerCpu.pid_to_str. by intros ->.
Qed.

Lemma to_long_small (z : Z) : 0 <= z < 2 ^ 63 -> to_long z = z.
Proof. intros H. unfold to_long. rewrite Z.mod_small by lia. lia. Qed.

Lemma to_long_large (z : Z) :
  2 ^ 63 <= z < 2 ^ 64 -> to_long z = z - 2 ^ 64.
Proof.
  intros H. unfold to_long.
  rewrite <- (Z.mod_add _ (-1)) by lia. rewrite Z.mod_small by lia. lia.
Qed.

(** X9.  Per-task variant: the name of a thread is the pid and the command
    name of the task crash has selected, whatever thread is asked about;
    asking only calls [crash_get_current_task_info]: gdb's state and the
    trace are untouched, so no register is fetched.  The pid, an
    [unsigned long], is printed with [%ld]: in decimal when below 2^63,
    as the negative number [pid - 2^64] from 2^63 on. *)
Theorem pertask_pid_to_str_shows_current_task {tool}
    (crash_get_current_task_info : tool -> (Z * string) * tool)
    (ptid1 ptid2 : ptid_t) (w : world tool) (pid : Z) (comm : string)
    (c : tool) :
  crash_get_current_task_info (crash w) = ((pid, comm), c) ->
  let name := PerTask.pid_to_str crash_get_current_task_info in
  name ptid1 w = name ptid2 w
  /\ exec (name ptid1) w = set_crash w c
  /\ (0 <= pid < 2 ^ 63 ->
      result (name ptid1) w = Normal (pretty pid +:+ " " +:+ comm))
  /\ (2 ^ 63 <= pid < 2 ^ 64 ->
      result (name ptid1) w
      = Normal (pretty (pid - 2 ^ 64) +:+ " " +:+ comm)).
Proof.
  intros Hinfo name.
  assert (E : forall p, name p w
                = (Normal (printf_ld (to_long pid) +:+ " " +:+ comm),
                   set_crash w c)).
  { intros p. unfold name, PerTask.pid_to_str, bind, call.
    by rewrite Hinfo. }
  unfold exec, result. rewrite !E. cbn [fst snd]. split_and!; try done.
  - intros H. by rewrite to_long_small.
  - intros H. by rewrite to_long_large.
Qed.

Lemma pertask_pid_to_str_shows_current_task_witness :
  Demo.task_info (crash Demo.w0) = ((1234, "bash"), 1%nat)
  /\ result (PerTask.pid_to_str Demo.task_info (Demo.cpu_ptid 0)) Demo.w0
     = Normal "1234 bash".
Proof.
  assert (H : Demo.task_info (crash Demo.w0) = ((1234, "bash"), 1%nat))
    by reflexivity.
  split; [exact H|].
  destruct (pertask_pid_to_str_shows_current_task Demo.task_info
              (Demo.cpu_ptid 0) (Demo.cpu_ptid 1) Demo.w0 1234 "bash" 1%nat H)
    as (_ & _ & Hsmall & _).
  rewrite Hsmall; [reflexivity | lia].
Defined.

(** ** Per-CPU variant: which CPU is read, and when the thread is switched *)

Lemma bind_cong_l {tool A B} (m1 m2 : M tool A) (k : A -> M tool B)
    (w : world tool) :
  m1 w = m2 w -> bind m1 k w = bind m2 k w.
Proof. intros E. unfold bind. by rewrite E. Qed.

Lemma fetch_each_ext {tool} arch
    (read1 read2 : Z -> string -> Z -> list byte -> tool -> (Z * list byte) * tool)
    (regcache : ptid_t) :
  (forall r regname regsize val t,
     read1 r regname regsize val t = read2 r regname regsize val t) ->
  forall rs regval (w : world tool),
    fetch_each arch read1 regcache rs regval w
    = fetch_each arch read2 regcache rs regval w.
Proof.
  intros Hext rs. induction rs as [|r rs IH]; intros regval w; [done|].
  assert (Hone : fetch_one arch read1 regcache r regval w
                 = fetch_one arch read2 regcache r regval w).
  { unfold fetch_one.
    destruct (to_size_t (register_size arch r) >? sizeof_regval); [done|].
    apply bind_cong_l. unfold call. by rewrite Hext. }
  cbn [fetch_each]. unfold bind. rewrite Hone.
  destruct (fetch_one arch read2 regcache r regval w) as [[val|msg] w1];
    [apply IH | done].
Qed.

Section PerCpuSwitch.
Context {tool : Type}.
Variable arch : gdbarch.
Variable crash_get_cpu_reg :
  Z -> Z -> string -> Z -> list byte -> tool -> (Z * list byte) * tool.
Variable regval_on_entry : list byte.
Implicit Types (w : world tool) (tp : thread_info).

(** Steps 4 and 5 in terms of the run of the fetch loop: the registers
    are read for the CPU of the thread that is active when the fetch
    starts. *)
Lemma percpu_switch_unfold tp w :
  let run := fetch_each arch
               (crash_get_cpu_reg (to_int (ptid_tid (inferior_ptid w))))
               (ti_ptid tp) (seqZ 0 (gdbarch_num_regs arch))
               regval_on_entry in
  percpu_switch arch crash_get_cpu_reg regval_on_entry tp w
  = match result run w with
    | Normal _ =>
        (Normal TRUE,
         mk_world (crash (exec run w)) (thread_list (exec run w)) (ti_ptid tp)
                  (regcaches (exec run w)) (prev_task (exec run w))
                  (trace (exec run w)
                     ++ [EvSwitchToThread (ti_ptid tp); EvReinitFrameCache]))
    | Thrown msg => (Thrown msg, exec run w)
    end.
Proof.
  intros run.
  unfold percpu_switch, PerCpu.target_fetch_registers, get_thread_regcache.
  unfold bind at 1. rewrite percpu_fetch_registers_run.
  unfold requested_per_cpu. fold run.
  destruct (result run w) as [val|msg]; cbn [forget]; [|done].
  unfold switch_to_thread, reinit_frame_cache, bind, log, ret. cbn.
  by rewrite <- app_assoc.
Qed.

(** A fetch of all registers that fit, spelled out. *)
Lemma fetch_each_complete read_reg (regcache : ptid_t) rs regval w :
  Forall (fits arch) rs ->
  exists (done : list answer) val,
    map answer_reg done = rs
    /\ result (fetch_each arch read_reg regcache rs regval) w = Normal val
    /\ thread_list (exec (fetch_each arch read_reg regcache rs regval) w)
       = thread_list w
    /\ inferior_ptid (exec (fetch_each arch read_reg regcache rs regval) w)
       = inferior_ptid w
    /\ prev_task (exec (fetch_each arch read_reg regcache rs regval) w)
       = prev_task w
    /\ regcaches (exec (fetch_each arch read_reg regcache rs regval) w)
       = foldl (supply_answer arch regcache) (regcaches w) done
    /\ trace (exec (fetch_each arch read_reg regcache rs regval) w)
       = trace w ++ concat (map (answer_events arch regcache) done).
Proof.
  intros Hfits.
  destruct (fetch_each_run arch read_reg regcache rs regval w)
    as (done & rest & Hrs & Ht & Hi & Hp & Hc & Htr & _ & Hres).
  destruct (fetch_each_returns arch read_reg regcache rs regval w Hfits)
    as [val Hval].
  rewrite Hval in Hres. subst rest. rewrite app_nil_r in Hrs.
  exists done, val. by split_and!.
Qed.
End PerCpuSwitch.

Lemma count_answer_events (p : event -> bool) arch regcache
    (done : list answer) :
  (forall r regsize rc val, p (EvGetReg r regsize rc val) = false) ->
  (forall c r, p (EvRawSupply c r) = false) ->
  count p (concat (map (answer_events arch regcache) done)) = 0%nat.
Proof.
  intros Hg Hs. induction done as [|a done IH]; [done|].
  cbn [map concat]. rewrite count_app, IH.
  unfold answer_events, count. cbn. by rewrite Hg, Hs.
Qed.

Section PerCpuSwitchFacts.
Context {tool : Type}.
Variable arch : gdbarch.
Variable crash_get_cpu_reg :
  Z -> Z -> string -> Z -> list byte -> tool -> (Z * list byte) * tool.
Variable regval_on_entry : list byte.
Implicit Types (w : world tool) (tp : thread_info).

Local Abbreviation switch tp :=
  (percpu_switch arch crash_get_cpu_reg regval_on_entry tp).

(** Steps 4 and 5 either go through (fetch, switch, invalidate, TRUE) or
    stop at the width diagnostic of the fetch, before the switch. *)
Lemma percpu_switch_facts tp w :
  prev_task (exec (switch tp) w) = prev_task w
  /\ thread_list (exec (switch tp) w) = thread_list w
  /\ (forall c, c <> ti_ptid tp ->
        regcaches (exec (switch tp) w) !! c = regcaches w !! c)
  /\ count is_registers_changed (trace (exec (switch tp) w))
     = count is_registers_changed (trace w)
  /\ ((result (switch tp) w = Normal TRUE
       /\ inferior_ptid (exec (switch tp) w) = ti_ptid tp
       /\ count is_switch_to_thread (trace (exec (switch tp) w))
          = S (count is_switch_to_thread (trace w))
       /\ count is_reinit_frame_cache (trace (exec (switch tp) w))
          = S (count is_reinit_frame_cache (trace w)))
      \/ (result (switch tp) w = Thrown buffer_too_small
          /\ inferior_ptid (exec (switch tp) w) = inferior_ptid w
          /\ count is_switch_to_thread (trace (exec (switch tp) w))
             = count is_switch_to_thread (trace w)
          /\ count is_reinit_frame_cache (trace (exec (switch tp) w))
             = count is_reinit_frame_cache (trace w))).
Proof.
  pose proof (percpu_switch_unfold arch crash_get_cpu_reg regval_on_entry
                tp w) as E.
  cbv zeta in E.
  set (read := crash_get_cpu_reg (to_int (ptid_tid (inferior_ptid w)))) in E.
  set (rs := seqZ 0 (gdbarch_num_regs arch)) in E.
  destruct (fetch_each_run arch read (ti_ptid tp) rs regval_on_entry w)
    as (done & rest & _ & Ht & Hi & Hp & Hc & Htr & _ & Hres).
  assert (Hcount : forall p,
    (forall r regsize rc val, p (EvGetReg r regsize rc val) = false) ->
    (forall c r, p (EvRawSupply c r) = false) ->
    count p (trace (exec (fetch_each arch read (ti_ptid tp) rs
                            regval_on_entry) w)) = count p (trace w)).
  { intros p Hg Hs. rewrite Htr, count_app, count_answer_events by done.
    lia. }
  unfold exec at 1 2 3 4 5 6 7 8 9 10, result at 1 2. rewrite E. clear E.
  destruct (result (fetch_each arch read (ti_ptid tp) rs regval_on_entry) w)
    as [val|msg];
    cbn [fst snd prev_task thread_list regcaches trace inferior_ptid].
  - rewrite !count_app, !Hcount by done.
    change (count is_registers_changed
              [EvSwitchToThread (ti_ptid tp); EvReinitFrameCache]) with 0%nat.
    change (count is_switch_to_thread
              [EvSwitchToThread (ti_ptid tp); EvReinitFrameCache]) with 1%nat.
    change (count is_reinit_frame_cache
              [EvSwitchToThread (ti_ptid tp); EvReinitFrameCache]) with 1%nat.
    split_and!; try done.
    + intros c Hne. rewrite Hc. by apply supply_fold_other.
    + left. split_and!; try done; lia.
  - destruct Hres as [-> _]. rewrite !Hcount by done.
    split_and!; try done.
    + intros c Hne. rewrite Hc. by apply supply_fold_other.
    + by right.
Qed.
End PerCpuSwitchFacts.

(** X10.  Per-CPU variant, every notification in every state: it reports
    success, reports failure, or aborts with the width diagnostic of the
    register fetch, and nothing else.  When it reports success the thread
    of the resolved CPU is active and there was exactly one switch and
    one frame-cache invalidation.  When it does not, the active thread is
    the one that was active and there was neither a switch nor a
    frame-cache invalidation; when it reports failure no register cache
    changed.  In every case the register caches of threads other than
    the one of the resolved CPU are untouched, no cache is dropped
    ([registers_changed] is never called), and the marker field is left
    alone. *)
Theorem percpu_notification_outcomes {tool}
    (arch : gdbarch)
    (crash_get_cpu_reg :
       Z -> Z -> string -> Z -> list byte -> tool -> (Z * list byte) * tool)
    (crash_set_thread : Z -> tool -> Z * tool)
    (new_thread_ok : list thread_info -> ptid_t -> bool)
    (regval_on_entry : list byte) (task : Z) (w : world tool) :
  let notify := PerCpu.gdb_change_thread_context arch crash_get_cpu_reg
                  crash_set_thread new_thread_ok regval_on_entry task in
  let ptid := mk_ptid CRASH_INFERIOR_PID 0 (crash_set_thread task (crash w)).1 in
  let w' := exec notify w in
  (result notify w = Normal TRUE \/ result notify w = Normal FALSE
   \/ result notify w = Thrown buffer_too_small)
  /\ (result notify w = Normal TRUE ->
      inferior_ptid w' = ptid
      /\ count is_switch_to_thread (trace w')
         = S (count is_switch_to_thread (trace w))
      /\ count is_reinit_frame_cache (trace w')
         = S (count is_reinit_frame_cache (trace w)))
  /\ (result notify w <> Normal TRUE ->
      inferior_ptid w' = inferior_ptid w
      /\ count is_switch_to_thread (trace w')
         = count is_switch_to_thread (trace w)
      /\ count is_reinit_frame_cache (trace w')
         = count is_reinit_frame_cache (trace w))
  /\ (result notify w = Normal FALSE -> regcaches w' = regcaches w)
  /\ (forall c, c <> ptid -> regcaches w' !! c = regcaches w !! c)
  /\ count is_registers_changed (trace w')
     = count is_registers_changed (trace w)
  /\ prev_task w' = prev_task w.
Proof.
  intros notify ptid w'.
  destruct (crash_set_thread task (crash w)) as [cpu c] eqn:Hset.
  cbn [fst] in ptid.
  (* the notification goes on to steps 4 and 5 from a world [w1] that
     differs from [w] by lookups and, possibly, the new record *)
  assert (Hgo : forall (w1 : world tool),
    inferior_ptid w1 = inferior_ptid w ->
    prev_task w1 = prev_task w ->
    regcaches w1 = regcaches w ->
    count is_switch_to_thread (trace w1) = count is_switch_to_thread (trace w) ->
    count is_reinit_frame_cache (trace w1)
      = count is_reinit_frame_cache (trace w) ->
    count is_registers_changed (trace w1)
      = count is_registers_changed (trace w) ->
    notify w
    = percpu_switch arch crash_get_cpu_reg regval_on_entry (mk_thread ptid) w1 ->
    (result notify w = Normal TRUE \/ result notify w = Normal FALSE
     \/ result notify w = Thrown buffer_too_small)
    /\ (result notify w = Normal TRUE ->
        inferior_ptid w' = ptid
        /\ count is_switch_to_thread (trace w')
           = S (count is_switch_to_thread (trace w))
        /\ count is_reinit_frame_cache (trace w')
           = S (count is_reinit_frame_cache (trace w)))
    /\ (result notify w <> Normal TRUE ->
        inferior_ptid w' = inferior_ptid w
        /\ count is_switch_to_thread (trace w')
           = count is_switch_to_thread (trace w)
        /\ count is_reinit_frame_cache (trace w')
           = count is_reinit_frame_cache (trace w))
    /\ (result notify w = Normal FALSE -> regcaches w' = regcaches w)
    /\ (forall c, c <> ptid -> regcaches w' !! c = regcaches w !! c)
    /\ count is_registers_changed (trace w')
       = count is_registers_changed (trace w)
    /\ prev_task w' = prev_task w).
  { intros w1 Hi Hp Hc Hs Hr Hrc E.
    destruct (percpu_switch_facts arch crash_get_cpu_reg regval_on_entry
                (mk_thread ptid) w1) as (Hp1 & _ & Hother & Hrc1 & Hcases).
    unfold w', result, exec in *. rewrite E.
    rewrite Hp1, Hrc1, Hp, Hrc.
    assert (Hoth : forall c0, c0 <> ptid ->
              regcaches (percpu_switch arch crash_get_cpu_reg regval_on_entry
                           (mk_thread ptid) w1).2 !! c0 = regcaches w !! c0).
    { intros c0 Hne. rewrite <- Hc. by apply Hother. }
    destruct Hcases as [(Hres & Hi1 & Hs1 & Hr1) | (Hres & Hi1 & Hs1 & Hr1)];
      rewrite Hres, Hi1, Hs1, Hr1, ?Hi, ?Hs, ?Hr.
    - split_and!; try done. by left.
    - split_and!; try done. by right; right. }
  destruct (Z.lt_ge_cases cpu 0) as [Hneg|Hpos].
  { unfold w', result, exec, notify.
    rewrite (notify_unresolved arch crash_get_cpu_reg crash_set_thread
               new_thread_ok regval_on_entry task w cpu c Hset Hneg).
    cbn [fst snd resolved inferior_ptid regcaches prev_task trace].
    rewrite !count_app.
    split_and!; try done; try (cbn; lia). by right; left. }
  destruct (decide (ptid ∈ thread_ptids w)) as [Hin|Hnotin].
  { eapply Hgo;
      [| | | | | |
       apply (notify_found arch crash_get_cpu_reg crash_set_thread
                new_thread_ok regval_on_entry task w cpu c Hset Hpos Hin)];
      try done; cbn [set_trace trace]; rewrite count_app; cbn; lia. }
  destruct (new_thread_ok (thread_list w) ptid) eqn:Hok.
  - eapply Hgo;
      [| | | | | |
       apply (notify_creation_succeeds arch crash_get_cpu_reg crash_set_thread
                new_thread_ok regval_on_entry task w cpu c Hset Hpos Hnotin
                Hok)];
      try done; cbn [trace]; rewrite count_app; cbn; lia.
  - unfold w', result, exec, notify.
    rewrite (notify_creation_fails arch crash_get_cpu_reg crash_set_thread
               new_thread_ok regval_on_entry task w cpu c Hset Hpos Hnotin Hok).
    cbn [fst snd set_trace resolved inferior_ptid regcaches prev_task trace].
    rewrite !count_app.
    split_and!; try done; try (cbn; lia). by right; left.
Qed.

Lemma supply_fold_populates arch (regcache : ptid_t) (done : list answer)
    (m : gmap ptid_t (gmap Z cached_reg)) (r : Z) :
  NoDup (map answer_reg done) ->
  r ∈ map answer_reg done ->
  exists rc val,
    default ∅ (foldl (supply_answer arch regcache) m done !! regcache) !! r
    = Some (supplied arch r rc val).
Proof.
  intros Hnd Hr. apply list_elem_of_fmap in Hr as (a & -> & Ha).
  exists a.1.2, a.2. by apply supply_fold_in.
Qed.

(** X11.  Per-CPU variant: there is no de-duplication.  A notification
    resolving to a CPU that has a thread record, when all registers fit,
    reports success after a lookup, a fetch of all registers 0..N-1 in
    order into that thread's cache, a switch to that thread and a
    frame-cache invalidation, once each, and it creates nothing.  This
    is so whichever thread is active, the thread of that very CPU
    included: repeating a notification repeats the fetch and the
    invalidation. *)
Theorem percpu_notification_never_deduplicated {tool}
    (arch : gdbarch)
    (crash_get_cpu_reg :
       Z -> Z -> string -> Z -> list byte -> tool -> (Z * list byte) * tool)
    (crash_set_thread : Z -> tool -> Z * tool)
    (new_thread_ok : list thread_info -> ptid_t -> bool)
    (regval_on_entry : list byte)
    (task : Z) (w : world tool) (cpu : Z) (c : tool) :
  let ptid := mk_ptid CRASH_INFERIOR_PID 0 cpu in
  let notify := PerCpu.gdb_change_thread_context arch crash_get_cpu_reg
                  crash_set_thread new_thread_ok regval_on_entry task in
  crash_set_thread task (crash w) = (cpu, c) ->
  0 <= cpu ->
  ptid ∈ thread_ptids w ->
  Forall (fits arch) (seqZ 0 (gdbarch_num_regs arch)) ->
  let w' := exec notify w in
  result notify w = Normal TRUE
  /\ inferior_ptid w' = ptid
  /\ thread_list w' = thread_list w
  /\ omap get_reg_number (new_events w w') = seqZ 0 (gdbarch_num_regs arch)
  /\ omap raw_supply_number (new_events w w') = seqZ 0 (gdbarch_num_regs arch)
  /\ List.filter (fun e => negb (is_get_reg e || is_raw_supply e))
                 (new_events w w')
     = [EvSetThread task cpu; EvFindThread ptid true; EvSwitchToThread ptid;
        EvReinitFrameCache]
  /\ (forall r, 0 <= r < gdbarch_num_regs arch ->
        exists rc val, regs_of w' ptid !! r = Some (supplied arch r rc val)).
Proof.
  intros ptid notify Hset Hcpu Hin Hfits w'.
  pose proof (notify_found arch crash_get_cpu_reg crash_set_thread
                new_thread_ok regval_on_entry task w cpu c Hset Hcpu Hin) as E.
  fold ptid in E. fold notify in E.
  set (w1 := set_trace (resolved w task cpu c)
               (trace w ++ [EvSetThread task cpu; EvFindThread ptid true]))
    in E.
  rewrite percpu_switch_unfold in E. cbv zeta in E.
  set (read := crash_get_cpu_reg (to_int (ptid_tid (inferior_ptid w1)))) in E.
  destruct (fetch_each_complete arch read ptid
              (seqZ 0 (gdbarch_num_regs arch)) regval_on_entry w1 Hfits)
    as (done & val & Hdone & Hres & Ht & _ & _ & Hc & Htr).
  cbn [ti_ptid] in E. rewrite Hres in E.
  destruct (answer_events_numbers arch ptid done) as (Hg & Hs & Hall).
  unfold w', result, exec, new_events, regs_of. rewrite E.
  cbn [fst snd inferior_ptid thread_list trace regcaches].
  rewrite Htr, Ht, Hc. unfold w1. cbn [set_trace trace thread_list regcaches
                                         resolved].
  rewrite <- !app_assoc, drop_app_length.
  rewrite !omap_app, !List.filter_app, Hg, Hs, Hdone.
  assert (Hnone : List.filter
                    (fun e => negb (is_get_reg e || is_raw_supply e))
                    (concat (map (answer_events arch ptid) done)) = []).
  { clear -Hall. induction Hall as [|e l He _ IH]; [done|].
    cbn. by rewrite He, IH. }
  rewrite Hnone. cbn [omap list_omap get_reg_number raw_supply_number app].
  rewrite !app_nil_r.
  split_and!; try done.
  intros r Hr. apply supply_fold_populates.
  - rewrite Hdone. apply NoDup_seqZ.
  - rewrite Hdone. apply elem_of_seqZ. lia.
Qed.

Lemma percpu_notification_never_deduplicated_witness :
  let w := Demo.w_cpus [0; 1] in
  let notify := PerCpu.gdb_change_thread_context (Demo.arch_of [8; 4])
                  (Demo.read_cpu_reg (fun _ => true)) Demo.set_thread
                  Demo.always Demo.zeroes 100 in
  (Demo.set_thread 100 (crash w) = (0, 1%nat)
   /\ 0 <= 0
   /\ Demo.cpu_ptid 0 ∈ thread_ptids w
   /\ inferior_ptid w = Demo.cpu_ptid 0
   /\ Forall (fits (Demo.arch_of [8; 4])) [0; 1])
  /\ result notify w = Normal TRUE
  /\ omap get_reg_number (new_events w (exec notify w)) = [0; 1].
Proof.
  intros w notify.
  assert (Hset : Demo.set_thread 100 (crash w) = (0, 1%nat)) by reflexivity.
  assert (Hcpu : 0 <= 0) by lia.
  assert (Hin : Demo.cpu_ptid 0 ∈ thread_ptids w) by (by left).
  assert (Hfits : Forall (fits (Demo.arch_of [8; 4])) [0; 1]).
  { repeat apply Forall_cons_2; try apply Forall_nil_2;
      unfold fits, sizeof_regval; vm_compute; by split. }
  split; [by split_and!|].
  destruct (percpu_notification_never_deduplicated (Demo.arch_of [8; 4])
              (Demo.read_cpu_reg (fun _ => true)) Demo.set_thread
              Demo.always Demo.zeroes 100 w 0 1%nat Hset Hcpu Hin Hfits)
    as (Hres & _ & _ & Hreads & _).
  by split.
Defined.

Lemma percpu_switch_ext {tool} arch
    (read1 read2 :
       Z -> Z -> string -> Z -> list byte -> tool -> (Z * list byte) * tool)
    (regval_on_entry : list byte) (tp : thread_info) (w : world tool) :
  (forall r regname regsize val t,
     read1 (to_int (ptid_tid (inferior_ptid w))) r regname regsize val t
     = read2 (to_int (ptid_tid (inferior_ptid w))) r regname regsize val t) ->
  percpu_switch arch read1 regval_on_entry tp w
  = percpu_switch arch read2 regval_on_entry tp w.
Proof.
  intros Hext. rewrite !percpu_switch_unfold. cbv zeta.
  unfold result, exec.
  by rewrite (fetch_each_ext arch _ _ (ti_ptid tp) Hext).
Qed.

(** X12.  Per-CPU variant: a notification fetches the registers before it
    switches the thread, and the fetch reads for the CPU of the active
    thread.  So the read primitive is only ever asked about the CPU of
    the thread that was active when the notification arrived, not about
    the CPU it resolves to: two primitives that agree on that one CPU
    give the same result and the same world, whatever they would answer
    for any other CPU. *)
Theorem percpu_notification_reads_active_cpu {tool}
    (arch : gdbarch)
    (read1 read2 :
       Z -> Z -> string -> Z -> list byte -> tool -> (Z * list byte) * tool)
    (crash_set_thread : Z -> tool -> Z * tool)
    (new_thread_ok : list thread_info -> ptid_t -> bool)
    (regval_on_entry : list byte) (task : Z) (w : world tool) :
  (forall r regname regsize val t,
     read1 (to_int (ptid_tid (inferior_ptid w))) r regname regsize val t
     = read2 (to_int (ptid_tid (inferior_ptid w))) r regname regsize val t) ->
  PerCpu.gdb_change_thread_context arch read1 crash_set_thread new_thread_ok
    regval_on_entry task w
  = PerCpu.gdb_change_thread_context arch read2 crash_set_thread new_thread_ok
      regval_on_entry task w.
Proof.
  intros Hext.
  destruct (crash_set_thread task (crash w)) as [cpu c] eqn:Hset.
  destruct (Z.lt_ge_cases cpu 0) as [Hneg|Hpos].
  { by rewrite !(notify_unresolved _ _ _ _ _ _ _ _ _ Hset Hneg). }
  set (ptid := mk_ptid CRASH_INFERIOR_PID 0 cpu).
  destruct (decide (ptid ∈ thread_ptids w)) as [Hin|Hnotin].
  { rewrite !(notify_found _ _ _ _ _ _ _ _ _ Hset Hpos Hin).
    by apply percpu_switch_ext. }
  destruct (new_thread_ok (thread_list w) ptid) eqn:Hok.
  - rewrite !(notify_creation_succeeds _ _ _ _ _ _ _ _ _ Hset Hpos Hnotin Hok).
    by apply percpu_switch_ext.
  - by rewrite !(notify_creation_fails _ _ _ _ _ _ _ _ _ Hset Hpos Hnotin Hok).
Qed.

Lemma percpu_notification_reads_active_cpu_witness :
  let w := Demo.w_cpus [0; 1] in
  let read1 (cpu : Z) := Demo.read_reg (fun _ => true) in
  let read2 (cpu : Z) := Demo.read_reg (fun _ => cpu =? 0) in
  (forall r regname regsize val t,
     read1 (to_int (ptid_tid (inferior_ptid w))) r regname regsize val t
     = read2 (to_int (ptid_tid (inferior_ptid w))) r regname regsize val t)
  /\ PerCpu.gdb_change_thread_context (Demo.arch_of [8]) read1
       Demo.set_thread Demo.always Demo.zeroes 101 w
     = PerCpu.gdb_change_thread_context (Demo.arch_of [8]) read2
         Demo.set_thread Demo.always Demo.zeroes 101 w.
Proof.
  intros w read1 read2.
  assert (Hext : forall r regname regsize val t,
     read1 (to_int (ptid_tid (inferior_ptid w))) r regname regsize val t
     = read2 (to_int (ptid_tid (inferior_ptid w))) r regname regsize val t)
    by reflexivity.
  split; [exact Hext|].
  exact (percpu_notification_reads_active_cpu (Demo.arch_of [8]) read1 read2
           Demo.set_thread Demo.always Demo.zeroes 101 w Hext).
Defined.

(** ** Per-CPU variant: [gdb_refresh_regcache] *)

Section RefreshFacts.
Context {tool : Type}.
Variable arch : gdbarch.
Variable crash_get_cpu_reg :
  Z -> Z -> string -> Z -> list byte -> tool -> (Z * list byte) * tool.
Variable regval_on_entry : list byte.
Variable set_cpu : Z -> Z -> tool -> Z * tool.
Implicit Types (w : world tool) (cpu : Z).

Local Abbreviation refresh :=
  (PerCpu.gdb_refresh_regcache arch crash_get_cpu_reg regval_on_entry set_cpu).

Lemma inferior_thread_run w :
  inferior_ptid w ∈ thread_ptids w ->
  inferior_thread w = (Normal (mk_thread (inferior_ptid w)), w).
Proof.
  intros Hin. unfold inferior_thread, bind, get.
  by rewrite (find_thread_some _ _ Hin).
Qed.

(** No thread record for [cpu]: the lookup, the warning, and that is
    all. *)
Lemma refresh_missing cpu w :
  let ptid := mk_ptid CRASH_INFERIOR_PID 0 cpu in
  inferior_ptid w ∈ thread_ptids w ->
  ptid ∉ thread_ptids w ->
  refresh cpu w
  = (Normal tt, set_trace w (trace w ++ [EvFindThread ptid false])).
Proof.
  intros ptid Hactive Hnotin. unfold PerCpu.gdb_refresh_regcache.
  rewrite (bind_run _ _ _ _ _ (inferior_thread_run w Hactive)).
  unfold find_thread_ptid, bind, get, log, ret. cbn.
  fold ptid. by rewrite (find_thread_none _ _ Hnotin).
Qed.

(** A thread record for [cpu]: [set_cpu (cpu)], the fetch, and, if the
    fetch returns, [set_cpu (saved_cpu)]. *)
Lemma refresh_found cpu w :
  let ptid := mk_ptid CRASH_INFERIOR_PID 0 cpu in
  let saved_cpu := to_int (ptid_tid (inferior_ptid w)) in
  let w2 := mk_world (set_cpu (to_int cpu) FALSE (crash w)).2 (thread_list w)
              (inferior_ptid w) (regcaches w) (prev_task w)
              (trace w ++ [EvFindThread ptid true]) in
  let run := fetch_each arch (crash_get_cpu_reg saved_cpu) ptid
               (seqZ 0 (gdbarch_num_regs arch)) regval_on_entry in
  inferior_ptid w ∈ thread_ptids w ->
  ptid ∈ thread_ptids w ->
  refresh cpu w
  = match result run w2 with
    | Normal _ =>
        (Normal tt,
         set_crash (exec run w2)
                   (set_cpu saved_cpu FALSE (crash (exec run w2))).2)
    | Thrown msg => (Thrown msg, exec run w2)
    end.
Proof.
  intros ptid saved_cpu w2 run Hactive Hin.
  unfold PerCpu.gdb_refresh_regcache.
  rewrite (bind_run _ _ _ _ _ (inferior_thread_run w Hactive)).
  assert (Hfind : find_thread_ptid ptid w
                  = (Normal (Some (mk_thread ptid)),
                     set_trace w (trace w ++ [EvFindThread ptid true]))).
  { unfold find_thread_ptid, bind, get, log, ret. cbn.
    by rewrite (find_thread_some _ _ Hin). }
  fold ptid. rewrite (bind_run _ _ _ _ _ Hfind).
  assert (Hset : call (set_cpu (to_int cpu) FALSE)
                   (set_trace w (trace w ++ [EvFindThread ptid true]))
                 = (Normal (set_cpu (to_int cpu) FALSE (crash w)).1, w2)).
  { unfold call. cbn [set_trace crash].
    by destruct (set_cpu (to_int cpu) FALSE (crash w)). }
  rewrite (bind_run _ _ _ _ _ Hset).
  unfold PerCpu.target_fetch_registers, get_thread_regcache. cbn [ti_ptid].
  unfold bind at 1. rewrite percpu_fetch_registers_run.
  unfold requested_per_cpu. cbn [inferior_ptid w2]. fold saved_cpu. fold run.
  destruct (result run w2) as [val|msg]; cbn [forget]; [|done].
  unfold bind, call, ret. cbn [ti_ptid]. fold saved_cpu.
  by destruct (set_cpu saved_cpu FALSE (crash (exec run w2))).
Qed.
End RefreshFacts.

(** X13.  [gdb_refresh_regcache (cpu)] for a CPU that has no thread record
    (the active thread having one) only looks the record up and warns: it
    returns, creates no record (unlike a context-change notification),
    does not call [set_cpu] or any other primitive of crash, reads no
    register, and leaves the threads, the active thread and all register
    caches as they were. *)
Theorem refresh_without_thread_does_nothing {tool}
    (arch : gdbarch)
    (crash_get_cpu_reg :
       Z -> Z -> string -> Z -> list byte -> tool -> (Z * list byte) * tool)
    (regval_on_entry : list byte)
    (set_cpu : Z -> Z -> tool -> Z * tool) (cpu : Z) (w : world tool) :
  let ptid := mk_ptid CRASH_INFERIOR_PID 0 cpu in
  let refresh := PerCpu.gdb_refresh_regcache arch crash_get_cpu_reg
                   regval_on_entry set_cpu cpu in
  inferior_ptid w ∈ thread_ptids w ->
  ptid ∉ thread_ptids w ->
  result refresh w = Normal tt
  /\ new_events w (exec refresh w) = [EvFindThread ptid false]
  /\ crash (exec refresh w) = crash w
  /\ thread_list (exec refresh w) = thread_list w
  /\ inferior_ptid (exec refresh w) = inferior_ptid w
  /\ regcaches (exec refresh w) = regcaches w.
Proof.
  intros ptid refresh Hactive Hnotin.
  unfold result, exec, new_events, refresh.
  rewrite (refresh_missing arch crash_get_cpu_reg regval_on_entry set_cpu cpu
             w Hactive Hnotin).
  cbn [fst snd set_trace trace crash thread_list inferior_ptid regcaches].
  by rewrite drop_app_length.
Qed.

Lemma refresh_without_thread_does_nothing_witness :
  let w := Demo.w_cpus [0; 1] in
  let refresh := PerCpu.gdb_refresh_regcache (Demo.arch_of [8])
                   (Demo.read_cpu_reg (fun _ => true)) Demo.zeroes
                   Demo.set_cpu 5 in
  (inferior_ptid w ∈ thread_ptids w /\ Demo.cpu_ptid 5 ∉ thread_ptids w)
  /\ result refresh w = Normal tt
  /\ crash (exec refresh w) = crash w.
Proof.
  intros w refresh.
  assert (Hactive : inferior_ptid w ∈ thread_ptids w) by (by left).
  assert (Hnotin : Demo.cpu_ptid 5 ∉ thread_ptids w).
  { intros Hin. vm_compute in Hin.
    repeat (apply elem_of_cons in Hin as [Hin|Hin]; [discriminate|]).
    by apply elem_of_nil in Hin. }
  split; [by split|].
  destruct (refresh_without_thread_does_nothing (Demo.arch_of [8])
              (Demo.read_cpu_reg (fun _ => true)) Demo.zeroes Demo.set_cpu 5
              w Hactive Hnotin) as (Hres & _ & Hcrash & _).
  by split.
Defined.

(** X14.  [gdb_refresh_regcache (cpu)] for a CPU that has a thread record,
    when all registers fit: it returns after one lookup and a fetch of
    all registers 0..N-1, in order, into the cache of that CPU's thread,
    every one of which is populated; it switches no thread, invalidates
    no frame cache and creates no record, so the thread list, the active
    thread and the other threads' caches are as before; and its last
    call to crash is [set_cpu (saved_cpu, FALSE)] with the CPU of the
    active thread. *)
Theorem refresh_fills_cache_and_restores_cpu {tool}
    (arch : gdbarch)
    (crash_get_cpu_reg :
       Z -> Z -> string -> Z -> list byte -> tool -> (Z * list byte) * tool)
    (regval_on_entry : list byte)
    (set_cpu : Z -> Z -> tool -> Z * tool) (cpu : Z) (w : world tool) :
  let ptid := mk_ptid CRASH_INFERIOR_PID 0 cpu in
  let saved_cpu := to_int (ptid_tid (inferior_ptid w)) in
  let refresh := PerCpu.gdb_refresh_regcache arch crash_get_cpu_reg
                   regval_on_entry set_cpu cpu in
  inferior_ptid w ∈ thread_ptids w ->
  ptid ∈ thread_ptids w ->
  Forall (fits arch) (seqZ 0 (gdbarch_num_regs arch)) ->
  let w' := exec refresh w in
  result refresh w = Normal tt
  /\ omap get_reg_number (new_events w w') = seqZ 0 (gdbarch_num_regs arch)
  /\ List.filter (fun e => negb (is_get_reg e || is_raw_supply e))
                 (new_events w w') = [EvFindThread ptid true]
  /\ (forall r, 0 <= r < gdbarch_num_regs arch ->
        exists rc val, regs_of w' ptid !! r = Some (supplied arch r rc val))
  /\ (forall c, c <> ptid -> regcaches w' !! c = regcaches w !! c)
  /\ thread_list w' = thread_list w
  /\ inferior_ptid w' = inferior_ptid w
  /\ exists c, crash w' = (set_cpu saved_cpu FALSE c).2.
Proof.
  intros ptid saved_cpu refresh Hactive Hin Hfits w'.
  pose proof (refresh_found arch crash_get_cpu_reg regval_on_entry set_cpu
                cpu w Hactive Hin) as E.
  cbv zeta in E. fold ptid saved_cpu refresh in E.
  set (w2 := mk_world (set_cpu (to_int cpu) FALSE (crash w)).2 (thread_list w)
               (inferior_ptid w) (regcaches w) (prev_task w)
               (trace w ++ [EvFindThread ptid true])) in E.
  destruct (fetch_each_complete arch (crash_get_cpu_reg saved_cpu) ptid
              (seqZ 0 (gdbarch_num_regs arch)) regval_on_entry w2 Hfits)
    as (done & val & Hdone & Hres & Ht & Hi & _ & Hc & Htr).
  rewrite Hres in E.
  destruct (answer_events_numbers arch ptid done) as (Hg & Hs & Hall).
  unfold w', result, exec, new_events, regs_of. rewrite E.
  cbn [fst snd set_crash crash inferior_ptid thread_list trace regcaches].
  rewrite Htr, Ht, Hi, Hc. unfold w2.
  cbn [trace thread_list regcaches inferior_ptid].
  rewrite <- !app_assoc, drop_app_length.
  rewrite !omap_app, !List.filter_app, Hg, Hdone.
  assert (Hnone : List.filter
                    (fun e => negb (is_get_reg e || is_raw_supply e))
                    (concat (map (answer_events arch ptid) done)) = []).
  { clear -Hall. induction Hall as [|e l He _ IH]; [done|].
    cbn. by rewrite He, IH. }
  rewrite Hnone. cbn [omap list_omap get_reg_number app].
  split_and!; try done.
  - intros r Hr. apply supply_fold_populates.
    + rewrite Hdone. apply NoDup_seqZ.
    + rewrite Hdone. apply elem_of_seqZ. lia.
  - intros c Hne. by apply supply_fold_other.
  - eauto.
Qed.

Lemma refresh_fills_cache_and_restores_cpu_witness :
  let w := Demo.w_cpus [0; 1] in
  let refresh := PerCpu.gdb_refresh_regcache (Demo.arch_of [8; 4])
                   (Demo.read_cpu_reg (fun _ => true)) Demo.zeroes
                   Demo.set_cpu 1 in
  (inferior_ptid w ∈ thread_ptids w
   /\ Demo.cpu_ptid 1 ∈ thread_ptids w
   /\ Forall (fits (Demo.arch_of [8; 4])) [0; 1])
  /\ result refresh w = Normal tt
  /\ inferior_ptid (exec refresh w) = Demo.cpu_ptid 0
  /\ omap get_reg_number (new_events w (exec refresh w)) = [0; 1].
Proof.
  intros w refresh.
  assert (Hactive : inferior_ptid w ∈ thread_ptids w) by (by left).
  assert (Hin : Demo.cpu_ptid 1 ∈ thread_ptids w) by (right; by left).
  assert (Hfits : Forall (fits (Demo.arch_of [8; 4])) [0; 1]).
  { repeat apply Forall_cons_2; try apply Forall_nil_2;
      unfold fits, sizeof_regval; vm_compute; by split. }
  split; [by split_and!|].
  destruct (refresh_fills_cache_and_restores_cpu (Demo.arch_of [8; 4])
              (Demo.read_cpu_reg (fun _ => true)) Demo.zeroes Demo.set_cpu 1
              w Hactive Hin Hfits)
    as (Hres & Hreads & _ & _ & _ & _ & Hi & _).
  by split_and!.
Defined.

(** X15.  [gdb_refresh_regcache] does not undo its [set_cpu (cpu)] when the
    fetch aborts: if some register is too wide for the buffer (the ones
    before it fitting), the call ends with the width diagnostic in the
    very world the aborted fetch left, [set_cpu (saved_cpu)] not having
    been called; when the first register is the one too wide, crash's
    state is the one [set_cpu (cpu, FALSE)] produced. *)
Theorem refresh_abort_leaves_cpu_switched {tool}
    (arch : gdbarch)
    (crash_get_cpu_reg :
       Z -> Z -> string -> Z -> list byte -> tool -> (Z * list byte) * tool)
    (regval_on_entry : list byte)
    (set_cpu : Z -> Z -> tool -> Z * tool) (cpu : Z) (w : world tool)
    (pre : list Z) (r0 : Z) (post : list Z) :
  let ptid := mk_ptid CRASH_INFERIOR_PID 0 cpu in
  let saved_cpu := to_int (ptid_tid (inferior_ptid w)) in
  let refresh := PerCpu.gdb_refresh_regcache arch crash_get_cpu_reg
                   regval_on_entry set_cpu cpu in
  let w2 := mk_world (set_cpu (to_int cpu) FALSE (crash w)).2 (thread_list w)
              (inferior_ptid w) (regcaches w) (prev_task w)
              (trace w ++ [EvFindThread ptid true]) in
  inferior_ptid w ∈ thread_ptids w ->
  ptid ∈ thread_ptids w ->
  seqZ 0 (gdbarch_num_regs arch) = pre ++ r0 :: post ->
  Forall (fits arch) pre ->
  too_wide arch r0 ->
  result refresh w = Thrown buffer_too_small
  /\ exec refresh w
     = exec (fetch_each arch (crash_get_cpu_reg saved_cpu) ptid
               (seqZ 0 (gdbarch_num_regs arch)) regval_on_entry) w2
  /\ (pre = [] ->
      exec refresh w = w2
      /\ crash (exec refresh w) = (set_cpu (to_int cpu) FALSE (crash w)).2).
Proof.
  intros ptid saved_cpu refresh w2 Hactive Hin Hsplit Hpre Hwide.
  pose proof (refresh_found arch crash_get_cpu_reg regval_on_entry set_cpu
                cpu w Hactive Hin) as E.
  cbv zeta in E. fold ptid saved_cpu refresh w2 in E.
  destruct (fetch_each_aborts arch (crash_get_cpu_reg saved_cpu) ptid pre r0
              post regval_on_entry w2 Hpre Hwide) as (Hres & _).
  rewrite <- Hsplit in Hres. rewrite Hres in E.
  unfold result, exec. rewrite E. cbn [fst snd]. split_and!; try done.
  intros ->. cbn [app] in Hsplit.
  assert (Hw2 : exec (fetch_each arch (crash_get_cpu_reg saved_cpu) ptid
                        (seqZ 0 (gdbarch_num_regs arch)) regval_on_entry) w2
                = w2).
  { rewrite Hsplit. unfold exec. cbn [fetch_each]. unfold bind.
    by rewrite (fetch_one_aborts _ _ _ _ _ _ (too_wide_test _ _ Hwide)). }
  by rewrite Hw2.
Qed.

Lemma refresh_abort_leaves_cpu_switched_witness :
  let arch := Demo.arch_of [32; 8] in
  let w := Demo.w_cpus [0; 1] in
  let refresh := PerCpu.gdb_refresh_regcache arch
                   (Demo.read_cpu_reg (fun _ => true)) Demo.zeroes
                   Demo.set_cpu 1 in
  (inferior_ptid w ∈ thread_ptids w
   /\ Demo.cpu_ptid 1 ∈ thread_ptids w
   /\ seqZ 0 (gdbarch_num_regs arch) = [] ++ 0 :: [1]
   /\ too_wide arch 0)
  /\ result refresh w = Thrown buffer_too_small
  /\ crash (exec refresh w) = (Demo.set_cpu 1 FALSE (crash w)).2.
Proof.
  intros arch w refresh.
  assert (Hactive : inferior_ptid w ∈ thread_ptids w) by (by left).
  assert (Hin : Demo.cpu_ptid 1 ∈ thread_ptids w) by (right; by left).
  assert (Hsplit : seqZ 0 (gdbarch_num_regs arch) = [] ++ 0 :: [1])
    by reflexivity.
  assert (Hwide : too_wide arch 0).
  { unfold too_wide, sizeof_regval, INT_MAX. vm_compute. by split. }
  split; [by split_and!|].
  destruct (refresh_abort_leaves_cpu_switched arch
              (Demo.read_cpu_reg (fun _ => true)) Demo.zeroes Demo.set_cpu 1
              w [] 0 [1] Hactive Hin Hsplit (Forall_nil_2 _) Hwide)
    as (Hres & _ & Hfirst).
  split; [exact Hres|]. by destruct (Hfirst eq_refl).
Defined.

(** X16.  [gdb_refresh_regcache (cpu)] tells crash to switch to [cpu] but
    reads the registers for the CPU of gdb's active thread, which it
    does not switch: two read primitives that agree on the active
    thread's CPU give the same result and the same world, whatever they
    would answer for [cpu]. *)
Theorem refresh_reads_active_cpu {tool}
    (arch : gdbarch)
    (read1 read2 :
       Z -> Z -> string -> Z -> list byte -> tool -> (Z * list byte) * tool)
    (regval_on_entry : list byte)
    (set_cpu : Z -> Z -> tool -> Z * tool) (cpu : Z) (w : world tool) :
  inferior_ptid w ∈ thread_ptids w ->
  (forall r regname regsize val t,
     read1 (to_int (ptid_tid (inferior_ptid w))) r regname regsize val t
     = read2 (to_int (ptid_tid (inferior_ptid w))) r regname regsize val t) ->
  PerCpu.gdb_refresh_regcache arch read1 regval_on_entry set_cpu cpu w
  = PerCpu.gdb_refresh_regcache arch read2 regval_on_entry set_cpu cpu w.
Proof.
  intros Hactive Hext.
  set (ptid := mk_ptid CRASH_INFERIOR_PID 0 cpu).
  destruct (decide (ptid ∈ thread_ptids w)) as [Hin|Hnotin].
  - rewrite !(refresh_found _ _ _ _ _ _ Hactive Hin). cbv zeta.
    unfold result, exec.
    by rewrite (fetch_each_ext arch _ _ ptid Hext).
  - by rewrite !(refresh_missing _ _ _ _ _ _ Hactive Hnotin).
Qed.

Lemma refresh_reads_active_cpu_witness :
  let w := Demo.w_cpus [0; 1] in
  let read1 (cpu : Z) := Demo.read_reg (fun _ => true) in
  let read2 (cpu : Z) := Demo.read_reg (fun _ => cpu =? 0) in
  inferior_ptid w ∈ thread_ptids w
  /\ PerCpu.gdb_refresh_regcache (Demo.arch_of [8]) read1 Demo.zeroes
       Demo.set_cpu 1 w
     = PerCpu.gdb_refresh_regcache (Demo.arch_of [8]) read2 Demo.zeroes
         Demo.set_cpu 1 w.
Proof.
  intros w read1 read2.
  assert (Hactive : inferior_ptid w ∈ thread_ptids w) by (by left).
  split; [exact Hactive|].
  apply (refresh_reads_active_cpu (Demo.arch_of [8]) read1 read2 Demo.zeroes
           Demo.set_cpu 1 w Hactive).
  reflexivity.
Defined.

(** ** Initialization *)

Lemma no_fetch_events_filter arch regcache (done : list answer) :
  List.filter (fun e => negb (is_get_reg e || is_raw_supply e))
              (concat (map (answer_events arch regcache) done)) = [].
Proof.
  destruct (answer_events_numbers arch regcache done) as (_ & _ & Hall).
  induction Hall as [|e l He _ IH]; [done|]. cbn. by rewrite He, IH.
Qed.

(** X17.  Per-task variant: [crash_target_init], when gdb creates the
    thread record and all registers fit, returns after exactly these
    steps, in this order: one thread record with identifier
    (CRASH_INFERIOR_PID, 0, 0) is added and made the active thread, all
    registers 0..N-1 are fetched in order into its cache (every one is
    populated), and the frame cache is invalidated once.  The marker is
    not touched. *)
Theorem pertask_init_one_thread {tool}
    (arch : gdbarch)
    (crash_get_current_task_reg :
       Z -> string -> Z -> list byte -> tool -> (Z * list byte) * tool)
    (regval_on_entry : list byte)
    (new_thread_ok : list thread_info -> ptid_t -> bool) (w : world tool) :
  let ptid := mk_ptid CRASH_INFERIOR_PID 0 0 in
  let init := PerTask.crash_target_init arch crash_get_current_task_reg
                regval_on_entry new_thread_ok in
  new_thread_ok (thread_list w) ptid = true ->
  Forall (fits arch) (seqZ 0 (gdbarch_num_regs arch)) ->
  let w' := exec init w in
  result init w = Normal tt
  /\ thread_list w' = thread_list w ++ [mk_thread ptid]
  /\ inferior_ptid w' = ptid
  /\ omap get_reg_number (new_events w w') = seqZ 0 (gdbarch_num_regs arch)
  /\ List.filter (fun e => negb (is_get_reg e || is_raw_supply e))
                 (new_events w w')
     = [EvAddThread ptid true; EvSwitchToThread ptid; EvReinitFrameCache]
  /\ (forall r, 0 <= r < gdbarch_num_regs arch ->
        exists rc val, regs_of w' ptid !! r = Some (supplied arch r rc val))
  /\ prev_task w' = prev_task w.
Proof.
  intros ptid init Hok Hfits w'.
  set (w1 := mk_world (crash w) (thread_list w ++ [mk_thread ptid]) ptid
               (regcaches w) (prev_task w)
               (trace w ++ [EvAddThread ptid true; EvSwitchToThread ptid])).
  set (run := fetch_each arch crash_get_current_task_reg ptid
                (seqZ 0 (gdbarch_num_regs arch)) regval_on_entry).
  destruct (fetch_each_complete arch crash_get_current_task_reg ptid
              (seqZ 0 (gdbarch_num_regs arch)) regval_on_entry w1 Hfits)
    as (done & val & Hdone & Hres & Ht & Hi & Hp & Hc & Htr).
  fold run in Hres, Ht, Hi, Hp, Hc, Htr.
  assert (E : init w
              = (Normal tt,
                 set_trace (exec run w1)
                   (trace (exec run w1) ++ [EvReinitFrameCache]))).
  { unfold init, PerTask.crash_target_init.
    unfold bind at 1. rewrite add_thread_silent_run. fold ptid. rewrite Hok.
    rewrite (bind_run _ _ _ _ _ (switch_to_thread_run (mk_thread ptid) _)).
    cbn [ti_ptid crash thread_list regcaches prev_task trace].
    rewrite <- app_assoc. cbn [app]. fold w1.
    unfold bind at 1.
    rewrite (bind_run get_current_regcache _ w1 ptid w1 eq_refl).
    unfold PerTask.target_fetch_registers.
    rewrite pertask_fetch_registers_run.
    change (requested_per_task arch (-1))
      with (seqZ 0 (gdbarch_num_regs arch)).
    fold run. by rewrite Hres. }
  destruct (answer_events_numbers arch ptid done) as (Hg & _ & _).
  unfold w', result, exec, new_events, regs_of. rewrite E.
  cbn [fst snd set_trace thread_list inferior_ptid regcaches prev_task trace].
  rewrite Htr, Ht, Hi, Hp, Hc. unfold w1.
  cbn [thread_list inferior_ptid regcaches prev_task trace].
  rewrite <- !app_assoc, drop_app_length.
  rewrite !omap_app, !List.filter_app, Hg, Hdone, no_fetch_events_filter.
  cbn [omap list_omap get_reg_number app]. rewrite app_nil_r.
  split_and!; try done.
  intros r Hr. apply supply_fold_populates.
  - rewrite Hdone. apply NoDup_seqZ.
  - rewrite Hdone. apply elem_of_seqZ. lia.
Qed.

Lemma pertask_init_one_thread_witness :
  let init := PerTask.crash_target_init (Demo.arch_of [8; 4])
                (Demo.read_reg (fun _ => true)) Demo.zeroes Demo.always in
  (Demo.always (thread_list Demo.w0) (Demo.cpu_ptid 0) = true
   /\ Forall (fits (Demo.arch_of [8; 4])) [0; 1])
  /\ result init Demo.w0 = Normal tt
  /\ thread_list (exec init Demo.w0) = [mk_thread (Demo.cpu_ptid 0)]
  /\ omap get_reg_number (new_events Demo.w0 (exec init Demo.w0)) = [0; 1].
Proof.
  intros init.
  assert (Hok : Demo.always (thread_list Demo.w0) (Demo.cpu_ptid 0) = true)
    by reflexivity.
  assert (Hfits : Forall (fits (Demo.arch_of [8; 4])) [0; 1]).
  { repeat apply Forall_cons_2; try apply Forall_nil_2;
      unfold fits, sizeof_regval; vm_compute; by split. }
  split; [by split|].
  destruct (pertask_init_one_thread (Demo.arch_of [8; 4])
              (Demo.read_reg (fun _ => true)) Demo.zeroes Demo.always Demo.w0
              Hok Hfits) as (Hres & Hthreads & _ & Hreads & _).
  by split_and!.
Defined.

Lemma add_cpu_threads_all {tool}
    (new_thread_ok : list thread_info -> ptid_t -> bool) (cpus : list Z) :
  (forall l p, new_thread_ok l p = true) ->
  forall w : world tool,
    PerCpu.add_cpu_threads new_thread_ok cpus w
    = (Normal tt,
       mk_world (crash w)
         (thread_list w
            ++ map (fun i => mk_thread (mk_ptid CRASH_INFERIOR_PID 0 i)) cpus)
         (if bool_decide (0 ∈ cpus) then mk_ptid CRASH_INFERIOR_PID 0 0
          else inferior_ptid w)
         (regcaches w) (prev_task w)
         (trace w ++ concat (map init_events cpus))).
Proof.
  intros Hok. induction cpus as [|i cpus IH]; intros w.
  - cbn. rewrite !app_nil_r. by destruct w.
  - cbn [PerCpu.add_cpu_threads].
    unfold bind at 1. rewrite add_thread_silent_run, Hok.
    cbn [map concat]. unfold init_events at 1.
    destruct (Z.eqb_spec i 0) as [->|Hne].
    + rewrite (bind_run _ _ _ _ _ (switch_to_thread_run _ _)).
      rewrite IH.
      cbn [crash thread_list inferior_ptid regcaches prev_task trace ti_ptid].
      rewrite (bool_decide_eq_true_2 (0 ∈ 0 :: cpus)) by (by left).
      rewrite <- !app_assoc. cbn [app].
      by destruct (bool_decide (0 ∈ cpus)).
    + unfold bind at 1, ret. rewrite IH.
      cbn [crash thread_list inferior_ptid regcaches prev_task trace].
      rewrite <- !app_assoc. cbn [app].
      assert (bool_decide (0 ∈ i :: cpus) = bool_decide (0 ∈ cpus)) as ->;
        [|done].
      apply bool_decide_ext. rewrite elem_of_cons.
      split; [intros [Hi|Hi]; [congruence|done] | by right].
Qed.

Lemma init_events_numbers (cpus : list Z) :
  omap get_reg_number (concat (map init_events cpus)) = []
  /\ count is_add_thread (concat (map init_events cpus)) = length cpus
  /\ count is_reinit_frame_cache (concat (map init_events cpus)) = 0%nat.
Proof.
  induction cpus as [|i cpus (IH1 & IH2 & IH3)]; [done|].
  cbn [map concat]. rewrite omap_app, !count_app, IH1, IH2, IH3.
  unfold init_events. by destruct (i =? 0).
Qed.

(** X18.  Per-CPU variant: [crash_target_init] with [n > 0] CPUs, when gdb
    creates every record and all registers fit, returns with [n] thread
    records added, for the CPU indices 0..n-1 in this order, the one of
    CPU 0 active; all registers 0..N-1 have been fetched once, in order,
    into the cache of CPU 0's thread, and the frame cache has been
    invalidated once. *)
Theorem percpu_init_one_thread_per_cpu {tool}
    (arch : gdbarch)
    (crash_get_cpu_reg :
       Z -> Z -> string -> Z -> list byte -> tool -> (Z * list byte) * tool)
    (crash_get_nr_cpus : tool -> Z * tool)
    (new_thread_ok : list thread_info -> ptid_t -> bool)
    (regval_on_entry : list byte) (w : world tool) (n : Z) (c : tool) :
  let ptid0 := mk_ptid CRASH_INFERIOR_PID 0 0 in
  let init := PerCpu.crash_target_init arch crash_get_cpu_reg
                crash_get_nr_cpus new_thread_ok regval_on_entry in
  crash_get_nr_cpus (crash w) = (n, c) ->
  0 < n ->
  (forall l p, new_thread_ok l p = true) ->
  Forall (fits arch) (seqZ 0 (gdbarch_num_regs arch)) ->
  let w' := exec init w in
  result init w = Normal tt
  /\ thread_ptids w'
     = thread_ptids w ++ map (mk_ptid CRASH_INFERIOR_PID 0) (seqZ 0 n)
  /\ inferior_ptid w' = ptid0
  /\ count is_add_thread (trace w')
     = (count is_add_thread (trace w) + Z.to_nat n)%nat
  /\ omap get_reg_number (new_events w w') = seqZ 0 (gdbarch_num_regs arch)
  /\ count is_reinit_frame_cache (trace w')
     = S (count is_reinit_frame_cache (trace w))
  /\ (forall r, 0 <= r < gdbarch_num_regs arch ->
        exists rc val, regs_of w' ptid0 !! r = Some (supplied arch r rc val)).
Proof.
  intros ptid0 init Hn Hpos Hok Hfits w'.
  set (cpus := seqZ 0 n).
  assert (H0 : 0 ∈ cpus) by (apply elem_of_seqZ; lia).
  set (w1 := mk_world c
               (thread_list w
                  ++ map (fun i => mk_thread (mk_ptid CRASH_INFERIOR_PID 0 i))
                       cpus)
               ptid0 (regcaches w) (prev_task w)
               ((trace w ++ [EvGetNrCpus n])
                  ++ concat (map init_events cpus))).
  set (run := fetch_each arch (crash_get_cpu_reg (to_int 0)) ptid0
                (seqZ 0 (gdbarch_num_regs arch)) regval_on_entry).
  destruct (fetch_each_complete arch (crash_get_cpu_reg (to_int 0)) ptid0
              (seqZ 0 (gdbarch_num_regs arch)) regval_on_entry w1 Hfits)
    as (done & val & Hdone & Hres & Ht & Hi & _ & Hc & Htr).
  fold run in Hres, Ht, Hi, Hc, Htr.
  assert (E : init w
              = (Normal tt,
                 set_trace (exec run w1)
                   (trace (exec run w1) ++ [EvReinitFrameCache]))).
  { unfold init, PerCpu.crash_target_init.
    rewrite (bind_run _ _ w n (set_crash w c))
      by (unfold call; by rewrite Hn).
    rewrite (bind_run (log _) _ _ tt _ eq_refl).
    unfold bind at 1. fold cpus. rewrite (add_cpu_threads_all _ _ Hok).
    rewrite bool_decide_eq_true_2 by done.
    cbn [set_trace set_crash crash thread_list regcaches prev_task trace].
    fold ptid0. fold w1.
    unfold bind at 1.
    rewrite (bind_run get_current_regcache _ w1 ptid0 w1 eq_refl).
    unfold PerCpu.target_fetch_registers.
    rewrite percpu_fetch_registers_run. unfold requested_per_cpu.
    cbn [inferior_ptid w1 ptid_tid ptid0]. fold run. by rewrite Hres. }
  destruct (answer_events_numbers arch ptid0 done) as (Hg & _ & _).
  destruct (init_events_numbers cpus) as (Hig & Hia & Hir).
  unfold w', result, exec, new_events, regs_of, thread_ptids. rewrite E.
  cbn [fst snd set_trace thread_list inferior_ptid regcaches trace].
  rewrite Htr, Ht, Hi, Hc. unfold w1.
  cbn [thread_list inferior_ptid regcaches trace].
  rewrite <- !app_assoc, drop_app_length.
  rewrite !omap_app, !count_app, Hg, Hig, Hia, Hir, Hdone.
  rewrite !count_answer_events by done.
  cbn [omap list_omap get_reg_number app]. rewrite app_nil_r.
  split_and!; try done.
  - rewrite map_app, map_map. done.
  - unfold cpus. rewrite length_seqZ. cbn. lia.
  - cbn. lia.
  - intros r Hr. apply supply_fold_populates.
    + rewrite Hdone. apply NoDup_seqZ.
    + rewrite Hdone. apply elem_of_seqZ. lia.
Qed.

Lemma percpu_init_one_thread_per_cpu_witness :
  let init := PerCpu.crash_target_init (Demo.arch_of [8])
                (Demo.read_cpu_reg (fun _ => true)) (Demo.nr_cpus 2)
                Demo.always Demo.zeroes in
  (Demo.nr_cpus 2 (crash Demo.w0) = (2, 1%nat)
   /\ 0 < 2
   /\ (forall l p, Demo.always l p = true)
   /\ Forall (fits (Demo.arch_of [8])) [0])
  /\ result init Demo.w0 = Normal tt
  /\ thread_ptids (exec init Demo.w0) = [Demo.cpu_ptid 0; Demo.cpu_ptid 1]
  /\ inferior_ptid (exec init Demo.w0) = Demo.cpu_ptid 0.
Proof.
  intros init.
  assert (Hn : Demo.nr_cpus 2 (crash Demo.w0) = (2, 1%nat)) by reflexivity.
  assert (Hpos : 0 < 2) by lia.
  assert (Hok : forall l p, Demo.always l p = true) by reflexivity.
  assert (Hfits : Forall (fits (Demo.arch_of [8])) [0]).
  { repeat apply Forall_cons_2; try apply Forall_nil_2;
      unfold fits, sizeof_regval; vm_compute; by split. }
  split; [by split_and!|].
  destruct (percpu_init_one_thread_per_cpu (Demo.arch_of [8])
              (Demo.read_cpu_reg (fun _ => true)) (Demo.nr_cpus 2)
              Demo.always Demo.zeroes Demo.w0 2 1%nat Hn Hpos Hok Hfits)
    as (Hres & Hthreads & Hactive & _).
  by split_and!.
Defined.

(** ** The retry of the lookup *)

(** X19.  Per-CPU variant: the [goto retry] of [gdb_change_thread_context]
    is taken at most once.  Starting with [tried = 0], two passes through
    the label always end the loop, whatever bound above two is allowed:
    the loop ends with [tried] 0 and the record found at the first
    lookup, or with [tried] 1 after exactly one creation attempt, the
    record being null only if that attempt failed; there are at most two
    lookups. *)
Theorem retry_taken_at_most_once {tool}
    (new_thread_ok : list thread_info -> ptid_t -> bool)
    (fuel : nat) (cpu : Z) (w : world tool) :
  let ptid := mk_ptid CRASH_INFERIOR_PID 0 cpu in
  let loop n := PerCpu.retry_loop new_thread_ok n cpu ptid 0 in
  loop (S (S fuel)) w = loop 2%nat w
  /\ exists tp tried,
       result (loop 2%nat) w = Normal (Some (tp, tried))
       /\ ((tried = 0 /\ is_Some tp
            /\ count is_add_thread (trace (exec (loop 2%nat) w))
               = count is_add_thread (trace w)
            /\ count is_find_thread (trace (exec (loop 2%nat) w))
               = S (count is_find_thread (trace w)))
           \/ (tried = 1
               /\ (tp = None <-> new_thread_ok (thread_list w) ptid = false)
               /\ count is_add_thread (trace (exec (loop 2%nat) w))
                  = S (count is_add_thread (trace w))
               /\ (count is_find_thread (trace (exec (loop 2%nat) w))
                   <= count is_find_thread (trace w) + 2)%nat)).
Proof.
  intros ptid loop. split; [apply retry_loop_fuel|].
  unfold loop, result, exec. subst ptid. clear loop.
  destruct (decide (mk_ptid CRASH_INFERIOR_PID 0 cpu ∈ thread_ptids w))
    as [Hin|Hnotin].
  { rewrite (retry_loop_found new_thread_ok cpu w Hin).
    cbn [fst snd set_trace trace]. eexists _, _. split; [done|]. left.
    rewrite !count_app. split_and!; try done; cbn; lia. }
  destruct (new_thread_ok (thread_list w) (mk_ptid CRASH_INFERIOR_PID 0 cpu))
    eqn:Hok.
  - rewrite (retry_loop_creation_succeeds new_thread_ok cpu w Hnotin Hok).
    cbn [fst snd trace]. eexists _, _. split; [done|]. right.
    rewrite !count_app. split_and!; try done; cbn; lia.
  - rewrite (retry_loop_creation_fails new_thread_ok cpu w Hnotin Hok).
    cbn [fst snd set_trace trace]. eexists _, _. split; [done|]. right.
    rewrite !count_app. split_and!; try done; cbn; lia.
Qed.

(** ** Per-task variant: a change of context followed by a fetch *)

(** X20.  Per-task variant: after a notification whose handle differs from
    the marker, no register value fetched earlier is left in any cache;
    a fetch of the single register [r] that follows (its width fitting)
    leaves in the cache it fills the entry of [r], taken from what the
    primitive answers now, and nothing else.  After a notification whose
    handle equals the marker every cache entry is still there. *)
Theorem pertask_change_then_fetch {tool}
    (arch : gdbarch)
    (crash_get_current_task_reg :
       Z -> string -> Z -> list byte -> tool -> (Z * list byte) * tool)
    (regval_on_entry : list byte) (task : Z) (cache : ptid_t) (r : Z)
    (w : world tool) :
  let notify := PerTask.gdb_change_thread_context task in
  let fetch := PerTask.fetch_registers arch crash_get_current_task_reg
                 regval_on_entry cache r in
  let w1 := exec notify w in
  let w2 := exec fetch w1 in
  (task = prev_task w -> regcaches w1 = regcaches w)
  /\ (task <> prev_task w ->
      (forall c r', regs_of w1 c !! r' = None)
      /\ (0 <= r -> fits arch r ->
          result fetch w1 = Normal tt
          /\ (exists rc val,
                crash_get_current_task_reg r (gdbarch_register_name arch r)
                  (register_size arch r) regval_on_entry (crash w)
                = ((rc, val), crash w2)
                /\ regs_of w2 cache !! r = Some (supplied arch r rc val))
          /\ (forall r', r' <> r -> regs_of w2 cache !! r' = None)
          /\ (forall c, c <> cache -> regcaches w2 !! c = None))).
Proof.
  intros notify fetch w1 w2. split.
  { intros Heq. unfold w1, exec, notify. by rewrite notify_same. }
  intros Hne.
  assert (Hw1 : w1 = mk_world (crash w) (thread_list w) (inferior_ptid w) ∅
                       task
                       (trace w ++ [EvRegistersChanged; EvReinitFrameCache])).
  { unfold w1, exec, notify. by rewrite notify_changed. }
  assert (Hnone : forall c r', regs_of w1 c !! r' = None).
  { intros c r'. rewrite Hw1. unfold regs_of. cbn [regcaches].
    by rewrite lookup_empty. }
  split; [exact Hnone|]. intros Hr Hfit.
  destruct (crash_get_current_task_reg r (gdbarch_register_name arch r)
              (register_size arch r) regval_on_entry (crash w))
    as [[rc val] c] eqn:Hread.
  assert (Hread1 : crash_get_current_task_reg r (gdbarch_register_name arch r)
                     (register_size arch r) regval_on_entry (crash w1)
                   = ((rc, val), c)) by (by rewrite Hw1).
  pose proof (fetch_one_passes arch crash_get_current_task_reg cache r
                regval_on_entry w1 rc val c (fits_test _ _ Hfit) Hread1) as E1.
  assert (E : fetch w1
              = (Normal tt,
                 mk_world c (thread_list w1) (inferior_ptid w1)
                   (supply_answer arch cache (regcaches w1) (r, rc, val))
                   (prev_task w1)
                   (trace w1 ++ answer_events arch cache (r, rc, val)))).
  { unfold fetch, PerTask.fetch_registers.
    destruct (Z.geb_spec r 0) as [_|]; [|lia].
    by rewrite bind_ret_tt; unfold result, exec; rewrite E1. }
  unfold w2, result, exec. rewrite E. cbn [fst snd crash].
  split_and!; try done.
  - exists rc, val. split; [done|]. unfold regs_of. cbn [regcaches].
    rewrite supply_answer_regs. apply lookup_insert_eq.
  - intros r' Hr'. unfold regs_of. cbn [regcaches].
    rewrite supply_answer_regs. cbn [answer_reg fst].
    rewrite lookup_insert_ne by congruence. apply Hnone.
  - intros c0 Hc0. cbn [regcaches]. rewrite supply_answer_other by done.
    rewrite Hw1. cbn [regcaches]. apply lookup_empty.
Qed.

Lemma pertask_change_then_fetch_witness :
  let w := exec (PerTask.fetch_registers (Demo.arch_of [8; 4])
                   (Demo.read_reg (fun _ => true)) Demo.zeroes
                   (Demo.cpu_ptid 0) (-1)) (Demo.w_cpus [0]) in
  let w2 := exec (PerTask.fetch_registers (Demo.arch_of [8; 4])
                    (Demo.read_reg (fun _ => true)) Demo.zeroes
                    (Demo.cpu_ptid 0) 1)
                 (exec (PerTask.gdb_change_thread_context 5) w) in
  (5 <> prev_task w /\ 0 <= 1 /\ fits (Demo.arch_of [8; 4]) 1)
  /\ is_Some (regs_of w (Demo.cpu_ptid 0) !! 0)
  /\ regs_of w2 (Demo.cpu_ptid 0) !! 0 = None.
Proof.
  intros w w2.
  assert (Hne : 5 <> prev_task w) by (vm_compute; discriminate).
  assert (Hr : 0 <= 1) by lia.
  assert (Hfit : fits (Demo.arch_of [8; 4]) 1).
  { unfold fits, sizeof_regval. vm_compute. by split. }
  split; [by split_and!|]. split; [eexists; vm_compute; reflexivity|].
  destruct (pertask_change_then_fetch (Demo.arch_of [8; 4])
              (Demo.read_reg (fun _ => true)) Demo.zeroes 5
              (Demo.cpu_ptid 0) 1 w) as [_ Hchange].
  destruct (Hchange Hne) as [_ Hfetch].
  destruct (Hfetch Hr Hfit) as (_ & _ & Hothers & _).
  apply Hothers. discriminate.
Defined.

Lemma xfer_partial_footprint_witness :
  exists r,
    result (xfer_partial (Demo.readmem 0) TARGET_OBJECT_MEMORY None
              (Some []) None 4096 8 77) Demo.w0 = Normal r
    /\ xfer_xfered_len r = 77.
Proof.
  destruct (xfer_partial_footprint (Demo.readmem 0) TARGET_OBJECT_MEMORY None
              (Some []) None 4096 8 77 Demo.w0)
    as (r & Hres & Hstatus & Hfail & _).
  exists r. split; [exact Hres|]. apply Hfail.
  vm_compute in Hres. injection Hres as <-. discriminate.
Defined.

Lemma percpu_notification_outcomes_witness :
  let w := Demo.w_cpus [0; 1] in
  let notify := PerCpu.gdb_change_thread_context (Demo.arch_of [32])
                  (Demo.read_cpu_reg (fun _ => true)) Demo.set_thread
                  Demo.always Demo.zeroes 101 in
  result notify w <> Normal TRUE
  /\ inferior_ptid (exec notify w) = inferior_ptid w
  /\ count is_reinit_frame_cache (trace (exec notify w))
     = count is_reinit_frame_cache (trace w).
Proof.
  intros w notify.
  assert (Hres : result notify w <> Normal TRUE) by (by vm_compute).
  split; [exact Hres|].
  destruct (percpu_notification_outcomes (Demo.arch_of [32])
              (Demo.read_cpu_reg (fun _ => true)) Demo.set_thread
              Demo.always Demo.zeroes 101 w) as (_ & _ & Hfail & _).
  destruct (Hfail Hres) as (Hi & _ & Hr). by split.
Defined.
